(** * Glossary-consistent translation pipeline: a shallow embedding

    The development follows the TypeScript sources:
    - [types.ts]               : [Term], [Chapter], [TermCategory];
    - [services/geminiService] : [extractTermsFromText],
      [findArabicTranslationForTerm], [translateChapterWithGlossary];
    - [NovelDashboard]         : [runDeepScan], [startBulkTranslation],
      [togglePause], [stopBulk].

    JavaScript strings are sequences of code units; they are embedded as
    [string], one [ascii] per code unit.  Numbers used as indices are [Z]
    (so that [indexOf] can answer [-1]); primary keys and time stamps are
    [N].  The generative service, the clock and the user are the
    environment: their answers are inputs of the model. *)

From Stdlib Require Import ZArith List Ascii String Lia.
From stdpp Require Import base option list gmap strings pretty.

Set Default Proof Using "Type".
Local Open Scope Z_scope.

(** ** JavaScript strings *)

Module Js.

Definition nl : string := String (ascii_of_nat 10) EmptyString.
Definition dquote : string := String (ascii_of_nat 34) EmptyString.

(** [s.length] *)
Definition length (s : string) : Z := Z.of_nat (String.length s).

(** An index argument of [substring]: below 0 it counts as 0, above the
    length as the length. *)
Definition clamp (len x : Z) : Z := Z.min (Z.max x 0) len.

(** [s.substring(indexStart, indexEnd)]: both arguments are clamped and
    swapped when the first exceeds the second. *)
Definition substring (s : string) (indexStart indexEnd : Z) : string :=
  let len := length s in
  let a := clamp len indexStart in
  let b := clamp len indexEnd in
  let lo := Z.min a b in
  let hi := Z.max a b in
  String.substring (Z.to_nat lo) (Z.to_nat (hi - lo)) s.

(** [s.slice(0, n)] for [0 <= n]. *)
Definition slice0 (s : string) (n : Z) : string :=
  String.substring 0 (Z.to_nat (Z.min n (length s))) s.

(** [s.indexOf(searchString)]: first position, or [-1]. *)
Definition indexOf (s searchString : string) : Z :=
  match String.index 0 searchString s with
  | Some n => Z.of_nat n
  | None => -1
  end.

(** [s.startsWith(p)] *)
Fixpoint startsWith (p s : string) : bool :=
  match p with
  | EmptyString => true
  | String a p' =>
      match s with
      | EmptyString => false
      | String b s' => Ascii.eqb a b && startsWith p' s'
      end
  end.

(** [s.includes(searchString)] *)
Definition includes (s searchString : string) : bool :=
  bool_decide (0 <= indexOf s searchString).

(** [xs.join(sep)] *)
Definition join (sep : string) (xs : list string) : string :=
  String.concat sep xs.

(** White space of [String.prototype.trim] among the 8-bit code units:
    TAB, LF, VT, FF, CR, SP and NBSP. *)
Definition isWhiteSpace (c : ascii) : bool :=
  bool_decide (nat_of_ascii c ∈ [9; 10; 11; 12; 13; 32; 160]%nat).

(** A string of white space only (the empty string included). *)
Fixpoint blank (s : string) : bool :=
  match s with
  | EmptyString => true
  | String c s' => isWhiteSpace c && blank s'
  end.

Fixpoint trimStart (s : string) : string :=
  match s with
  | EmptyString => EmptyString
  | String c s' => if isWhiteSpace c then trimStart s' else s
  end.

Fixpoint trimEnd (s : string) : string :=
  match s with
  | EmptyString => EmptyString
  | String c s' =>
      match trimEnd s' with
      | EmptyString => if isWhiteSpace c then EmptyString else String c EmptyString
      | r => String c r
      end
  end.

Definition trim (s : string) : string := trimEnd (trimStart s).

(** Truthiness of a [string | undefined] value: [undefined] and the
    empty string are falsy. *)
Definition truthy (v : option string) : bool :=
  match v with
  | Some s => negb (String.eqb s EmptyString)
  | None => false
  end.

(** [v || d] for [v : string | undefined]. *)
Definition orElse (v : option string) (d : string) : string :=
  match v with
  | Some s => if String.eqb s EmptyString then d else s
  | None => d
  end.

(** [xs.slice(0, n)] and [xs.slice(-n)] on arrays. *)
Definition sliceFirst {A} (n : nat) (xs : list A) : list A := take n xs.
Definition sliceLast {A} (n : nat) (xs : list A) : list A :=
  drop (List.length xs - n)%nat xs.

(** [xs.filter(Boolean)] on an array of objects-or-[undefined]. *)
Definition filterBoolean {A} (xs : list (option A)) : list A := omap id xs.

(** [String.prototype.toLowerCase] restricted to the letters A-Z; used
    where a concrete lowering function is needed. *)
Definition lowerAscii (c : ascii) : ascii :=
  let n := nat_of_ascii c in
  if bool_decide (65 <= n <= 90)%nat then ascii_of_nat (n + 32) else c.

Fixpoint toLowerCaseAscii (s : string) : string :=
  match s with
  | EmptyString => EmptyString
  | String c s' => String (lowerAscii c) (toLowerCaseAscii s')
  end.

End Js.

(** ** Completions: a JavaScript computation returns or throws *)

Inductive Completion (A : Type) : Type :=
| Normal (a : A)
| Throw (e : string).
Arguments Normal {A} a.
Arguments Throw {A} e.

(** ** Data model ([types.ts]) *)

Module TermCategory.
Definition PERSON : string := "Person".
Definition LOCATION : string := "Location".
Definition SKILL : string := "Martial Art/Skill".
Definition ITEM : string := "Item".
Definition ORGANIZATION : string := "Organization".
Definition OTHER : string := "Other".
End TermCategory.

Module Term.
(** [category] is a string enum; the deep scan stores whatever string
    the extractor answered ([as TermCategory] is not checked at run
    time), so the field is a [string]. *)
Record t : Type := mk {
  id : option N;
  novelId : N;
  original : string;
  translation : string;
  category : string;
  isLocked : bool
}.
End Term.

Module RawTerm.
(** [Partial<Term>] as the extractor answers it. *)
Record t : Type := mk {
  original : option string;
  category : option string
}.
End RawTerm.

Module Chapter.
Record t : Type := mk {
  id : N;
  novelId : N;
  title : string;
  order : Z;
  content : string;
  translatedContent : option string;
  lastTranslated : option N
}.
End Chapter.

(** ** A small monad for code that reads and writes a state and may throw *)

Definition Eff (S A : Type) : Type := S → Completion A * S.

Module EffOps.

Definition ret {S A} (a : A) : Eff S A := λ s, (Normal a, s).

Definition bind {S A B} (m : Eff S A) (k : A → Eff S B) : Eff S B :=
  λ s, match m s with
       | (Normal a, s') => k a s'
       | (Throw e, s') => (Throw e, s')
       end.

(** [try { body } catch (e) { handler e }] *)
Definition tryCatch {S A} (body : Eff S A) (handler : string → Eff S A) : Eff S A :=
  λ s, match body s with
       | (Normal a, s') => (Normal a, s')
       | (Throw e, s') => handler e s'
       end.

(** [await p] where the promise [p] settles as [c]. *)
Definition await {S A} (c : Completion A) : Eff S A := λ s, (c, s).

Definition modify {S} (f : S → S) : Eff S unit := λ s, (Normal tt, f s).

Definition gets {S A} (f : S → A) : Eff S A := λ s, (Normal (f s), s).

(** Run a computation on a component [T] of the state [S]. *)
Definition zoom {S T A} (get : S → T) (set : T → S → S) (m : Eff T A) : Eff S A :=
  λ s, let '(c, t') := m (get s) in (c, set t' s).

End EffOps.

Import EffOps.

Declare Scope eff_scope.
Delimit Scope eff_scope with eff.
Notation "x <- m ;; k" := (bind m (λ x, k))
  (at level 100, m at next level, right associativity) : eff_scope.
Notation "m ;;; k" := (bind m (λ _, k))
  (at level 100, right associativity) : eff_scope.
Local Open Scope eff_scope.

(** ** The generative service ([geminiService.ts]) *)

(** One line of [console.error]: its arguments, errors shown by their
    message. *)
Definition Console : Type := list (list string).

Definition console_error (args : list string) : Eff Console unit :=
  modify (λ c, c ++ [args]).

Module GeminiService.

(** The answer to one [ai.models.generateContent] request, as the
    callers see it: the [text] of the response (possibly [undefined]),
    or a rejection. *)
Definition Answer : Type := Completion (option string).

Definition unlines (ls : list string) : string := Js.join Js.nl ls.

Definition extractPrompt (textChunk : string) : string :=
  unlines [
    "";
    "    Analyze the following webnovel text. ";
    "    Identify key proper nouns and recurring terminology that require consistent translation.";
    "    Categorize them into: Person, Location, Martial Art/Skill, Item, Organization.";
    "    ";
    "    Return a JSON array where each object has:";
    "    - original: the term in source language";
    "    - category: one of the requested categories";
    "    ";
    "    Ignore common words. Focus on unique entities.";
    "    ";
    "    Text:";
    "    " +:+ Js.dquote +:+ Js.slice0 textChunk 30000 +:+ Js.dquote +:+ " ";
    "  " ].

(** [extractTermsFromText].  The service call followed by
    [JSON.parse(response.text || ...)] is one step of the environment:
    [generateAndParse prompt] is the parsed array, or the error thrown
    by either. *)
Definition extractTermsFromText (textChunk : string)
    (generateAndParse : string → Completion (list RawTerm.t))
  : Eff Console (list RawTerm.t) :=
  let prompt := extractPrompt textChunk in
  tryCatch
    (result <- await (generateAndParse prompt) ;;
     ret result)
    (λ error,
       console_error ["Extraction error:"; error] ;;;
       ret []).

Definition searchPrompt (term contextSnippet : string) : string :=
  unlines [
    "";
    "    Find the established or most accurate Arabic translation/transliteration for the webnovel term: "
      +:+ Js.dquote +:+ term +:+ Js.dquote +:+ ".";
    "    Context of usage: " +:+ Js.dquote +:+ contextSnippet +:+ Js.dquote +:+ ".";
    "    ";
    "    If it is a famous anime/novel term (e.g., from Naruto, One Piece, Wuxia novels), find the community accepted Arabic term.";
    "    If it is a generic name, transliterate it accurately to Arabic phonetics.";
    "    ";
    "    Return ONLY the Arabic translation string. Nothing else.";
    "  " ].

Definition isQuote (c : ascii) : bool :=
  bool_decide (nat_of_ascii c ∈ [34; 39]%nat).

Fixpoint dropLastQuote (s : string) : string :=
  match s with
  | EmptyString => EmptyString
  | String c EmptyString => if isQuote c then EmptyString else s
  | String c s' => String c (dropLastQuote s')
  end.

(** [cleanText.replace(/^[QUOTE]|[QUOTE]$/g, '')]: one quote character
    is removed at the start and one at the end. *)
Definition stripQuotes (s : string) : string :=
  match s with
  | EmptyString => EmptyString
  | String c s' => if isQuote c then dropLastQuote s' else dropLastQuote s
  end.

(** [findArabicTranslationForTerm] *)
Definition findArabicTranslationForTerm (term contextSnippet : string)
    (generateContent : string → Answer) : Eff Console string :=
  let prompt := searchPrompt term contextSnippet in
  tryCatch
    (text <- await (generateContent prompt) ;;
     let cleanText := Js.orElse (Js.trim <$> text) "" in
     let cleanText := stripQuotes cleanText in
     ret cleanText)
    (λ error,
       console_error ["Search error for " +:+ term +:+ ":"; error] ;;;
       ret term).

Definition glossaryLine (g : Term.t) : string :=
  Term.original g +:+ " -> " +:+ Term.translation g.

Definition translatePrompt (glossaryString content : string) : string :=
  unlines [
    "";
    "    Translate the following webnovel chapter to Arabic.";
    "    ";
    "    CRITICAL RULES:";
    "    1. You MUST strictly adhere to the provided Glossary. If a term appears in the text, use the exact Arabic translation provided below.";
    "    2. Maintain the tone and flow of a webnovel (engaging, dramatic where necessary).";
    "    3. Output ONLY the translated Arabic text.";
    "    ";
    "    GLOSSARY (Strict adherence required):";
    "    " +:+ glossaryString;
    "    ";
    "    CHAPTER CONTENT:";
    "    " +:+ content;
    "  " ].

Definition translationFailed : string := "Translation failed.".
Definition errorGenerating : string :=
  "Error generating translation. Please check API Key or quota.".

(** [translateChapterWithGlossary] *)
Definition translateChapterWithGlossary (content : string) (glossary : list Term.t)
    (generateContent : string → Answer) : Eff Console string :=
  let glossaryString := Js.join Js.nl (map glossaryLine glossary) in
  let prompt := translatePrompt glossaryString content in
  tryCatch
    (text <- await (generateContent prompt) ;;
     ret (Js.orElse text translationFailed))
    (λ error,
       console_error ["Translation error:"; error] ;;;
       ret errorGenerating).

End GeminiService.

(** ** The glossary table ([db.glossary], schema [++id, novelId, original, category]) *)

Module Glossary.

(** Rows in primary-key order together with the key generator.  The
    schema puts no uniqueness constraint on [original]. *)
Record table : Type := mk {
  rows : list Term.t;
  nextKey : N
}.

Definition empty : table := {| rows := []; nextKey := 1%N |}.

(** [db.glossary.where({ novelId }).toArray()] *)
Definition whereNovel (novelId : N) (t : table) : list Term.t :=
  List.filter (λ r, N.eqb (Term.novelId r) novelId) (rows t).

Definition withId (k : N) (r : Term.t) : Term.t :=
  Term.mk (Some k) (Term.novelId r) (Term.original r) (Term.translation r)
          (Term.category r) (Term.isLocked r).

(** [db.glossary.add(row)] for a row without [id]. *)
Definition add (r : Term.t) (t : table) : table :=
  {| rows := rows t ++ [withId (nextKey t) r]; nextKey := (nextKey t + 1)%N |}.

End Glossary.

(** ** The deep scan ([runDeepScan]) *)

Module Scan.

(** What the scan reads and writes.  [scanProgress] keeps every label
    given to [setScanProgress], oldest first; [termRequests] records the
    arguments of the successive calls of [findArabicTranslationForTerm]. *)
Record State : Type := mk {
  glossary : Glossary.table;
  console : Console;
  isScanning : bool;
  scanProgress : list string;
  termRequests : list (string * string)
}.

Definition init (g : Glossary.table) : State :=
  {| glossary := g; console := []; isScanning := false;
     scanProgress := []; termRequests := [] |}.

Definition withGlossary (g : Glossary.table) (s : State) : State :=
  mk g (console s) (isScanning s) (scanProgress s) (termRequests s).
Definition withConsole (c : Console) (s : State) : State :=
  mk (glossary s) c (isScanning s) (scanProgress s) (termRequests s).
Definition setIsScanning (b : bool) : Eff State unit :=
  modify (λ s, mk (glossary s) (console s) b (scanProgress s) (termRequests s)).
Definition setScanProgress (label : string) : Eff State unit :=
  modify (λ s, mk (glossary s) (console s) (isScanning s)
                  (scanProgress s ++ [label]) (termRequests s)).
Definition recordRequest (term snippet : string) : Eff State unit :=
  modify (λ s, mk (glossary s) (console s) (isScanning s) (scanProgress s)
                  (termRequests s ++ [(term, snippet)])).

Definition onConsole {A} (m : Eff Console A) : Eff State A :=
  zoom console withConsole m.

(** The environment of one scan: the extractor's parsed answer, the
    answer to the [k]-th term request, and how the store's operations
    settle. *)
Record Env : Type := mkEnv {
  generateAndParse : string → Completion (list RawTerm.t);
  generateContent : nat → string → GeminiService.Answer;
  glossaryToArray : Completion unit;
  glossaryAdd : nat → Completion unit
}.

End Scan.

Section DeepScan.

(** [String.prototype.toLowerCase] *)
Variable toLowerCase : string → string.

(** The sample: [[...chapters.slice(0, 3), chapters[Math.floor(chapters.length / 2)],
    ...chapters.slice(-3)].filter(Boolean)] *)
Definition sampleChapters (chapters : list Chapter.t) : list Chapter.t :=
  Js.filterBoolean
    ((Some <$> Js.sliceFirst 3 chapters)
       ++ [chapters !! (List.length chapters / 2)%nat]
       ++ (Some <$> Js.sliceLast 3 chapters)).

Definition combinedText (chapters : list Chapter.t) : string :=
  Js.join (Js.nl +:+ Js.nl) (map Chapter.content (sampleChapters chapters)).

(** [new Set(existingTerms.map(t => t.original.toLowerCase()))] *)
Definition existingOriginals (existingTerms : list Term.t) : gset string :=
  list_to_set (map (λ t, toLowerCase (Term.original t)) existingTerms).

(** [t.original && !existingOriginals.has(t.original.toLowerCase())] *)
Definition isNew (existing : gset string) (t : RawTerm.t) : bool :=
  match RawTerm.original t with
  | Some o =>
      negb (String.eqb o EmptyString) && negb (bool_decide (toLowerCase o ∈ existing))
  | None => false
  end.

(** The term resolution: [rawTerms.filter(...)] *)
Definition uniqueNewTerms (rawTerms : list RawTerm.t) (existingTerms : list Term.t)
  : list RawTerm.t :=
  List.filter (isNew (existingOriginals existingTerms)) rawTerms.

(** [combinedText.substring(combinedText.indexOf(original),
                           combinedText.indexOf(original) + 100)] *)
Definition contextSnippet (text original : string) : string :=
  Js.substring text (Js.indexOf text original) (Js.indexOf text original + 100).

(** The row given to [db.glossary.add]. *)
Definition newTerm (novelId : N) (original : string) (category : option string)
    (translation : string) : Term.t :=
  {| Term.id := None;
     Term.novelId := novelId;
     Term.original := original;
     Term.category := Js.orElse category TermCategory.OTHER;
     Term.translation := translation;
     Term.isLocked := false |}.

(** The loop [for (const term of uniqueNewTerms)]; [total] is
    [uniqueNewTerms.length] and [completed] the counter. *)
Fixpoint translateTerms (env : Scan.Env) (novelId : N) (text : string) (total : nat)
    (terms : list RawTerm.t) (completed : nat) : Eff Scan.State unit :=
  match terms with
  | [] => ret tt
  | term :: rest =>
      match RawTerm.original term with
      | Some original =>
          if String.eqb original EmptyString
          then translateTerms env novelId text total rest completed
          else
            let snippet := contextSnippet text original in
            Scan.recordRequest original snippet ;;;
            translation <- Scan.onConsole
              (GeminiService.findArabicTranslationForTerm original snippet
                 (Scan.generateContent env completed)) ;;
            await (Scan.glossaryAdd env completed) ;;;
            modify (λ s, Scan.withGlossary
              (Glossary.add (newTerm novelId original (RawTerm.category term) translation)
                            (Scan.glossary s)) s) ;;;
            let completed := S completed in
            Scan.setScanProgress
              ("Translating terms: " +:+ pretty completed +:+ "/" +:+ pretty total) ;;;
            translateTerms env novelId text total rest completed
      | None => translateTerms env novelId text total rest completed
      end
  end.

(** The body of the [try] block. *)
Definition scanBody (env : Scan.Env) (novelId : N) (chapters : list Chapter.t)
  : Eff Scan.State unit :=
  let text := combinedText chapters in
  Scan.setScanProgress "Extracting entities (AI)..." ;;;
  rawTerms <- Scan.onConsole
    (GeminiService.extractTermsFromText text (Scan.generateAndParse env)) ;;
  await (Scan.glossaryToArray env) ;;;
  existingTerms <- gets (λ s, Glossary.whereNovel novelId (Scan.glossary s)) ;;
  let new := uniqueNewTerms rawTerms existingTerms in
  Scan.setScanProgress
    ("Found " +:+ pretty (List.length new) +:+ " new terms. Translating...") ;;;
  translateTerms env novelId text (List.length new) new 0 ;;;
  Scan.setScanProgress "Scan Complete!".

(** [runDeepScan]; [chapters] is the live query's value, [None] while it
    is loading.  The two [setTimeout(() => setIsScanning(false), ...)]
    run after the function has returned and are not part of it. *)
Definition runDeepScan (env : Scan.Env) (novelId : N)
    (chapters : option (list Chapter.t)) (s : Scan.State) : Scan.State :=
  match chapters with
  | None | Some [] => s
  | Some chapters =>
      snd ((Scan.setIsScanning true ;;;
            Scan.setScanProgress "Initializing Deep Scan..." ;;;
            tryCatch (scanBody env novelId chapters)
              (λ err,
                 Scan.onConsole (console_error [err]) ;;;
                 Scan.setScanProgress "Scan Failed.")) s)
  end.

End DeepScan.

(** ** The batch translation ([startBulkTranslation], [togglePause], [stopBulk]) *)

Module Bulk.

Record Progress : Type := mkProgress {
  current : nat;
  total : nat;
  chapterName : string
}.

(** The local variables of one invocation of [startBulkTranslation]. *)
Record Run : Type := mkRun {
  untranslated : list Chapter.t;
  glossary : list Term.t
}.

(** The [await] at which an invocation is suspended; [Returned] once the
    invocation has returned, or has been ended by a rejected query.  [i]
    is the loop counter and [chapter] is [untranslated[i]], which the
    loop test [i < untranslated.length] guarantees to exist. *)
Inductive Pc : Type :=
| Returned
| AwaitGlossary (untranslated : list Chapter.t)
| PauseWait (r : Run) (i : nat) (chapter : Chapter.t)
| AwaitTranslate (r : Run) (i : nat) (chapter : Chapter.t)
| AwaitUpdate (r : Run) (i : nat) (chapter : Chapter.t) (result : string) (date : N)
| Cooldown (r : Run) (i : nat).

(** The store, the console, the component's state and refs, and the
    invocations of [startBulkTranslation] that have reached their first
    [await], in the order of the calls.  Nothing in the handler prevents
    a call while an earlier invocation is suspended: after [stopBulk] the
    component shows the Start banner again although the stopped
    invocation has not returned.  The invocations share everything but
    their local variables.  [translateCalls] records the [id] of the
    chapter of each call of [translateChapterWithGlossary], oldest
    first. *)
Record State : Type := mk {
  chapters : gmap N Chapter.t;
  glossaryTable : Glossary.table;
  console : Console;
  alerts : list string;
  isBulkTranslating : bool;
  bulkPaused : bool;
  bulkProgress : Progress;
  stopSignal : bool;
  bulkPausedRef : bool;
  translateCalls : list N;
  invocations : list Pc
}.

Definition init (chapters : gmap N Chapter.t) (g : Glossary.table) : State :=
  {| chapters := chapters; glossaryTable := g; console := []; alerts := [];
     isBulkTranslating := false; bulkPaused := false;
     bulkProgress := mkProgress 0 0 ""; stopSignal := false;
     bulkPausedRef := false; translateCalls := []; invocations := [] |}.

Definition withChapters (t : gmap N Chapter.t) (s : State) : State :=
  mk t (glossaryTable s) (console s) (alerts s) (isBulkTranslating s) (bulkPaused s)
     (bulkProgress s) (stopSignal s) (bulkPausedRef s) (translateCalls s) (invocations s).
Definition withConsole (c : Console) (s : State) : State :=
  mk (chapters s) (glossaryTable s) c (alerts s) (isBulkTranslating s) (bulkPaused s)
     (bulkProgress s) (stopSignal s) (bulkPausedRef s) (translateCalls s) (invocations s).
Definition alert (msg : string) (s : State) : State :=
  mk (chapters s) (glossaryTable s) (console s) (alerts s ++ [msg]) (isBulkTranslating s)
     (bulkPaused s) (bulkProgress s) (stopSignal s) (bulkPausedRef s) (translateCalls s)
     (invocations s).
Definition setIsBulkTranslating (b : bool) (s : State) : State :=
  mk (chapters s) (glossaryTable s) (console s) (alerts s) b (bulkPaused s)
     (bulkProgress s) (stopSignal s) (bulkPausedRef s) (translateCalls s) (invocations s).
(** [setBulkPaused(b)] together with the effect that follows the render,
    [bulkPausedRef.current = bulkPaused]. *)
Definition setBulkPaused (b : bool) (s : State) : State :=
  mk (chapters s) (glossaryTable s) (console s) (alerts s) (isBulkTranslating s) b
     (bulkProgress s) (stopSignal s) b (translateCalls s) (invocations s).
Definition setBulkProgress (p : Progress) (s : State) : State :=
  mk (chapters s) (glossaryTable s) (console s) (alerts s) (isBulkTranslating s)
     (bulkPaused s) p (stopSignal s) (bulkPausedRef s) (translateCalls s) (invocations s).
Definition setStopSignal (b : bool) (s : State) : State :=
  mk (chapters s) (glossaryTable s) (console s) (alerts s) (isBulkTranslating s)
     (bulkPaused s) (bulkProgress s) b (bulkPausedRef s) (translateCalls s) (invocations s).
Definition recordCall (id : N) (s : State) : State :=
  mk (chapters s) (glossaryTable s) (console s) (alerts s) (isBulkTranslating s)
     (bulkPaused s) (bulkProgress s) (stopSignal s) (bulkPausedRef s)
     (translateCalls s ++ [id]) (invocations s).
(** The invocation [k] is suspended at [p] (or has returned). *)
Definition goto (k : nat) (p : Pc) (s : State) : State :=
  mk (chapters s) (glossaryTable s) (console s) (alerts s) (isBulkTranslating s)
     (bulkPaused s) (bulkProgress s) (stopSignal s) (bulkPausedRef s)
     (translateCalls s) (<[k := p]> (invocations s)).
(** A new invocation reaches its first [await]. *)
Definition spawn (p : Pc) (s : State) : State :=
  mk (chapters s) (glossaryTable s) (console s) (alerts s) (isBulkTranslating s)
     (bulkPaused s) (bulkProgress s) (stopSignal s) (bulkPausedRef s)
     (translateCalls s) (invocations s ++ [p]).

(** The promise that a suspended invocation awaits, and how it settles. *)
Inductive Awaited : Type :=
| GlossaryLoaded (c : Completion unit)       (* toArray() settles *)
| TimerFired                                 (* a setTimeout promise resolves *)
| ServiceAnswered (generateContent : string → GeminiService.Answer)
| UpdateSettled (c : Completion unit).       (* db.chapters.update settles *)

(** What happens between two runs of the component's code: a call of one
    of the three handlers, or the settling of the promise that the
    invocation [k] awaits. *)
Inductive Event : Type :=
| ClickStart (chapters : option (list Chapter.t))
    (* the button calls startBulkTranslation; the argument is the live
       query's value in the render that made the handler *)
| ClickPause                                 (* togglePause *)
| ClickStop                                  (* stopBulk *)
| Settled (k : nat) (w : Awaited).

(** [!c.translatedContent] *)
Definition lacksTranslation (c : Chapter.t) : bool :=
  negb (Js.truthy (Chapter.translatedContent c)).

(** [db.chapters.update(id, { translatedContent, lastTranslated })]: the
    row with this key is modified; without such a row nothing happens. *)
Definition applyUpdate (id : N) (result : string) (date : N)
    (t : gmap N Chapter.t) : gmap N Chapter.t :=
  alter (λ c, Chapter.mk (Chapter.id c) (Chapter.novelId c) (Chapter.title c)
                         (Chapter.order c) (Chapter.content c)
                         (Some result) (Some date)) id t.

(** After the loop of the invocation [k]. *)
Definition finish (k : nat) (s : State) : State :=
  goto k Returned (alert "Bulk translation process finished." (setIsBulkTranslating false s)).

(** From [setBulkProgress] to the call of the translator. *)
Definition dispatch (k : nat) (r : Run) (i : nat) (chapter : Chapter.t) (s : State) : State :=
  goto k (AwaitTranslate r i chapter)
    (recordCall (Chapter.id chapter)
       (setBulkProgress
          (mkProgress (i + 1) (List.length (untranslated r)) (Chapter.title chapter)) s)).

(** [while (stopSignal.current === false && bulkPausedRef.current)
      await new Promise(r => setTimeout(r, 500))] and what follows it. *)
Definition pauseLoop (k : nat) (r : Run) (i : nat) (chapter : Chapter.t) (s : State) : State :=
  if negb (stopSignal s) && bulkPausedRef s
  then goto k (PauseWait r i chapter) s
  else dispatch k r i chapter s.

(** The loop test [i < untranslated.length], then
    [if (stopSignal.current) break]. *)
Definition loopHead (k : nat) (r : Run) (i : nat) (s : State) : State :=
  match untranslated r !! i with
  | Some chapter => if stopSignal s then finish k s else pauseLoop k r i chapter s
  | None => finish k s
  end.

(** The [catch] of the loop body, then [i++]. *)
Definition catchItem (k : nat) (r : Run) (i : nat) (chapter : Chapter.t) (e : string)
    (s : State) : State :=
  loopHead k r (S i)
    (withConsole (console s ++ [["Failed to translate " +:+ Chapter.title chapter; e]]) s).

(** [startBulkTranslation] up to its first [await]. *)
Definition startBulkTranslation (chapters : option (list Chapter.t)) (s : State) : State :=
  match chapters with
  | None => s
  | Some chapters =>
      let untranslated := List.filter lacksTranslation chapters in
      match untranslated with
      | [] => alert "All chapters are already translated!" s
      | _ =>
          spawn (AwaitGlossary untranslated)
            (setBulkProgress (mkProgress 0 (List.length untranslated) "")
               (setStopSignal false
                  (setBulkPaused false
                     (setIsBulkTranslating true s))))
      end
  end.

Definition togglePause (s : State) : State := setBulkPaused (negb (bulkPaused s)) s.

Definition stopBulk (s : State) : State :=
  setIsBulkTranslating false (setStopSignal true s).

(** The invocation [k], suspended at [p], goes on when what it awaits
    settles as [w], at time [now] (the value of [new Date()]); [novelId]
    is the component's prop.  A settling that is not the one awaited at
    [p] does not occur and leaves the state as it is. *)
Definition resume (novelId now : N) (k : nat) (w : Awaited) (p : Pc) (s : State) : State :=
  match w, p with
  | GlossaryLoaded (Normal _), AwaitGlossary untranslated =>
      loopHead k (mkRun untranslated (Glossary.whereNovel novelId (glossaryTable s))) 0 s
  | GlossaryLoaded (Throw _), AwaitGlossary _ => goto k Returned s
  | TimerFired, PauseWait r i chapter => pauseLoop k r i chapter s
  | ServiceAnswered generateContent, AwaitTranslate r i chapter =>
      match GeminiService.translateChapterWithGlossary (Chapter.content chapter)
              (glossary r) generateContent (console s) with
      | (Normal result, c) => goto k (AwaitUpdate r i chapter result now) (withConsole c s)
      | (Throw e, c) => catchItem k r i chapter e (withConsole c s)
      end
  | UpdateSettled (Normal _), AwaitUpdate r i chapter result date =>
      goto k (Cooldown r i)
        (withChapters (applyUpdate (Chapter.id chapter) result date (chapters s)) s)
  | UpdateSettled (Throw e), AwaitUpdate r i chapter _ _ => catchItem k r i chapter e s
  | TimerFired, Cooldown r i => loopHead k r (S i) s
  | _, _ => s
  end.

(** One event.  The handlers are taken at every call: the banner that
    shows Pause and Stop while [isBulkTranslating] holds, and Start
    otherwise, limits the histories that a user can produce, not what the
    handlers do.  The store is written by the invocations only. *)
Definition step (novelId : N) (now : N) (e : Event) (s : State) : State :=
  match e with
  | ClickStart chapters => startBulkTranslation chapters s
  | ClickPause => togglePause s
  | ClickStop => stopBulk s
  | Settled k w =>
      match invocations s !! k with
      | Some p => resume novelId now k w p s
      | None => s
      end
  end.

(** A history: events with their times, oldest first. *)
Fixpoint run (novelId : N) (history : list (N * Event)) (s : State) : State :=
  match history with
  | [] => s
  | (now, e) :: rest => run novelId rest (step novelId now e s)
  end.

End Bulk.

(** ** Functions used to state what the scan does *)

Module ScanSpec.

(** What [extractTermsFromText] returns in the environment [env]. *)
Definition extracted (env : Scan.Env) (text : string) : list RawTerm.t :=
  match Scan.generateAndParse env (GeminiService.extractPrompt text) with
  | Normal result => result
  | Throw _ => []
  end.

(** What the [k]-th call of [findArabicTranslationForTerm] returns. *)
Definition termTranslation (env : Scan.Env) (k : nat) (original snippet : string) : string :=
  match Scan.generateContent env k (GeminiService.searchPrompt original snippet) with
  | Normal text => GeminiService.stripQuotes (Js.orElse (Js.trim <$> text) "")
  | Throw _ => original
  end.

(** The lines the [k]-th call writes on the console. *)
Definition termConsole (env : Scan.Env) (k : nat) (original snippet : string) : Console :=
  match Scan.generateContent env k (GeminiService.searchPrompt original snippet) with
  | Normal _ => []
  | Throw e => [["Search error for " +:+ original +:+ ":"; e]]
  end.

(** The original text of a resolved candidate. *)
Definition originalOf (t : RawTerm.t) : string := default "" (RawTerm.original t).

(** The arguments of the request made for a resolved candidate. *)
Definition request (text : string) (t : RawTerm.t) : string * string :=
  (originalOf t, contextSnippet text (originalOf t)).

(** The row stored for the [k]-th resolved candidate under key [key]. *)
Definition insertedTerm (env : Scan.Env) (novelId : N) (text : string)
    (key : N) (k : nat) (t : RawTerm.t) : Term.t :=
  Glossary.withId key
    (newTerm novelId (originalOf t) (RawTerm.category t)
       (termTranslation env k (originalOf t) (contextSnippet text (originalOf t)))).

Fixpoint insertedFrom (env : Scan.Env) (novelId : N) (text : string)
    (key : N) (k : nat) (terms : list RawTerm.t) : list Term.t :=
  match terms with
  | [] => []
  | t :: rest =>
      insertedTerm env novelId text key k t
        :: insertedFrom env novelId text (key + 1)%N (S k) rest
  end.

(** The state after one round of the loop in which nothing throws. *)
Definition afterTerm (env : Scan.Env) (novelId : N) (text : string) (total k : nat)
    (t : RawTerm.t) (s : Scan.State) : Scan.State :=
  let o := originalOf t in
  let snippet := contextSnippet text o in
  {| Scan.glossary :=
       Glossary.add (newTerm novelId o (RawTerm.category t) (termTranslation env k o snippet))
                    (Scan.glossary s);
     Scan.console := Scan.console s ++ termConsole env k o snippet;
     Scan.isScanning := Scan.isScanning s;
     Scan.scanProgress :=
       Scan.scanProgress s ++ ["Translating terms: " +:+ pretty (S k) +:+ "/" +:+ pretty total];
     Scan.termRequests := Scan.termRequests s ++ [(o, snippet)] |}.

(** The store answers every operation of the scan. *)
Definition storeOk (env : Scan.Env) : Prop :=
  Scan.glossaryToArray env = Normal tt ∧ ∀ k, Scan.glossaryAdd env k = Normal tt.

End ScanSpec.

(** ** Concrete inputs *)

(** How often a candidate with the original text [o] occurs in a batch. *)
Definition occurrences (o : string) (batch : list RawTerm.t) : nat :=
  List.length (List.filter (λ t, bool_decide (RawTerm.original t = Some o)) batch).

Module ScanExamples.

Definition zhangSan : RawTerm.t := RawTerm.mk (Some "Zhang San") (Some "Person").
Definition liSi : RawTerm.t := RawTerm.mk (Some "Li Si") None.
Definition nameless : RawTerm.t := RawTerm.mk (Some "") (Some "Item").

Definition chapter (id : N) (content : string) : Chapter.t :=
  {| Chapter.id := id; Chapter.novelId := 7; Chapter.title := "Chapter";
     Chapter.order := Z.of_N id; Chapter.content := content;
     Chapter.translatedContent := None; Chapter.lastTranslated := None |}.

Definition corpus : list Chapter.t := [chapter 1 "Zhang San met Zhang San."].

Definition longCorpus : list Chapter.t :=
  [ chapter 1 "The rain fell on the old city.";
    chapter 2 "Zhang San woke before dawn.";
    chapter 3 "He walked to the river gate.";
    chapter 4 "A stranger waited there.";
    chapter 5 "They spoke of the sect.";
    chapter 6 "Zhang San drew his sword.";
    chapter 7 "The duel ended quickly." ].

Definition existing : Term.t :=
  {| Term.id := Some 1%N; Term.novelId := 7; Term.original := "LI SI";
     Term.translation := "li"; Term.category := TermCategory.PERSON;
     Term.isLocked := true |}.

(** The extractor proposes "Zhang San" three times; every term request
    is rejected; the store answers. *)
Definition envThrice : Scan.Env :=
  {| Scan.generateAndParse := λ _, Normal [zhangSan; zhangSan; zhangSan];
     Scan.generateContent := λ _ _, Throw "quota";
     Scan.glossaryToArray := Normal tt;
     Scan.glossaryAdd := λ _, Normal tt |}.

(** The extractor proposes two terms; the first request is rejected and
    the second answered. *)
Definition envFirstFails : Scan.Env :=
  {| Scan.generateAndParse := λ _, Normal [zhangSan; liSi];
     Scan.generateContent := λ k _, match k with
                                    | O => Throw "quota"
                                    | _ => Normal (Some " 'li' ")
                                    end;
     Scan.glossaryToArray := Normal tt;
     Scan.glossaryAdd := λ _, Normal tt |}.

(** The extractor proposes a term that the sample does not contain. *)
Definition envAbsent : Scan.Env :=
  {| Scan.generateAndParse := λ _, Normal [liSi];
     Scan.generateContent := λ _ _, Normal (Some "li");
     Scan.glossaryToArray := Normal tt;
     Scan.glossaryAdd := λ _, Normal tt |}.

Definition start : Scan.State := Scan.init Glossary.empty.


(** The extractor proposes two terms; the store accepts the first row and
    rejects the second. *)
Definition envStoreFails : Scan.Env :=
  {| Scan.generateAndParse := λ _, Normal [zhangSan; liSi];
     Scan.generateContent := λ _ _, Normal (Some "name");
     Scan.glossaryToArray := Normal tt;
     Scan.glossaryAdd := λ k, match k with
                              | O => Normal tt
                              | _ => Throw "QuotaExceededError"
                              end |}.

(** The extraction fails; the store answers. *)
Definition envNoExtraction : Scan.Env :=
  {| Scan.generateAndParse := λ _, Throw "SyntaxError";
     Scan.generateContent := λ _ _, Normal (Some "name");
     Scan.glossaryToArray := Normal tt;
     Scan.glossaryAdd := λ _, Normal tt |}.

End ScanExamples.

(** ** Functions used to state what the batch translation does *)

Module BulkSpec.

(** What the service did for one request: it succeeded when it answered
    a non-empty text. *)
Definition answered (a : GeminiService.Answer) : bool :=
  match a with
  | Normal text => Js.truthy text
  | Throw _ => false
  end.

(** The prompt of the document translation. *)
Definition promptOf (content : string) (glossary : list Term.t) : string :=
  GeminiService.translatePrompt
    (Js.join Js.nl (map GeminiService.glossaryLine glossary)) content.

(** A console line written by the [catch] of the loop body. *)
Definition isFailedLine (line : list string) : bool :=
  match line with
  | msg :: _ => Js.startsWith "Failed to translate " msg
  | [] => false
  end.

Definition failedLines (c : Console) : nat :=
  List.length (List.filter isFailedLine c).

Definition isRejectedUpdate (occurrence : N * Bulk.Event) : bool :=
  match occurrence.2 with
  | Bulk.Settled _ (Bulk.UpdateSettled (Throw _)) => true
  | _ => false
  end.

Definition rejectedUpdates (history : list (N * Bulk.Event)) : nat :=
  List.length (List.filter isRejectedUpdate history).

(** No invocation is in flight. *)
Definition quiet (s : Bulk.State) : Prop :=
  Forall (λ p, p = Bulk.Returned) (Bulk.invocations s).

(** The chapters that a suspended invocation can still update. *)
Definition pending (p : Bulk.Pc) : list Chapter.t :=
  match p with
  | Bulk.Returned => []
  | Bulk.AwaitGlossary untranslated => untranslated
  | Bulk.PauseWait r _ chapter
  | Bulk.AwaitTranslate r _ chapter
  | Bulk.AwaitUpdate r _ chapter _ _ => chapter :: Bulk.untranslated r
  | Bulk.Cooldown r _ => Bulk.untranslated r
  end.

(** The chapters that the invocations in flight can still update. *)
Definition queued (s : Bulk.State) : list Chapter.t :=
  concat (pending <$> Bulk.invocations s).

(** No chapter of [l] has the key [k]. *)
Definition avoids (k : N) (l : list Chapter.t) : Prop :=
  ∀ c, c ∈ l → Chapter.id c ≠ k.

(** No chapter of [l] that lacks a translation has the key [k]. *)
Definition spares (k : N) (l : list Chapter.t) : Prop :=
  ∀ c, c ∈ l → Bulk.lacksTranslation c = true → Chapter.id c ≠ k.

(** Every click on Start in the history comes with a snapshot that
    shows no chapter of key [k] lacking a translation. *)
Definition startsSpare (k : N) (history : list (N * Bulk.Event)) : Prop :=
  Forall (λ occurrence,
            match occurrence.2 with
            | Bulk.ClickStart (Some snapshot) => spares k snapshot
            | _ => True
            end) history.

End BulkSpec.

Module BulkExamples.

Definition chapter (id : N) (title content : string) (translated : option string)
    (date : option N) : Chapter.t :=
  {| Chapter.id := id; Chapter.novelId := 7; Chapter.title := title;
     Chapter.order := Z.of_N id; Chapter.content := content;
     Chapter.translatedContent := translated; Chapter.lastTranslated := date |}.

Definition one : Chapter.t := chapter 1 "One" "first text" None None.
Definition two : Chapter.t := chapter 2 "Two" "second text" None None.
Definition done : Chapter.t := chapter 3 "Three" "third text" (Some "ready") (Some 5%N).

Definition store : gmap N Chapter.t := <[1%N := one]> (<[2%N := two]> (<[3%N := done]> ∅)).
Definition snapshot : list Chapter.t := [one; two; done].

Definition start : Bulk.State := Bulk.init store Glossary.empty.

Definition rejects : string → GeminiService.Answer := λ _, Throw "quota".
Definition answers (text : string) : string → GeminiService.Answer :=
  λ _, Normal (Some text).

(** The service rejects the request for the first chapter and answers
    the one for the second; the store accepts both updates. *)
Definition firstFails : list (N * Bulk.Event) :=
  [ (10, Bulk.ClickStart (Some snapshot));
    (11, Bulk.Settled 0 (Bulk.GlossaryLoaded (Normal tt)));
    (12, Bulk.Settled 0 (Bulk.ServiceAnswered rejects));
    (13, Bulk.Settled 0 (Bulk.UpdateSettled (Normal tt)));
    (14, Bulk.Settled 0 Bulk.TimerFired);
    (15, Bulk.Settled 0 (Bulk.ServiceAnswered (answers "second translation")));
    (16, Bulk.Settled 0 (Bulk.UpdateSettled (Normal tt)));
    (17, Bulk.Settled 0 Bulk.TimerFired) ]%N.

(** The user pauses while the first chapter is being translated; the
    invocation reaches the pause loop before the second chapter. *)
Definition untilPaused : list (N * Bulk.Event) :=
  [ (10, Bulk.ClickStart (Some snapshot));
    (11, Bulk.Settled 0 (Bulk.GlossaryLoaded (Normal tt)));
    (12, Bulk.ClickPause);
    (13, Bulk.Settled 0 (Bulk.ServiceAnswered (answers "first translation")));
    (14, Bulk.Settled 0 (Bulk.UpdateSettled (Normal tt)));
    (15, Bulk.Settled 0 Bulk.TimerFired);
    (16, Bulk.Settled 0 Bulk.TimerFired) ]%N.

(** Then the user stops the run, and the timer of the pause loop fires. *)
Definition stopWhilePaused : list (N * Bulk.Event) :=
  [ (17, Bulk.ClickStop);
    (18, Bulk.Settled 0 Bulk.TimerFired) ]%N.

(** The request made after the stop is answered and stored. *)
Definition afterStop : list (N * Bulk.Event) :=
  [ (19, Bulk.Settled 0 (Bulk.ServiceAnswered (answers "second translation")));
    (20, Bulk.Settled 0 (Bulk.UpdateSettled (Normal tt)));
    (21, Bulk.Settled 0 Bulk.TimerFired) ]%N.

(** The user stops while the first chapter is being translated, without
    pausing. *)
Definition stopWhileTranslating : list (N * Bulk.Event) :=
  [ (10, Bulk.ClickStart (Some snapshot));
    (11, Bulk.Settled 0 (Bulk.GlossaryLoaded (Normal tt)));
    (12, Bulk.ClickStop);
    (13, Bulk.Settled 0 (Bulk.ServiceAnswered (answers "first translation")));
    (14, Bulk.Settled 0 (Bulk.UpdateSettled (Normal tt)));
    (15, Bulk.Settled 0 Bulk.TimerFired) ]%N.

(** A complete run. *)
Definition fullRun : list (N * Bulk.Event) :=
  [ (10, Bulk.ClickStart (Some snapshot));
    (11, Bulk.Settled 0 (Bulk.GlossaryLoaded (Normal tt)));
    (12, Bulk.Settled 0 (Bulk.ServiceAnswered (answers "first translation")));
    (13, Bulk.Settled 0 (Bulk.UpdateSettled (Normal tt)));
    (14, Bulk.Settled 0 Bulk.TimerFired);
    (15, Bulk.Settled 0 (Bulk.ServiceAnswered (answers "second translation")));
    (16, Bulk.Settled 0 (Bulk.UpdateSettled (Normal tt)));
    (17, Bulk.Settled 0 Bulk.TimerFired) ]%N.

(** The chapters as the live query shows them after [fullRun]. *)
Definition snapshotAfter : list Chapter.t :=
  [ chapter 1 "One" "first text" (Some "first translation") (Some 12%N);
    chapter 2 "Two" "second text" (Some "second translation") (Some 15%N);
    done ].

(** A second click on Start after [fullRun], and events for the
    invocation that it would start. *)
Definition secondRun : list (N * Bulk.Event) :=
  [ (30, Bulk.ClickStart (Some snapshotAfter));
    (31, Bulk.Settled 1 (Bulk.GlossaryLoaded (Normal tt)));
    (32, Bulk.Settled 1 (Bulk.ServiceAnswered (answers "another translation")));
    (33, Bulk.Settled 1 (Bulk.UpdateSettled (Normal tt)));
    (34, Bulk.Settled 1 Bulk.TimerFired) ]%N.

(** The user stops while the first chapter is being translated and
    clicks Start again before the stopped invocation has returned: the
    second invocation runs beside the first, which no longer sees the
    stop signal. *)
Definition startAfterStop : list (N * Bulk.Event) :=
  [ (10, Bulk.ClickStart (Some snapshot));
    (11, Bulk.Settled 0 (Bulk.GlossaryLoaded (Normal tt)));
    (12, Bulk.ClickStop);
    (13, Bulk.ClickStart (Some snapshot));
    (14, Bulk.Settled 1 (Bulk.GlossaryLoaded (Normal tt)));
    (15, Bulk.Settled 0 (Bulk.ServiceAnswered (answers "first translation")));
    (16, Bulk.Settled 0 (Bulk.UpdateSettled (Normal tt)));
    (17, Bulk.Settled 1 (Bulk.ServiceAnswered (answers "first again")));
    (18, Bulk.Settled 1 (Bulk.UpdateSettled (Normal tt)));
    (19, Bulk.Settled 0 Bulk.TimerFired);
    (20, Bulk.Settled 1 Bulk.TimerFired) ]%N.



End BulkExamples.

(** ** Functions used to state what the scan keeps and reports *)

Module ScanReport.

(** The counter label of the loop. *)
Definition translatingLabel (total k : nat) : string :=
  "Translating terms: " +:+ pretty k +:+ "/" +:+ pretty total.

(** The labels of a scan that stores [n] terms and completes. *)
Definition completedLabels (n : nat) : list string :=
  [ "Initializing Deep Scan...";
    "Extracting entities (AI)...";
    "Found " +:+ pretty n +:+ " new terms. Translating..." ]
  ++ map (translatingLabel n) (seq 1 n)
  ++ [ "Scan Complete!" ].

(** Every row has a key below the key generator, and no key is used
    twice. *)
Definition wellKeyed (t : Glossary.table) : Prop :=
  Forall (λ r, ∃ k, Term.id r = Some k ∧ (k < Glossary.nextKey t)%N) (Glossary.rows t)
  ∧ NoDup (Term.id <$> Glossary.rows t).

(** The sample text and the resolved candidates of a scan. *)
Definition textOf (chapters : option (list Chapter.t)) : string :=
  combinedText (default [] chapters).

Definition resolved (toLowerCase : string → string) (env : Scan.Env) (novelId : N)
    (chapters : option (list Chapter.t)) (s : Scan.State) : list RawTerm.t :=
  uniqueNewTerms toLowerCase (ScanSpec.extracted env (textOf chapters))
    (Glossary.whereNovel novelId (Scan.glossary s)).

(** The line that [extractTermsFromText] writes on the console. *)
Definition extractConsole (env : Scan.Env) (text : string) : Console :=
  match Scan.generateAndParse env (GeminiService.extractPrompt text) with
  | Normal _ => []
  | Throw e => [["Extraction error:"; e]]
  end.

(** The state with one more label. *)
Definition labelled (label : string) (s : Scan.State) : Scan.State :=
  Scan.mk (Scan.glossary s) (Scan.console s) (Scan.isScanning s)
          (Scan.scanProgress s ++ [label]) (Scan.termRequests s).

(** The state when the [try] block is entered. *)
Definition started (s : Scan.State) : Scan.State :=
  Scan.mk (Scan.glossary s) (Scan.console s) true
          (Scan.scanProgress s ++ ["Initializing Deep Scan..."]) (Scan.termRequests s).

(** The state after the extraction. *)
Definition extracting (env : Scan.Env) (text : string) (s : Scan.State) : Scan.State :=
  Scan.mk (Scan.glossary s) (Scan.console s ++ extractConsole env text) (Scan.isScanning s)
          (Scan.scanProgress s ++ ["Extracting entities (AI)..."]) (Scan.termRequests s).

(** The state after the [catch] block. *)
Definition failed (e : string) (s : Scan.State) : Scan.State :=
  Scan.mk (Scan.glossary s) (Scan.console s ++ [[e]]) (Scan.isScanning s)
          (Scan.scanProgress s ++ ["Scan Failed."]) (Scan.termRequests s).

(** The store accepts the first [k] rows and rejects the next one. *)
Definition rejectsAt (env : Scan.Env) (k : nat) (e : string) : Prop :=
  Scan.glossaryToArray env = Normal tt
  ∧ (∀ j, (j < k)%nat → Scan.glossaryAdd env j = Normal tt)
  ∧ Scan.glossaryAdd env k = Throw e.

End ScanReport.

(** ** Functions used to state what a batch keeps and in which order it works *)

Module BulkReport.

(** The fields of a chapter that come from the upload. *)
Definition sourceOf (c : Chapter.t) : N * N * string * Z * string :=
  (Chapter.id c, Chapter.novelId c, Chapter.title c, Chapter.order c, Chapter.content c).

(** A chapter that holds a non-empty translation and its date. *)
Definition translated (c : Chapter.t) : Prop :=
  Bulk.lacksTranslation c = false ∧ is_Some (Chapter.lastTranslated c).

Definition isStart (e : Bulk.Event) : bool :=
  match e with
  | Bulk.ClickStart _ => true
  | _ => false
  end.


(** A history without a click on Start. *)
Definition noStart (history : list (N * Bulk.Event)) : Prop :=
  Forall (λ occurrence, isStart occurrence.2 = false) history.




(** A suspended update has a non-empty text to store. *)
Definition storesText (p : Bulk.Pc) : Prop :=
  match p with
  | Bulk.AwaitUpdate _ _ _ result _ => result ≠ EmptyString
  | _ => True
  end.

(** The events of one chapter that the service answers and the store
    accepts, for the invocation [k]: the answer, the update and the timer
    of the cooldown. *)
Definition itemEvents (now : N) (k : nat) (answer : string → GeminiService.Answer)
  : list (N * Bulk.Event) :=
  [ (now, Bulk.Settled k (Bulk.ServiceAnswered answer));
    (now, Bulk.Settled k (Bulk.UpdateSettled (Normal tt)));
    (now, Bulk.Settled k Bulk.TimerFired) ].

(** A run without clicks other than Start and without failures of the
    store: one answer of the service for each chapter of the queue.  [k]
    is the number of the invocation that the click starts. *)
Definition smoothRun (now : N) (k : nat) (snapshot : list Chapter.t)
    (answers : list (string → GeminiService.Answer)) : list (N * Bulk.Event) :=
  (now, Bulk.ClickStart (Some snapshot))
    :: (now, Bulk.Settled k (Bulk.GlossaryLoaded (Normal tt)))
    :: concat (map (itemEvents now k) answers).

(** The store holds, under the key [k], a chapter with a non-empty
    translation dated [now]. *)
Definition translatedAt (now : N) (m : gmap N Chapter.t) (k : N) : Prop :=
  ∃ c, m !! k = Some c
       ∧ Bulk.lacksTranslation c = false
       ∧ Chapter.lastTranslated c = Some now.

(** How far an invocation suspended at [p] has gone in the queue [queue],
    when [calls] are the calls made and [base] those made before it was
    started. *)
Definition inOrder (base : list N) (queue : list Chapter.t) (calls : list N)
    (p : Bulk.Pc) : Prop :=
  match p with
  | Bulk.Returned =>
      ∃ m, calls = base ++ (Chapter.id <$> take m queue)
  | Bulk.AwaitGlossary untranslated =>
      untranslated = queue ∧ calls = base
  | Bulk.PauseWait r i chapter =>
      Bulk.untranslated r = queue ∧ queue !! i = Some chapter
      ∧ calls = base ++ (Chapter.id <$> take i queue)
  | Bulk.AwaitTranslate r i chapter
  | Bulk.AwaitUpdate r i chapter _ _ =>
      Bulk.untranslated r = queue ∧ queue !! i = Some chapter
      ∧ calls = base ++ (Chapter.id <$> take (S i) queue)
  | Bulk.Cooldown r i =>
      Bulk.untranslated r = queue
      ∧ calls = base ++ (Chapter.id <$> take (S i) queue)
  end.

(** The invocation [k] is the only one in flight. *)
Definition alone (k : nat) (s : Bulk.State) : Prop :=
  ∀ j p, j ≠ k → Bulk.invocations s !! j = Some p → p = Bulk.Returned.

(** The invocation [n], once it is started, is the only one in flight and
    goes through [queue] in order. *)
Definition ordered (n : nat) (base : list N) (queue : list Chapter.t)
    (s : Bulk.State) : Prop :=
  alone n s
  ∧ match Bulk.invocations s !! n with
    | Some p => inOrder base queue (Bulk.translateCalls s) p
    | None => Bulk.translateCalls s = base
    end.

End BulkReport.

(** ** Operations of the store used by the other components *)

Module GlossaryOps.

(** [db.glossary.update(key, changes)]: the row with this key is changed
    by [changes]; without such a row nothing happens. *)
Definition update (key : N) (changes : Term.t → Term.t) (t : Glossary.table)
  : Glossary.table :=
  {| Glossary.rows :=
       map (λ r, if bool_decide (Term.id r = Some key) then changes r else r)
           (Glossary.rows t);
     Glossary.nextKey := Glossary.nextKey t |}.

(** [db.glossary.delete(key)] *)
Definition delete (key : N) (t : Glossary.table) : Glossary.table :=
  {| Glossary.rows :=
       List.filter (λ r, negb (bool_decide (Term.id r = Some key))) (Glossary.rows t);
     Glossary.nextKey := Glossary.nextKey t |}.

(** [db.glossary.where({ novelId }).delete()] *)
Definition deleteNovel (novelId : N) (t : Glossary.table) : Glossary.table :=
  {| Glossary.rows :=
       List.filter (λ r, negb (N.eqb (Term.novelId r) novelId)) (Glossary.rows t);
     Glossary.nextKey := Glossary.nextKey t |}.

Definition withLocked (b : bool) (r : Term.t) : Term.t :=
  Term.mk (Term.id r) (Term.novelId r) (Term.original r) (Term.translation r)
          (Term.category r) b.

End GlossaryOps.

(** [try { body } finally { final }] *)
Definition tryFinally {S A} (body : Eff S A) (final : Eff S unit) : Eff S A :=
  λ s, let '(c, s') := body s in
       match final s' with
       | (Normal _, s'') => (c, s'')
       | (Throw e, s'') => (Throw e, s'')
       end.

(** ** The reader ([Reader.tsx]) *)

Module Reader.

(** The store, the console, the alerts and the component's state.
    [selection] keeps the selected text; the position of the popover
    plays no part in the functions below. *)
Record State : Type := mk {
  chapters : gmap N Chapter.t;
  glossaryTable : Glossary.table;
  console : Console;
  alerts : list string;
  translation : string;
  editedTranslation : string;
  isTranslating : bool;
  selection : option string
}.

Definition withChapters (t : gmap N Chapter.t) (s : State) : State :=
  mk t (glossaryTable s) (console s) (alerts s) (translation s) (editedTranslation s)
     (isTranslating s) (selection s).
Definition withGlossary (g : Glossary.table) (s : State) : State :=
  mk (chapters s) g (console s) (alerts s) (translation s) (editedTranslation s)
     (isTranslating s) (selection s).
Definition withConsole (c : Console) (s : State) : State :=
  mk (chapters s) (glossaryTable s) c (alerts s) (translation s) (editedTranslation s)
     (isTranslating s) (selection s).
Definition alert (msg : string) : Eff State unit :=
  modify (λ s, mk (chapters s) (glossaryTable s) (console s) (alerts s ++ [msg])
                  (translation s) (editedTranslation s) (isTranslating s) (selection s)).
Definition setTranslation (text : string) : Eff State unit :=
  modify (λ s, mk (chapters s) (glossaryTable s) (console s) (alerts s) text
                  (editedTranslation s) (isTranslating s) (selection s)).
Definition setEditedTranslation (text : string) : Eff State unit :=
  modify (λ s, mk (chapters s) (glossaryTable s) (console s) (alerts s) (translation s)
                  text (isTranslating s) (selection s)).
Definition setIsTranslating (b : bool) : Eff State unit :=
  modify (λ s, mk (chapters s) (glossaryTable s) (console s) (alerts s) (translation s)
                  (editedTranslation s) b (selection s)).

Definition onConsole {A} (m : Eff Console A) : Eff State A :=
  zoom console withConsole m.

(** The environment of [handleTranslate]: how the query of the glossary
    settles, what the service answers, how the update settles, and the
    value of [new Date()]. *)
Record Env : Type := mkEnv {
  glossaryToArray : Completion unit;
  generateContent : string → GeminiService.Answer;
  update : Completion unit;
  now : N
}.

(** [handleTranslate]; [chapter] is the live query's value. *)
Definition handleTranslate (env : Env) (chapter : option Chapter.t) (s : State) : State :=
  match chapter with
  | None => s
  | Some chapter =>
      snd ((setIsTranslating true ;;;
            tryFinally
              (tryCatch
                 (await (glossaryToArray env) ;;;
                  glossary <- gets (λ s, Glossary.whereNovel (Chapter.novelId chapter)
                                            (glossaryTable s)) ;;
                  result <- onConsole
                    (GeminiService.translateChapterWithGlossary (Chapter.content chapter)
                       glossary (generateContent env)) ;;
                  setTranslation result ;;;
                  setEditedTranslation result ;;;
                  await (update env) ;;;
                  modify (λ s, withChapters
                    (Bulk.applyUpdate (Chapter.id chapter) result (now env) (chapters s)) s))
                 (λ _, alert "Translation failed"))
              (setIsTranslating false)) s)
  end.







End Reader.

(** ** The glossary manager ([GlossaryManager.tsx]) *)

Module Manager.

(** [filteredTerms]; [terms] is the live query's value. *)
Definition filteredTerms (toLowerCase : string → string)
    (terms : option (list Term.t)) (filter : string) : option (list Term.t) :=
  List.filter
    (λ t, Js.includes (toLowerCase (Term.original t)) (toLowerCase filter)
          || Js.includes (Term.translation t) filter)
  <$> terms.

(** [toggleLock]; [term] is the row as the table shows it and [update] is
    how the update settles.  A row shown without a key cannot be updated. *)
Definition toggleLock (update : Completion unit) (term : Term.t) (t : Glossary.table)
  : Glossary.table :=
  match Term.id term, update with
  | Some key, Normal _ =>
      GlossaryOps.update key (GlossaryOps.withLocked (negb (Term.isLocked term))) t
  | _, _ => t
  end.

(** [deleteTerm]; [confirm] is the user's answer to the dialog. *)
Definition deleteTerm (confirm : bool) (delete : Completion unit) (id : N)
    (t : Glossary.table) : Glossary.table :=
  match confirm, delete with
  | true, Normal _ => GlossaryOps.delete id t
  | _, _ => t
  end.

(** The row of [addEmptyTerm]. *)
Definition emptyTerm (novelId : N) : Term.t :=
  {| Term.id := None;
     Term.novelId := novelId;
     Term.original := "New Term";
     Term.translation := "Translation";
     Term.category := TermCategory.OTHER;
     Term.isLocked := false |}.

(** [addEmptyTerm]: the table after the insertion and the key that
    [setEditingId] receives; [None] when the insertion is rejected. *)
Definition addEmptyTerm (add : Completion unit) (novelId : N) (t : Glossary.table)
  : Glossary.table * option N :=
  match add with
  | Normal _ => (Glossary.add (emptyTerm novelId) t, Some (Glossary.nextKey t))
  | Throw _ => (t, None)
  end.

End Manager.

(** ** The library ([Library.tsx]) *)

Module Novel.
Record t : Type := mk {
  id : option N;
  title : string;
  author : option string;
  coverUrl : option string;
  description : option string;
  createdAt : N
}.
End Novel.

Module Library.

Record Db : Type := mkDb {
  novels : gmap N Novel.t;
  chapters : gmap N Chapter.t;
  glossary : Glossary.table
}.

(** [handleDelete]; [confirm] is the user's answer to the dialog and
    [transaction] is how the read-write transaction over the three tables
    settles: a transaction that fails is rolled back as a whole. *)
Definition handleDelete (confirm : bool) (transaction : Completion unit) (id : N)
    (db : Db) : Db :=
  match confirm, transaction with
  | true, Normal _ =>
      {| novels := delete id (novels db);
         chapters := filter (λ kc, Chapter.novelId kc.2 ≠ id) (chapters db);
         glossary := GlossaryOps.deleteNovel id (glossary db) |}
  | _, _ => db
  end.

End Library.

(** ** The upload ([bulkAddChapters] in [db.ts]) *)

Module Upload.

(** A file as the loop reads it: its name and how [file.text()] settles. *)
Record File : Type := mkFile {
  name : string;
  text : Completion string
}.

(** The characters after the dot of an extension: at least one, none of
    them a dot or a slash. *)
Definition extensionChar (c : ascii) : bool :=
  negb (bool_decide (nat_of_ascii c ∈ [46; 47]%nat)).

Fixpoint extensionChars (s : string) : bool :=
  match s with
  | EmptyString => true
  | String c s' => extensionChar c && extensionChars s'
  end.

Definition isDot (c : ascii) : bool := bool_decide (nat_of_ascii c = 46%nat).

(** [name.replace(/\.[^/.]+$/, EMPTY)]: the match, if any, begins at the
    first dot that is followed, up to the end, by one or more characters
    other than dot and slash. *)
Fixpoint removeExtension (s : string) : string :=
  match s with
  | EmptyString => EmptyString
  | String c s' =>
      if isDot c && negb (String.eqb s' EmptyString) && extensionChars s'
      then EmptyString
      else String c (removeExtension s')
  end.

(** The chapters table with its key generator. *)
Record Table : Type := mkTable {
  rows : gmap N Chapter.t;
  nextKey : N
}.

(** The rows built by the loop, without their keys: title, order and
    content. *)
Fixpoint readFiles (i : nat) (sortedFiles : list File)
  : Completion (list (string * Z * string)) :=
  match sortedFiles with
  | [] => Normal []
  | file :: rest =>
      match text file with
      | Normal content =>
          match readFiles (S i) rest with
          | Normal chapters =>
              Normal ((removeExtension (name file), Z.of_nat i + 1, content) :: chapters)
          | Throw e => Throw e
          end
      | Throw e => Throw e
      end
  end.

(** [db.chapters.bulkAdd(chapters)]: each row receives the next key. *)
Fixpoint bulkAdd (novelId : N) (chapters : list (string * Z * string)) (t : Table) : Table :=
  match chapters with
  | [] => t
  | (title, order, content) :: rest =>
      bulkAdd novelId rest
        {| rows := <[nextKey t := Chapter.mk (nextKey t) novelId title order content None None]>
                     (rows t);
           nextKey := (nextKey t + 1)%N |}
  end.

(** [bulkAddChapters]; [sortedFiles] are the files in the order that
    [Array.from(files).sort(...)] gives them, and [add] is how [bulkAdd]
    settles.  A file that cannot be read ends the function before
    [bulkAdd] is called.  The rows carry no key of their own and the
    table has no unique index, so a rejection concerns the request as a
    whole and is modelled as storing nothing. *)
Definition bulkAddChapters (add : Completion unit) (novelId : N)
    (sortedFiles : list File) (t : Table) : Completion unit * Table :=
  match readFiles 0 sortedFiles with
  | Normal chapters =>
      match add with
      | Normal _ => (Normal tt, bulkAdd novelId chapters t)
      | Throw e => (Throw e, t)
      end
  | Throw e => (Throw e, t)
  end.

End Upload.

(** ** Functions and inputs used to state what the other components do *)

Module ReaderSpec.

(** What the translator returns to [handleTranslate]. *)
Definition resultOf (env : Reader.Env) (chapter : Chapter.t) (s : Reader.State) : string :=
  match Reader.generateContent env
          (BulkSpec.promptOf (Chapter.content chapter)
             (Glossary.whereNovel (Chapter.novelId chapter) (Reader.glossaryTable s))) with
  | Normal text => Js.orElse text GeminiService.translationFailed
  | Throw _ => GeminiService.errorGenerating
  end.

(** The query of the glossary or the update of the chapter is rejected. *)
Definition storeFailed (env : Reader.Env) : bool :=
  match Reader.glossaryToArray env, Reader.update env with
  | Normal _, Normal _ => false
  | _, _ => true
  end.

Definition start : Reader.State :=
  {| Reader.chapters := BulkExamples.store;
     Reader.glossaryTable := Glossary.empty;
     Reader.console := [];
     Reader.alerts := [];
     Reader.translation := "";
     Reader.editedTranslation := "";
     Reader.isTranslating := false;
     Reader.selection := Some "Zhang San" |}.

(** The service rejects the request; the store answers. *)
Definition envRejected : Reader.Env :=
  {| Reader.glossaryToArray := Normal tt;
     Reader.generateContent := BulkExamples.rejects;
     Reader.update := Normal tt;
     Reader.now := 50 |}.

(** The service answers; the store rejects the update. *)
Definition envUpdateFails : Reader.Env :=
  {| Reader.glossaryToArray := Normal tt;
     Reader.generateContent := BulkExamples.answers "first translation";
     Reader.update := Throw "QuotaExceededError";
     Reader.now := 50 |}.


End ReaderSpec.

Module LibraryExamples.

Definition novel (id : N) (title : string) : Novel.t :=
  {| Novel.id := Some id; Novel.title := title; Novel.author := None;
     Novel.coverUrl := None; Novel.description := None; Novel.createdAt := 1 |}.

Definition otherChapter : Chapter.t :=
  {| Chapter.id := 4; Chapter.novelId := 8; Chapter.title := "Other";
     Chapter.order := 1; Chapter.content := "other text";
     Chapter.translatedContent := None; Chapter.lastTranslated := None |}.

Definition otherTerm : Term.t :=
  {| Term.id := Some 2%N; Term.novelId := 8; Term.original := "Wang Wu";
     Term.translation := "wang"; Term.category := TermCategory.PERSON;
     Term.isLocked := false |}.

(** Two novels, 7 and 8, with their chapters and terms. *)
Definition db : Library.Db :=
  {| Library.novels := <[7%N := novel 7 "Seven"]> (<[8%N := novel 8 "Eight"]> ∅);
     Library.chapters := <[4%N := otherChapter]> BulkExamples.store;
     Library.glossary := Glossary.mk [ScanExamples.existing; otherTerm] 3 |}.

Definition files : list Upload.File :=
  [ Upload.mkFile "chapter 1.txt" (Normal "first text");
    Upload.mkFile "chapter 2.final.txt" (Normal "second text");
    Upload.mkFile "notes" (Normal "third text") ].

Definition unreadable : list Upload.File :=
  [ Upload.mkFile "chapter 1.txt" (Normal "first text");
    Upload.mkFile "chapter 2.txt" (Throw "NotReadableError") ].

Definition table : Upload.Table := Upload.mkTable BulkExamples.store 4.

End LibraryExamples.

(** * Properties *)

(** ** JavaScript strings *)

Lemma truthy_Some_iff (o : option string) :
  Js.truthy o = true ↔ ∃ s, o = Some s ∧ s ≠ EmptyString.
Proof.
  destruct o as [s|]; simpl.
  - destruct (String.eqb_spec s EmptyString) as [->|Hne]; simpl.
    + split; [discriminate | intros (s & [= <-] & Hs); congruence].
    + split; [eauto | reflexivity].
  - split; [discriminate | intros (s & [=] & _)].
Qed.

Lemma substring_clamped (s : string) (a b : Z) :
  0 <= a → a <= b →
  Js.substring s a b
  = String.substring (Z.to_nat (Z.min a (Js.length s)))
      (Z.to_nat (Z.min b (Js.length s)) - Z.to_nat (Z.min a (Js.length s))) s.
Proof.
  intros Ha Hab. unfold Js.substring, Js.clamp.
  assert (0 <= Js.length s) by (unfold Js.length; lia).
  f_equal; lia.
Qed.

Lemma String_substring_overshoot (s : string) (n m : nat) :
  (String.length s ≤ n + m)%nat →
  String.substring n m s = String.substring n (String.length s - n) s.
Proof.
  revert n m. induction s as [|c s IH]; intros n m Hlen.
  - destruct n, m; reflexivity.
  - destruct n as [|n]; simpl in *.
    + destruct m as [|m]; [lia|]. simpl. f_equal.
      specialize (IH 0%nat m). rewrite Nat.sub_0_r in IH. apply IH. lia.
    + apply IH. lia.
Qed.

Lemma String_substring_zero (s : string) (n : nat) :
  String.substring n 0 s = EmptyString.
Proof.
  revert n. induction s as [|c s IH]; intros [|n]; simpl; auto.
Qed.

(** A window asked at a position inside or outside the string is what
    [String.substring] cuts there: the end is clamped to the length. *)
Lemma substring_window (s : string) (i : nat) (w : Z) :
  0 <= w →
  Js.substring s (Z.of_nat i) (Z.of_nat i + w) = String.substring i (Z.to_nat w) s.
Proof.
  intros Hw. rewrite substring_clamped by lia. unfold Js.length.
  set (len := String.length s).
  destruct (decide (Z.of_nat i + w <= Z.of_nat len)) as [Hin|Hout].
  - f_equal; lia.
  - rewrite (String_substring_overshoot s i (Z.to_nat w)) by (fold len; lia).
    fold len. destruct (decide (i ≤ len)%nat) as [Hi|Hi].
    + f_equal; lia.
    + replace (len - i)%nat with 0%nat by lia.
      rewrite String_substring_zero.
      replace (Z.to_nat (Z.min (Z.of_nat i + w) (Z.of_nat len))
               - Z.to_nat (Z.min (Z.of_nat i) (Z.of_nat len)))%nat with 0%nat by lia.
      apply String_substring_zero.
Qed.

Lemma contextSnippet_found (text original : string) (i : nat) :
  String.index 0 original text = Some i →
  contextSnippet text original = String.substring i 100 text.
Proof.
  intros Hi. unfold contextSnippet, Js.indexOf. rewrite Hi.
  apply (substring_window text i 100). lia.
Qed.

Lemma contextSnippet_missing (text original : string) :
  String.index 0 original text = None →
  contextSnippet text original = String.substring 0 99 text.
Proof.
  intros Hi. unfold contextSnippet, Js.indexOf. rewrite Hi.
  change (-1 + 100) with 99.
  transitivity (Js.substring text (Z.of_nat 0) (Z.of_nat 0 + 99)).
  - unfold Js.substring, Js.clamp. f_equal; lia.
  - apply (substring_window text 0 99). lia.
Qed.

Lemma trimStart_blank (s : string) : Js.blank s = true → Js.trimStart s = EmptyString.
Proof.
  induction s as [|c s IH]; simpl; [reflexivity|].
  intros [Hc Hs]%andb_true_iff. rewrite Hc. auto.
Qed.

(** ** The term resolution *)

Section Resolution.

Variable toLowerCase : string → string.

Lemma isNew_true (existingTerms : list Term.t) (t : RawTerm.t) :
  isNew toLowerCase (existingOriginals toLowerCase existingTerms) t = true ↔
  ∃ o, RawTerm.original t = Some o ∧ o ≠ EmptyString ∧
       ∀ e, e ∈ existingTerms → toLowerCase (Term.original e) ≠ toLowerCase o.
Proof.
  unfold isNew, existingOriginals. destruct (RawTerm.original t) as [o|].
  - rewrite andb_true_iff, !negb_true_iff, bool_decide_eq_false.
    rewrite elem_of_list_to_set, list_elem_of_fmap.
    destruct (String.eqb_spec o EmptyString) as [->|Hne].
    + split; [intros [[=] _] | intros (o & [= <-] & Ho & _); congruence].
    + split.
      * intros [_ Hnot]. exists o. repeat split; auto.
        intros e He Heq. apply Hnot. exists e. split; [symmetry; exact Heq | exact He].
      * intros (o' & [= <-] & _ & Hall). split; [reflexivity|].
        intros (e & Heq & He). apply (Hall e He). symmetry. exact Heq.
  - split; [discriminate | intros (o & [=] & _)].
Qed.

Lemma uniqueNewTerms_elem (rawTerms : list RawTerm.t) (existingTerms : list Term.t)
    (t : RawTerm.t) :
  t ∈ uniqueNewTerms toLowerCase rawTerms existingTerms ↔
  t ∈ rawTerms ∧
  isNew toLowerCase (existingOriginals toLowerCase existingTerms) t = true.
Proof.
  unfold uniqueNewTerms. rewrite !list_elem_of_In, filter_In. reflexivity.
Qed.

Lemma uniqueNewTerms_truthy (rawTerms : list RawTerm.t) (existingTerms : list Term.t) :
  Forall (λ t, Js.truthy (RawTerm.original t) = true)
         (uniqueNewTerms toLowerCase rawTerms existingTerms).
Proof.
  apply Forall_forall. intros t Ht. apply uniqueNewTerms_elem in Ht as [_ Ht].
  apply isNew_true in Ht as (o & Ho & Hne & _).
  apply truthy_Some_iff. eauto.
Qed.

End Resolution.

(** ** Running the monad *)

Section EffLaws.

Context {S A B : Type}.

Lemma bind_modify (f : S → S) (k : unit → Eff S B) (s : S) :
  bind (modify f) k s = k tt (f s).
Proof. reflexivity. Qed.

Lemma bind_gets (f : S → A) (k : A → Eff S B) (s : S) :
  bind (gets f) k s = k (f s) s.
Proof. reflexivity. Qed.

Lemma bind_await_Normal (a : A) (k : A → Eff S B) (s : S) :
  bind (await (Normal a)) k s = k a s.
Proof. reflexivity. Qed.

Lemma bind_await_Throw (e : string) (k : A → Eff S B) (s : S) :
  bind (await (Throw e)) k s = (Throw e, s).
Proof. reflexivity. Qed.

Lemma bind_zoom {T : Type} (get : S → T) (set : T → S → S) (m : Eff T A)
    (k : A → Eff S B) (s : S) (a : A) (t' : T) :
  m (get s) = (Normal a, t') →
  bind (zoom get set m) k s = k a (set t' s).
Proof. intros H. unfold bind, zoom. rewrite H. reflexivity. Qed.

End EffLaws.

(** ** The loop of the deep scan *)

Section ScanLoop.

Variable env : Scan.Env.
Variable novelId : N.
Variable text : string.
Variable total : nat.

Lemma findArabic_run (original snippet : string) (k : nat) (c : Console) :
  GeminiService.findArabicTranslationForTerm original snippet
    (Scan.generateContent env k) c
  = (Normal (ScanSpec.termTranslation env k original snippet),
     c ++ ScanSpec.termConsole env k original snippet).
Proof.
  unfold GeminiService.findArabicTranslationForTerm, ScanSpec.termTranslation,
    ScanSpec.termConsole, tryCatch, bind, await, ret, console_error, modify.
  destruct (Scan.generateContent env k _) as [t|e]; simpl.
  - by rewrite app_nil_r.
  - reflexivity.
Qed.

(** One round of the loop, when the store accepts the row. *)
Lemma translateTerms_cons (t : RawTerm.t) (rest : list RawTerm.t) (k : nat)
    (s : Scan.State) :
  Js.truthy (RawTerm.original t) = true →
  Scan.glossaryAdd env k = Normal tt →
  translateTerms env novelId text total (t :: rest) k s
  = translateTerms env novelId text total rest (S k)
      (ScanSpec.afterTerm env novelId text total k t s).
Proof.
  intros Ht Hadd. apply truthy_Some_iff in Ht as (o & Ho & Hne).
  simpl. unfold ScanSpec.afterTerm, ScanSpec.originalOf. rewrite Ho. simpl.
  destruct (String.eqb_spec o EmptyString) as [->|_]; [congruence|].
  unfold bind at 1. unfold Scan.recordRequest, modify at 1.
  unfold bind at 1. unfold Scan.onConsole, zoom. simpl.
  rewrite findArabic_run. rewrite Hadd.
  reflexivity.
Qed.

(** A round in which the store rejects the row ends the loop by a throw:
    the request has been made, and nothing is stored. *)
Lemma translateTerms_add_throws (t : RawTerm.t) (rest : list RawTerm.t) (k : nat)
    (s : Scan.State) (e : string) :
  Js.truthy (RawTerm.original t) = true →
  Scan.glossaryAdd env k = Throw e →
  ∃ s', translateTerms env novelId text total (t :: rest) k s = (Throw e, s') ∧
        Scan.glossary s' = Scan.glossary s.
Proof.
  intros Ht Hadd. apply truthy_Some_iff in Ht as (o & Ho & Hne).
  simpl. rewrite Ho.
  destruct (String.eqb_spec o EmptyString) as [->|_]; [congruence|].
  unfold bind at 1. unfold Scan.recordRequest, modify at 1.
  unfold bind at 1. unfold Scan.onConsole, zoom. simpl.
  rewrite findArabic_run. rewrite Hadd.
  eexists. split; reflexivity.
Qed.

End ScanLoop.

Section ScanRun.

Variable toLowerCase : string → string.
Variable env : Scan.Env.
Variable novelId : N.

(** The whole loop when the store accepts every row: one request and
    one stored row for each term, in order. *)
Lemma translateTerms_ok (text : string) (total : nat) (terms : list RawTerm.t) :
  (∀ j, Scan.glossaryAdd env j = Normal tt) →
  Forall (λ t, Js.truthy (RawTerm.original t) = true) terms →
  ∀ (k : nat) (s : Scan.State),
  ∃ s', translateTerms env novelId text total terms k s = (Normal tt, s') ∧
        Glossary.rows (Scan.glossary s')
        = Glossary.rows (Scan.glossary s)
            ++ ScanSpec.insertedFrom env novelId text
                 (Glossary.nextKey (Scan.glossary s)) k terms ∧
        Scan.termRequests s'
        = Scan.termRequests s ++ map (ScanSpec.request text) terms.
Proof.
  intros Hadd Hall. induction Hall as [|t rest Ht _ IH]; intros k s.
  - exists s. simpl. by rewrite !app_nil_r.
  - rewrite translateTerms_cons by auto.
    destruct (IH (S k) (ScanSpec.afterTerm env novelId text total k t s))
      as (s' & Hrun & Hrows & Hreq).
    exists s'. split; [exact Hrun|]. split.
    + rewrite Hrows. simpl. rewrite <- app_assoc. reflexivity.
    + rewrite Hreq. simpl. rewrite <- app_assoc. reflexivity.
Qed.

Lemma extractTermsFromText_run (text : string) (c : Console) :
  ∃ c', GeminiService.extractTermsFromText text (Scan.generateAndParse env) c
        = (Normal (ScanSpec.extracted env text), c').
Proof.
  unfold GeminiService.extractTermsFromText, ScanSpec.extracted, tryCatch, bind, await.
  destruct (Scan.generateAndParse env _); eexists; reflexivity.
Qed.

(** The body of the [try] block when the store answers. *)
Lemma scanBody_ok (chapters : list Chapter.t) (s : Scan.State) :
  ScanSpec.storeOk env →
  let text := combinedText chapters in
  let new := uniqueNewTerms toLowerCase (ScanSpec.extracted env text)
               (Glossary.whereNovel novelId (Scan.glossary s)) in
  ∃ s', scanBody toLowerCase env novelId chapters s = (Normal tt, s') ∧
    Glossary.rows (Scan.glossary s')
    = Glossary.rows (Scan.glossary s)
        ++ ScanSpec.insertedFrom env novelId text (Glossary.nextKey (Scan.glossary s)) 0 new
    ∧ Scan.termRequests s' = Scan.termRequests s ++ map (ScanSpec.request text) new
    ∧ last (Scan.scanProgress s') = Some "Scan Complete!".
Proof.
  intros [Hquery Hadd] text new.
  unfold scanBody. fold text.
  unfold Scan.setScanProgress at 1. rewrite bind_modify.
  match goal with
  | |- context [bind (Scan.onConsole _) _ ?s0] =>
      destruct (extractTermsFromText_run text (Scan.console s0)) as (c' & Hex);
      unfold Scan.onConsole; rewrite (bind_zoom _ _ _ _ s0 _ _ Hex)
  end.
  rewrite Hquery, bind_await_Normal, bind_gets.
  cbn [Scan.withConsole Scan.glossary]. fold new.
  unfold Scan.setScanProgress at 1. rewrite bind_modify.
  match goal with
  | |- context [bind (translateTerms env novelId text (List.length new) new 0) _ ?s0] =>
      destruct (translateTerms_ok text (List.length new) new Hadd
                  (uniqueNewTerms_truthy toLowerCase _ _) 0%nat s0)
        as (s1 & Hrun & Hrows & Hreq);
      unfold bind at 1; rewrite Hrun
  end.
  unfold Scan.setScanProgress, modify.
  cbn [Scan.glossary Scan.termRequests Scan.scanProgress] in *.
  eexists. split; [reflexivity|].
  cbn [Scan.glossary Scan.termRequests Scan.scanProgress].
  repeat split; [exact Hrows | exact Hreq | apply last_snoc].
Qed.

(** The scan over a non-empty corpus when the store answers: the rows
    stored and the requests made. *)
Lemma runDeepScan_ok (chapters : list Chapter.t) (s : Scan.State) :
  chapters ≠ [] →
  ScanSpec.storeOk env →
  let text := combinedText chapters in
  let new := uniqueNewTerms toLowerCase (ScanSpec.extracted env text)
               (Glossary.whereNovel novelId (Scan.glossary s)) in
  let s' := runDeepScan toLowerCase env novelId (Some chapters) s in
  Glossary.rows (Scan.glossary s')
  = Glossary.rows (Scan.glossary s)
      ++ ScanSpec.insertedFrom env novelId text (Glossary.nextKey (Scan.glossary s)) 0 new
  ∧ Scan.termRequests s' = Scan.termRequests s ++ map (ScanSpec.request text) new
  ∧ last (Scan.scanProgress s') = Some "Scan Complete!".
Proof.
  intros Hne Hok text new s'.
  destruct chapters as [|c0 cs]; [congruence|].
  set (chapters := c0 :: cs) in *.
  enough (∃ s1, s' = s1 ∧
    Glossary.rows (Scan.glossary s1)
    = Glossary.rows (Scan.glossary s)
        ++ ScanSpec.insertedFrom env novelId text (Glossary.nextKey (Scan.glossary s)) 0 new
    ∧ Scan.termRequests s1 = Scan.termRequests s ++ map (ScanSpec.request text) new
    ∧ last (Scan.scanProgress s1) = Some "Scan Complete!") as (s1 & -> & H); [exact H|].
  subst s'. unfold runDeepScan. subst chapters.
  unfold Scan.setIsScanning, Scan.setScanProgress at 1.
  rewrite !bind_modify. unfold tryCatch.
  match goal with
  | |- context [scanBody toLowerCase env novelId (c0 :: cs) ?s0] =>
      destruct (scanBody_ok (c0 :: cs) s0 Hok) as (s1 & Hrun & Hprops);
      rewrite Hrun
  end.
  exists s1. split; [reflexivity|]. exact Hprops.
Qed.

End ScanRun.

(** ** The scan, step by step *)

Section ScanUnfold.

Variable toLowerCase : string → string.
Variable env : Scan.Env.
Variable novelId : N.

Lemma extractTermsFromText_console (text : string) (c : Console) :
  GeminiService.extractTermsFromText text (Scan.generateAndParse env) c
  = (Normal (ScanSpec.extracted env text), c ++ ScanReport.extractConsole env text).
Proof.
  unfold GeminiService.extractTermsFromText, ScanSpec.extracted,
    ScanReport.extractConsole, tryCatch, bind, await, ret, console_error, modify.
  destruct (Scan.generateAndParse env _); [by rewrite app_nil_r | reflexivity].
Qed.

Lemma scanBody_unfold (chapters : list Chapter.t) (s : Scan.State) :
  let text := combinedText chapters in
  let new := uniqueNewTerms toLowerCase (ScanSpec.extracted env text)
               (Glossary.whereNovel novelId (Scan.glossary s)) in
  let s1 := ScanReport.extracting env text s in
  scanBody toLowerCase env novelId chapters s
  = match Scan.glossaryToArray env with
    | Throw e => (Throw e, s1)
    | Normal _ =>
        match translateTerms env novelId text (List.length new) new 0
                (ScanReport.labelled
                   ("Found " +:+ pretty (List.length new) +:+ " new terms. Translating...")
                   s1) with
        | (Normal _, s3) => (Normal tt, ScanReport.labelled "Scan Complete!" s3)
        | (Throw e, s3) => (Throw e, s3)
        end
    end.
Proof.
  intros text new s1. unfold scanBody. fold text.
  unfold Scan.setScanProgress at 1. rewrite bind_modify.
  unfold Scan.onConsole.
  erewrite bind_zoom by apply extractTermsFromText_console.
  destruct (Scan.glossaryToArray env) as [[]|e].
  - rewrite bind_await_Normal, bind_gets.
    unfold Scan.setScanProgress at 1. rewrite bind_modify.
    unfold bind at 1. cbn [Scan.withConsole Scan.glossary Scan.console
      Scan.isScanning Scan.scanProgress Scan.termRequests].
    fold new.
    unfold ScanReport.labelled, ScanReport.extracting in *. subst s1.
    cbn [Scan.glossary Scan.console Scan.isScanning Scan.scanProgress Scan.termRequests].
    destruct (translateTerms _ _ _ _ _ _ _) as [[[]|e] s3]; reflexivity.
  - rewrite bind_await_Throw. reflexivity.
Qed.

Lemma runDeepScan_unfold (c0 : Chapter.t) (cs : list Chapter.t) (s : Scan.State) :
  runDeepScan toLowerCase env novelId (Some (c0 :: cs)) s
  = match scanBody toLowerCase env novelId (c0 :: cs) (ScanReport.started s) with
    | (Normal _, s1) => s1
    | (Throw e, s1) => ScanReport.failed e s1
    end.
Proof.
  unfold runDeepScan, Scan.setIsScanning, Scan.setScanProgress at 1.
  rewrite !bind_modify. unfold tryCatch, ScanReport.started.
  cbn [Scan.glossary Scan.console Scan.isScanning Scan.scanProgress Scan.termRequests].
  destruct (scanBody _ _ _ _ _) as [[[]|e] s1]; reflexivity.
Qed.

End ScanUnfold.

(** ** The requests of a scan in any environment *)

Section ScanRequests.

Variable toLowerCase : string → string.
Variable env : Scan.Env.
Variable novelId : N.

(** A round in which the store rejects the row has made its request. *)
Lemma translateTerms_add_throws_request (text : string) (total : nat)
    (t : RawTerm.t) (rest : list RawTerm.t) (k : nat) (s : Scan.State) (e : string) :
  Js.truthy (RawTerm.original t) = true →
  Scan.glossaryAdd env k = Throw e →
  ∃ s', translateTerms env novelId text total (t :: rest) k s = (Throw e, s') ∧
        Scan.termRequests s' = Scan.termRequests s ++ [ScanSpec.request text t].
Proof.
  intros Ht Hadd. apply truthy_Some_iff in Ht as (o & Ho & Hne).
  simpl. unfold ScanSpec.request, ScanSpec.originalOf. rewrite Ho.
  destruct (String.eqb_spec o EmptyString) as [->|_]; [congruence|].
  unfold bind at 1. unfold Scan.recordRequest, modify at 1.
  unfold bind at 1. unfold Scan.onConsole, zoom. simpl.
  rewrite findArabic_run. rewrite Hadd.
  eexists. split; reflexivity.
Qed.

(** The loop makes the requests of an initial segment of the terms, in
    order, whatever the service and the store do. *)
Lemma translateTerms_requests (text : string) (total : nat) (terms : list RawTerm.t) :
  Forall (λ t, Js.truthy (RawTerm.original t) = true) terms →
  ∀ (k : nat) (s : Scan.State),
  ∃ (m : nat) (c : Completion unit) (s' : Scan.State),
    translateTerms env novelId text total terms k s = (c, s')
    ∧ (m ≤ List.length terms)%nat
    ∧ Scan.termRequests s'
      = Scan.termRequests s ++ map (ScanSpec.request text) (take m terms).
Proof.
  induction 1 as [|t rest Ht _ IH]; intros k s.
  - exists 0%nat, (Normal tt), s. simpl. rewrite app_nil_r. auto.
  - destruct (Scan.glossaryAdd env k) as [[]|e] eqn:Hadd.
    + rewrite translateTerms_cons by auto.
      destruct (IH (S k) (ScanSpec.afterTerm env novelId text total k t s))
        as (m & c & s' & Hrun & Hm & Hreq).
      exists (S m), c, s'. split; [exact Hrun|]. split; [simpl; lia|].
      rewrite Hreq. simpl. rewrite <- app_assoc. reflexivity.
    + destruct (translateTerms_add_throws_request text total t rest k s e Ht Hadd)
        as (s' & Hrun & Hreq).
      exists 1%nat, (Throw e), s'. split; [exact Hrun|]. split; [simpl; lia|].
      rewrite Hreq. destruct rest; reflexivity.
Qed.

(** The requests of a scan are those of an initial segment of the
    resolved candidates. *)
Lemma runDeepScan_requests (chapters : list Chapter.t) (s : Scan.State) :
  chapters ≠ [] →
  let text := combinedText chapters in
  let new := uniqueNewTerms toLowerCase (ScanSpec.extracted env text)
               (Glossary.whereNovel novelId (Scan.glossary s)) in
  ∃ m : nat,
    (m ≤ List.length new)%nat
    ∧ Scan.termRequests (runDeepScan toLowerCase env novelId (Some chapters) s)
      = Scan.termRequests s ++ map (ScanSpec.request text) (take m new).
Proof.
  intros Hne text new. destruct chapters as [|c0 cs]; [congruence|].
  rewrite runDeepScan_unfold, scanBody_unfold.
  fold text. cbn [ScanReport.started Scan.glossary]. fold new.
  destruct (Scan.glossaryToArray env) as [[]|e].
  - match goal with
    | |- context [translateTerms env novelId text (List.length new) new 0 ?s0] =>
        destruct (translateTerms_requests text (List.length new) new
                    (uniqueNewTerms_truthy toLowerCase _ _) 0%nat s0)
          as (m & c & s3 & Hrun & Hm & Hreq);
        rewrite Hrun
    end.
    exists m. split; [exact Hm|].
    destruct c as [[]|e]; simpl; exact Hreq.
  - exists 0%nat. split; [lia|]. simpl. by rewrite app_nil_r.
Qed.

(** The loop when the store rejects the row of the term [k0]: the
    requests are those of the terms up to this one. *)
Lemma translateTerms_rejected_requests (text : string) (total k0 : nat) (e : string)
    (terms : list RawTerm.t) :
  Forall (λ t, Js.truthy (RawTerm.original t) = true) terms →
  Scan.glossaryAdd env k0 = Throw e →
  ∀ (k : nat) (s : Scan.State),
  (∀ j, (k ≤ j < k0)%nat → Scan.glossaryAdd env j = Normal tt) →
  (k ≤ k0 < k + List.length terms)%nat →
  ∃ s', translateTerms env novelId text total terms k s = (Throw e, s')
        ∧ Scan.termRequests s'
          = Scan.termRequests s ++ map (ScanSpec.request text) (take (S (k0 - k)) terms).
Proof.
  intros Hall Hthrow. induction Hall as [|t rest Ht _ IH]; intros k s Hacc Hk.
  - simpl in Hk. lia.
  - destruct (decide (k = k0)) as [->|Hlt].
    + destruct (translateTerms_add_throws_request text total t rest k0 s e Ht Hthrow)
        as (s' & Hrun & Hreq).
      exists s'. split; [exact Hrun|].
      rewrite Hreq, Nat.sub_diag. destruct rest; reflexivity.
    + rewrite translateTerms_cons by (auto; apply Hacc; lia).
      destruct (IH (S k) (ScanSpec.afterTerm env novelId text total k t s))
        as (s' & Hrun & Hreq).
      { intros j Hj. apply Hacc. lia. }
      { simpl in Hk. lia. }
      exists s'. split; [exact Hrun|].
      rewrite Hreq. replace (k0 - k)%nat with (S (k0 - S k))%nat by lia.
      simpl. rewrite <- app_assoc. reflexivity.
Qed.

(** The requests of a scan in which the store rejects the query of the
    existing terms, or the row of the candidate [k]. *)
Lemma runDeepScan_requests_rejected (chapters : list Chapter.t) (s : Scan.State) :
  chapters ≠ [] →
  let text := combinedText chapters in
  let new := uniqueNewTerms toLowerCase (ScanSpec.extracted env text)
               (Glossary.whereNovel novelId (Scan.glossary s)) in
  let s' := runDeepScan toLowerCase env novelId (Some chapters) s in
  (∀ e, Scan.glossaryToArray env = Throw e → Scan.termRequests s' = Scan.termRequests s)
  ∧ (∀ k e, ScanReport.rejectsAt env k e → (k < List.length new)%nat →
       Scan.termRequests s'
       = Scan.termRequests s ++ map (ScanSpec.request text) (take (S k) new)).
Proof.
  intros Hne text new s'. subst s'. destruct chapters as [|c0 cs]; [congruence|].
  rewrite runDeepScan_unfold, scanBody_unfold.
  fold text. cbn [ScanReport.started Scan.glossary]. fold new.
  split.
  - intros e ->. reflexivity.
  - intros k e (-> & Hacc & Hthrow) Hk.
    match goal with
    | |- context [translateTerms env novelId text (List.length new) new 0 ?s0] =>
        destruct (translateTerms_rejected_requests text (List.length new) k e new
                    (uniqueNewTerms_truthy toLowerCase _ _) Hthrow 0%nat s0)
          as (s3 & Hrun & Hreq);
        [intros j Hj; apply Hacc; lia | lia | rewrite Hrun]
    end.
    rewrite Nat.sub_0_r in Hreq. exact Hreq.
Qed.

End ScanRequests.

(** ** Rows stored by the scan *)

Lemma insertedFrom_length (env : Scan.Env) (novelId : N) (text : string)
    (terms : list RawTerm.t) :
  ∀ (key : N) (k : nat),
  List.length (ScanSpec.insertedFrom env novelId text key k terms) = List.length terms.
Proof.
  induction terms as [|t rest IH]; intros key k; simpl; [reflexivity|].
  by rewrite IH.
Qed.


Lemma occurrences_filter (o : string) (keep : RawTerm.t → bool) (batch : list RawTerm.t) :
  (∀ t, RawTerm.original t = Some o → keep t = true) →
  occurrences o (List.filter keep batch) = occurrences o batch.
Proof.
  intros Hkeep. unfold occurrences.
  induction batch as [|t rest IH]; simpl; [reflexivity|].
  destruct (keep t) eqn:Hk; simpl.
  - destruct (bool_decide _); simpl; by rewrite IH.
  - rewrite IH. destruct (bool_decide_reflect (RawTerm.original t = Some o)) as [Ho|]; auto.
    rewrite Hkeep in Hk by exact Ho. discriminate.
Qed.

Lemma filter_sublist {A} (keep : A → bool) (l : list A) :
  sublist (List.filter keep l) l.
Proof.
  induction l as [|x l IH]; simpl; [constructor|].
  destruct (keep x); by constructor.
Qed.

(** ** The claims about the deep scan *)

(** C1 (as stated, refuted). The extractor proposes "Zhang San" three
    times and the glossary is empty: the resolution keeps all three
    candidates, so two resolved candidates share their original, and the
    scan stores three Terms, not one. *)
Lemma C1_counterexample :
  let new := uniqueNewTerms Js.toLowerCaseAscii
               [ScanExamples.zhangSan; ScanExamples.zhangSan; ScanExamples.zhangSan] [] in
  let s' := runDeepScan Js.toLowerCaseAscii ScanExamples.envThrice 7
              (Some ScanExamples.corpus) ScanExamples.start in
  ¬ NoDup (map RawTerm.original new)
  ∧ List.length new = 3%nat
  ∧ map Term.original (Glossary.rows (Scan.glossary s'))
    = ["Zhang San"; "Zhang San"; "Zhang San"].
Proof.
  split; [|split].
  - vm_compute. intros Hnd. apply NoDup_cons in Hnd as [Hnotin _].
    apply Hnotin. constructor.
  - vm_compute. reflexivity.
  - vm_compute. reflexivity.
Qed.

(** C1 (amended). The term resolution does not collapse duplicates: a
    candidate whose original is non-empty and matches no existing term
    occurs in the resolved output as often as in the extractor's batch,
    the output keeps the batch's order, and when the store answers the
    scan stores one Term for each resolved candidate. *)
Theorem C1_resolution_keeps_duplicates
    (toLowerCase : string → string) (env : Scan.Env) (novelId : N)
    (chapters : list Chapter.t) (s : Scan.State) (o : string) :
  chapters ≠ [] →
  ScanSpec.storeOk env →
  o ≠ EmptyString →
  (∀ e, e ∈ Glossary.whereNovel novelId (Scan.glossary s) →
        toLowerCase (Term.original e) ≠ toLowerCase o) →
  let text := combinedText chapters in
  let rawTerms := ScanSpec.extracted env text in
  let new := uniqueNewTerms toLowerCase rawTerms
               (Glossary.whereNovel novelId (Scan.glossary s)) in
  let s' := runDeepScan toLowerCase env novelId (Some chapters) s in
  occurrences o new = occurrences o rawTerms
  ∧ sublist new rawTerms
  ∧ List.length (Glossary.rows (Scan.glossary s'))
    = (List.length (Glossary.rows (Scan.glossary s)) + List.length new)%nat.
Proof.
  intros Hne Hok Ho Hfresh text rawTerms new s'.
  split; [|split].
  - apply occurrences_filter. intros t Ht.
    apply isNew_true. exists o. auto.
  - apply filter_sublist.
  - destruct (runDeepScan_ok toLowerCase env novelId chapters s Hne Hok) as (Hrows & _ & _).
    fold text rawTerms new s' in Hrows. rewrite Hrows.
    by rewrite length_app, insertedFrom_length.
Qed.

Lemma C1_witness :
  ScanExamples.corpus ≠ []
  ∧ ScanSpec.storeOk ScanExamples.envThrice
  ∧ occurrences "Zhang San"
      (uniqueNewTerms Js.toLowerCaseAscii
         (ScanSpec.extracted ScanExamples.envThrice (combinedText ScanExamples.corpus))
         (Glossary.whereNovel 7 (Scan.glossary ScanExamples.start)))
    = 3%nat
  ∧ List.length
      (Glossary.rows
         (Scan.glossary
            (runDeepScan Js.toLowerCaseAscii ScanExamples.envThrice 7
               (Some ScanExamples.corpus) ScanExamples.start)))
    = 3%nat.
Proof.
  assert (H1 : ScanExamples.corpus ≠ []) by discriminate.
  assert (H2 : ScanSpec.storeOk ScanExamples.envThrice)
    by (split; [reflexivity | intros k; reflexivity]).
  assert (H3 : "Zhang San" ≠ EmptyString) by discriminate.
  assert (H4 : ∀ e, e ∈ Glossary.whereNovel 7 (Scan.glossary ScanExamples.start) →
                    Js.toLowerCaseAscii (Term.original e)
                    ≠ Js.toLowerCaseAscii "Zhang San")
    by (intros e He; inversion He).
  destruct (C1_resolution_keeps_duplicates Js.toLowerCaseAscii ScanExamples.envThrice 7
              ScanExamples.corpus ScanExamples.start "Zhang San" H1 H2 H3 H4)
    as (Hocc & _ & Hlen).
  split; [exact H1|]. split; [exact H2|]. split.
  - rewrite Hocc. vm_compute. reflexivity.
  - rewrite Hlen. vm_compute. reflexivity.
Defined.

(** C6. No resolved candidate matches an existing term without regard to
    case, and every resolved candidate has a non-empty original:
    candidates without one are left out, and the resolution is a total
    function that has no way to fail. *)
Theorem C6_resolution_excludes_existing
    (toLowerCase : string → string) (rawTerms : list RawTerm.t)
    (existingTerms : list Term.t) :
  Forall (λ t, ∃ o, RawTerm.original t = Some o ∧ o ≠ EmptyString ∧
                    ∀ e, e ∈ existingTerms →
                         toLowerCase (Term.original e) ≠ toLowerCase o)
         (uniqueNewTerms toLowerCase rawTerms existingTerms).
Proof.
  apply Forall_forall. intros t Ht.
  apply uniqueNewTerms_elem in Ht as [_ Ht]. by apply isNew_true.
Qed.

(** C6 on a batch: "li si" matches the existing "LI SI" and the candidate
    with the empty original is dropped. *)
Example C6_example :
  uniqueNewTerms Js.toLowerCaseAscii
    [ScanExamples.nameless; ScanExamples.liSi; ScanExamples.zhangSan]
    [ScanExamples.existing]
  = [ScanExamples.zhangSan].
Proof. vm_compute. reflexivity. Qed.





(** C9 (as stated, refuted). The extractor proposes "Li Si", which the
    sample does not contain: the request is made with the first 99 code
    units of the sample as context, not with an empty context. *)
Lemma C9_counterexample :
  let text := combinedText ScanExamples.longCorpus in
  let s' := runDeepScan Js.toLowerCaseAscii ScanExamples.envAbsent 7
              (Some ScanExamples.longCorpus) ScanExamples.start in
  Js.indexOf text "Li Si" = -1
  ∧ Scan.termRequests s' = [("Li Si", String.substring 0 99 text)]
  ∧ String.length (String.substring 0 99 text) = 99%nat.
Proof.
  split; [|split]; vm_compute; reflexivity.
Qed.

(** C9 (amended). Whatever the extractor, the term service and the store
    do, the requests of a scan are those of an initial segment of the
    resolved candidates, in order, each with the candidate's original and
    its context snippet: all of them when the store answers, those up to
    the candidate [k] when the store rejects the row of this candidate,
    and none when the store rejects the query of the existing terms.  The
    snippet is defined for every original: for one that does not occur in
    the sample it is the first 99 code units of the sample (all of it
    when it is shorter); for one that occurs it is the window of at most
    100 code units that starts at its first occurrence. *)
Theorem C9_context_snippet
    (toLowerCase : string → string) (env : Scan.Env) (novelId : N)
    (chapters : list Chapter.t) (s : Scan.State) :
  chapters ≠ [] →
  let text := combinedText chapters in
  let new := uniqueNewTerms toLowerCase (ScanSpec.extracted env text)
               (Glossary.whereNovel novelId (Scan.glossary s)) in
  let s' := runDeepScan toLowerCase env novelId (Some chapters) s in
  let requestOf := λ t, (ScanSpec.originalOf t, contextSnippet text (ScanSpec.originalOf t)) in
  (∃ m : nat,
     (m ≤ List.length new)%nat
     ∧ Scan.termRequests s' = Scan.termRequests s ++ map requestOf (take m new))
  ∧ (ScanSpec.storeOk env →
     Scan.termRequests s' = Scan.termRequests s ++ map requestOf new)
  ∧ (∀ k e, ScanReport.rejectsAt env k e → (k < List.length new)%nat →
       Scan.termRequests s' = Scan.termRequests s ++ map requestOf (take (S k) new))
  ∧ (∀ e, Scan.glossaryToArray env = Throw e → Scan.termRequests s' = Scan.termRequests s)
  ∧ ∀ original : string,
      (String.index 0 original text = None →
       contextSnippet text original = String.substring 0 99 text)
      ∧ (∀ i : nat, String.index 0 original text = Some i →
           String.substring i (String.length original) text = original
           ∧ (∀ j : nat, (j < i)%nat →
                String.substring j (String.length original) text ≠ original)
           ∧ contextSnippet text original = String.substring i 100 text).
Proof.
  intros Hne text new s' requestOf.
  destruct (runDeepScan_requests_rejected toLowerCase env novelId chapters s Hne)
    as [Hquery Hrow].
  split; [|split; [|split; [|split]]].
  - exact (runDeepScan_requests toLowerCase env novelId chapters s Hne).
  - intros Hok.
    destruct (runDeepScan_ok toLowerCase env novelId chapters s Hne Hok)
      as (_ & Hreq & _).
    exact Hreq.
  - exact Hrow.
  - exact Hquery.
  - intros original. split.
    + apply contextSnippet_missing.
    + intros i Hi. split; [|split].
      * eapply String.index_correct1. exact Hi.
      * intros j Hj. eapply String.index_correct2; [exact Hi | lia | exact Hj].
      * by apply contextSnippet_found.
Qed.

Lemma C9_witness :
  let text := combinedText ScanExamples.longCorpus in
  ScanExamples.longCorpus ≠ []
  ∧ Scan.termRequests
      (runDeepScan Js.toLowerCaseAscii ScanExamples.envFirstFails 7
         (Some ScanExamples.longCorpus) ScanExamples.start)
    = [("Zhang San", String.substring 32 100 text); ("Li Si", String.substring 0 99 text)]
  ∧ contextSnippet text "Zhang San" = String.substring 32 100 text.
Proof.
  intros text.
  assert (H1 : ScanExamples.longCorpus ≠ []) by discriminate.
  assert (H2 : ScanSpec.storeOk ScanExamples.envFirstFails)
    by (split; [reflexivity | intros k; reflexivity]).
  destruct (C9_context_snippet Js.toLowerCaseAscii ScanExamples.envFirstFails 7
              ScanExamples.longCorpus ScanExamples.start H1) as (_ & Hreq & _ & _ & Hsnip).
  split; [exact H1|]. split.
  - rewrite (Hreq H2). vm_compute. reflexivity.
  - destruct (Hsnip "Zhang San") as (_ & Hfound).
    destruct (Hfound 32%nat) as (_ & _ & Hwin).
    + vm_compute. reflexivity.
    + exact Hwin.
Defined.

(** With a store that rejects the second row, the scan makes the requests
    of the first two of its resolved candidates and ends in its [catch]. *)
Example requests_until_the_store_rejects :
  let text := combinedText ScanExamples.longCorpus in
  let s' := runDeepScan Js.toLowerCaseAscii ScanExamples.envStoreFails 7
              (Some ScanExamples.longCorpus) ScanExamples.start in
  Scan.termRequests s'
  = [("Zhang San", String.substring 32 100 text); ("Li Si", String.substring 0 99 text)]
  ∧ List.length (Glossary.rows (Scan.glossary s')) = 1%nat
  ∧ last (Scan.scanProgress s') = Some "Scan Failed.".
Proof. split; [|split]; vm_compute; reflexivity. Qed.

(** ** The sample of the deep scan *)

Lemma omap_id_Some {A} (l : list A) : omap id (Some <$> l) = l.
Proof. induction l as [|x l IH]; csimpl; [reflexivity|]. by rewrite IH. Qed.

Lemma middle_exists {A} (l : list A) :
  l ≠ [] → ∃ mid, l !! (List.length l / 2)%nat = Some mid.
Proof.
  intros Hne. apply lookup_lt_is_Some_2.
  assert (0 < List.length l)%nat by (destruct l; [congruence | simpl; lia]).
  apply Nat.div_lt; lia.
Qed.

Lemma sampleChapters_eq (chapters : list Chapter.t) (mid : Chapter.t) :
  chapters !! (List.length chapters / 2)%nat = Some mid →
  sampleChapters chapters
  = take 3 chapters ++ [mid] ++ drop (List.length chapters - 3) chapters.
Proof.
  intros Hmid. unfold sampleChapters, Js.filterBoolean, Js.sliceFirst, Js.sliceLast.
  rewrite !omap_app, !omap_id_Some, Hmid. reflexivity.
Qed.

(** With at least seven elements, head, middle and tail do not overlap:
    the sample is a sublist of the corpus. *)
Lemma sample_sublist {A} (l : list A) (mid : A) :
  (7 ≤ List.length l)%nat →
  l !! (List.length l / 2)%nat = Some mid →
  sublist (take 3 l ++ [mid] ++ drop (List.length l - 3) l) l.
Proof.
  intros Hlen Hmid. set (n := List.length l) in *.
  assert (Hhalf : (3 ≤ n / 2 ∧ S (n / 2) ≤ n - 3)%nat).
  { split.
    - apply Nat.div_le_lower_bound; lia.
    - assert (n / 2 * 2 ≤ n)%nat by (rewrite Nat.mul_comm; apply Nat.Div0.mul_div_le).
      assert (n < 2 * S (n / 2))%nat by (apply Nat.mul_succ_div_gt; lia).
      lia. }
  rewrite <- (take_drop 3 l) at 3.
  apply sublist_app; [reflexivity|].
  rewrite <- (take_drop (n / 2 - 3) (drop 3 l)).
  apply sublist_inserts_l.
  rewrite drop_drop. replace (3 + (n / 2 - 3))%nat with (n / 2)%nat by lia.
  rewrite (drop_S l mid (n / 2)) by exact Hmid.
  simpl. constructor.
  replace (n - 3)%nat with (S (n / 2) + (n - 3 - S (n / 2)))%nat by lia.
  rewrite <- drop_drop. apply sublist_drop.
Qed.

(** With fewer than seven elements some position is taken twice. *)
Lemma sample_repeats (ids : list N) (mid : N) :
  ids ≠ [] →
  (List.length ids < 7)%nat →
  ids !! (List.length ids / 2)%nat = Some mid →
  ¬ NoDup (take 3 ids ++ [mid] ++ drop (List.length ids - 3) ids).
Proof.
  intros Hne Hlen Hmid.
  destruct ids as [|a [|b [|c [|d [|e [|f [|g ids]]]]]]];
    simpl in *; try congruence; try lia;
    simplify_eq;
    rewrite ?NoDup_cons, ?not_elem_of_cons; intuition congruence.
Qed.

(** C7 (as stated, refuted). A corpus of one document: the document is
    taken as head, as middle and as tail, and its text occurs three times
    in the sample. *)
Lemma C7_counterexample :
  let c := ScanExamples.chapter 1 "a" in
  sampleChapters [c] = [c; c; c]
  ∧ ¬ NoDup (sampleChapters [c])
  ∧ combinedText [c] = "a" +:+ Js.nl +:+ Js.nl +:+ "a" +:+ Js.nl +:+ Js.nl +:+ "a".
Proof.
  split; [|split].
  - vm_compute. reflexivity.
  - vm_compute. intros Hnd. apply NoDup_cons in Hnd as [Hnotin _].
    apply Hnotin. constructor.
  - vm_compute. reflexivity.
Qed.

(** C7 (amended). For a non-empty corpus the sample is the first three
    documents, the document at index [length / 2] and the last three
    documents, in this order and with nothing removed; the sample text is
    their contents joined by two line feeds.  No document is taken twice
    exactly when the corpus has at least seven documents. *)
Theorem C7_sample_head_middle_tail (chapters : list Chapter.t) :
  chapters ≠ [] →
  NoDup (Chapter.id <$> chapters) →
  ∃ mid,
    chapters !! (List.length chapters / 2)%nat = Some mid
    ∧ sampleChapters chapters
      = take 3 chapters ++ [mid] ++ drop (List.length chapters - 3) chapters
    ∧ combinedText chapters
      = Js.join (Js.nl +:+ Js.nl) (map Chapter.content (sampleChapters chapters))
    ∧ (NoDup (Chapter.id <$> sampleChapters chapters) ↔ (7 ≤ List.length chapters)%nat).
Proof.
  intros Hne Hids.
  destruct (middle_exists chapters Hne) as (mid & Hmid).
  exists mid. split; [exact Hmid|].
  pose proof (sampleChapters_eq chapters mid Hmid) as Hsample.
  split; [exact Hsample|]. split; [reflexivity|].
  rewrite Hsample. split.
  - intros Hnd. destruct (decide (7 ≤ List.length chapters)%nat) as [|Hshort]; [assumption|].
    exfalso. revert Hnd.
    rewrite !fmap_app, fmap_take, fmap_drop. simpl.
    replace (List.length chapters) with (List.length (Chapter.id <$> chapters))
      by apply length_fmap.
    apply sample_repeats.
    + destruct chapters; [congruence | discriminate].
    + rewrite length_fmap. lia.
    + rewrite list_lookup_fmap, length_fmap, Hmid. reflexivity.
  - intros Hlen. eapply sublist_NoDup; [exact Hids|].
    apply fmap_sublist. by apply sample_sublist.
Qed.

Lemma C7_witness :
  ScanExamples.longCorpus ≠ []
  ∧ NoDup (Chapter.id <$> ScanExamples.longCorpus)
  ∧ Chapter.id <$> sampleChapters ScanExamples.longCorpus = [1; 2; 3; 4; 5; 6; 7]%N
  ∧ NoDup (Chapter.id <$> sampleChapters ScanExamples.longCorpus).
Proof.
  assert (H1 : ScanExamples.longCorpus ≠ []) by discriminate.
  assert (H2 : NoDup (Chapter.id <$> ScanExamples.longCorpus)).
  { vm_compute. repeat (apply NoDup_cons; split; [by (intros Hin; repeat (apply elem_of_cons in Hin as [[=]|Hin]); inversion Hin)|]). apply NoDup_nil. done. }
  destruct (C7_sample_head_middle_tail ScanExamples.longCorpus H1 H2)
    as (mid & _ & _ & _ & Hnd).
  split; [exact H1|]. split; [exact H2|]. split.
  - vm_compute. reflexivity.
  - apply Hnd. vm_compute. lia.
Defined.

(** ** The document translation *)

Lemma orElse_nonempty (v : option string) (d : string) :
  d ≠ EmptyString → Js.orElse v d ≠ EmptyString.
Proof.
  intros Hd. destruct v as [t|]; simpl; [|exact Hd].
  destruct (String.eqb_spec t EmptyString); auto.
Qed.

(** What [translateChapterWithGlossary] returns and writes, by the
    service's answer to its prompt. *)
Lemma translateChapterWithGlossary_run (content : string) (glossary : list Term.t)
    (generateContent : string → GeminiService.Answer) (c : Console) :
  GeminiService.translateChapterWithGlossary content glossary generateContent c
  = match generateContent (BulkSpec.promptOf content glossary) with
    | Normal text => (Normal (Js.orElse text GeminiService.translationFailed), c)
    | Throw e => (Normal GeminiService.errorGenerating, c ++ [["Translation error:"; e]])
    end.
Proof.
  unfold GeminiService.translateChapterWithGlossary, BulkSpec.promptOf,
    tryCatch, bind, await, ret, console_error, modify.
  destruct (generateContent _); reflexivity.
Qed.

Lemma translateChapterWithGlossary_total (content : string) (glossary : list Term.t)
    (generateContent : string → GeminiService.Answer) (c : Console) :
  ∃ result c',
    GeminiService.translateChapterWithGlossary content glossary generateContent c
    = (Normal result, c')
    ∧ result ≠ EmptyString
    ∧ BulkSpec.failedLines c' = BulkSpec.failedLines c.
Proof.
  rewrite translateChapterWithGlossary_run.
  destruct (generateContent _) as [text|e].
  - exists (Js.orElse text GeminiService.translationFailed), c.
    split; [reflexivity|]. split; [|reflexivity].
    apply orElse_nonempty. discriminate.
  - eexists _, _. split; [reflexivity|]. split; [discriminate|].
    unfold BulkSpec.failedLines. rewrite List.filter_app, length_app. simpl. lia.
Qed.

(** ** The batch translation: what the parts of the loop touch *)

Section LoopParts.

Variables (k : nat) (r : Bulk.Run) (i : nat) (s : Bulk.State).

(** The three ways out of the head of the loop. *)
Lemma loopHead_cases :
  (Bulk.loopHead k r i s = Bulk.finish k s
   ∧ (Bulk.untranslated r !! i = None ∨ Bulk.stopSignal s = true))
  ∨ ∃ chapter,
      Bulk.untranslated r !! i = Some chapter ∧ Bulk.stopSignal s = false
      ∧ ((Bulk.bulkPausedRef s = true
          ∧ Bulk.loopHead k r i s = Bulk.goto k (Bulk.PauseWait r i chapter) s)
         ∨ (Bulk.bulkPausedRef s = false
            ∧ Bulk.loopHead k r i s = Bulk.dispatch k r i chapter s)).
Proof.
  unfold Bulk.loopHead, Bulk.pauseLoop.
  destruct (Bulk.untranslated r !! i) as [chapter|]; [|by left; auto].
  destruct (Bulk.stopSignal s); [by left; auto|].
  right. exists chapter. split; [reflexivity|]. split; [reflexivity|].
  destruct (Bulk.bulkPausedRef s); simpl; auto.
Qed.

(** The two ways out of the pause loop. *)
Lemma pauseLoop_cases (chapter : Chapter.t) :
  (Bulk.stopSignal s = false ∧ Bulk.bulkPausedRef s = true
   ∧ Bulk.pauseLoop k r i chapter s = Bulk.goto k (Bulk.PauseWait r i chapter) s)
  ∨ ((Bulk.stopSignal s = true ∨ Bulk.bulkPausedRef s = false)
     ∧ Bulk.pauseLoop k r i chapter s = Bulk.dispatch k r i chapter s).
Proof.
  unfold Bulk.pauseLoop.
  destruct (Bulk.stopSignal s), (Bulk.bulkPausedRef s); simpl; auto.
Qed.

Lemma finish_chapters : Bulk.chapters (Bulk.finish k s) = Bulk.chapters s.
Proof. reflexivity. Qed.

Lemma finish_console : Bulk.console (Bulk.finish k s) = Bulk.console s.
Proof. reflexivity. Qed.

Lemma loopHead_chapters : Bulk.chapters (Bulk.loopHead k r i s) = Bulk.chapters s.
Proof.
  destruct loopHead_cases as [[-> _]|(c & _ & _ & [[_ ->]|[_ ->]])]; reflexivity.
Qed.

Lemma loopHead_console : Bulk.console (Bulk.loopHead k r i s) = Bulk.console s.
Proof.
  destruct loopHead_cases as [[-> _]|(c & _ & _ & [[_ ->]|[_ ->]])]; reflexivity.
Qed.

Lemma pauseLoop_chapters (chapter : Chapter.t) :
  Bulk.chapters (Bulk.pauseLoop k r i chapter s) = Bulk.chapters s.
Proof.
  destruct (pauseLoop_cases chapter) as [(_ & _ & ->)|[_ ->]]; reflexivity.
Qed.

Lemma pauseLoop_console (chapter : Chapter.t) :
  Bulk.console (Bulk.pauseLoop k r i chapter s) = Bulk.console s.
Proof.
  destruct (pauseLoop_cases chapter) as [(_ & _ & ->)|[_ ->]]; reflexivity.
Qed.

(** The head of the loop changes the control point of its own invocation
    only: the invocation returns, or goes on with the chapter [i] of its
    queue. *)
Lemma loopHead_invocations :
  ∃ p, Bulk.invocations (Bulk.loopHead k r i s) = <[k := p]> (Bulk.invocations s)
       ∧ (p = Bulk.Returned
          ∨ ∃ chapter, Bulk.untranslated r !! i = Some chapter
                       ∧ (p = Bulk.PauseWait r i chapter
                          ∨ p = Bulk.AwaitTranslate r i chapter)).
Proof.
  destruct loopHead_cases as [[-> _]|(c & Hi & _ & [[_ ->]|[_ ->]])];
    eexists; (split; [reflexivity|]); eauto.
Qed.

Lemma pauseLoop_invocations (chapter : Chapter.t) :
  ∃ p, Bulk.invocations (Bulk.pauseLoop k r i chapter s) = <[k := p]> (Bulk.invocations s)
       ∧ (p = Bulk.PauseWait r i chapter ∨ p = Bulk.AwaitTranslate r i chapter).
Proof.
  destruct (pauseLoop_cases chapter) as [(_ & _ & ->)|[_ ->]];
    eexists; (split; [reflexivity|]); auto.
Qed.

(** Whatever the loop does next, the chapters it can still update are
    chapters of the queue. *)
Lemma loopHead_pending (key : N) :
  BulkSpec.avoids key (Bulk.untranslated r) →
  Forall (λ p, BulkSpec.avoids key (BulkSpec.pending p)) (Bulk.invocations s) →
  Forall (λ p, BulkSpec.avoids key (BulkSpec.pending p))
         (Bulk.invocations (Bulk.loopHead k r i s)).
Proof.
  intros Hav Hall.
  destruct loopHead_invocations as (p & -> & Hp).
  apply Forall_insert; [exact Hall|].
  destruct Hp as [->|(chapter & Hi & [->| ->])]; simpl.
  - intros c Hc. inversion Hc.
  - intros c Hc. apply elem_of_cons in Hc as [->|Hc]; [|by auto].
    apply Hav. eapply list_elem_of_lookup_2. exact Hi.
  - intros c Hc. apply elem_of_cons in Hc as [->|Hc]; [|by auto].
    apply Hav. eapply list_elem_of_lookup_2. exact Hi.
Qed.

Lemma pauseLoop_pending (key : N) (chapter : Chapter.t) :
  BulkSpec.avoids key (chapter :: Bulk.untranslated r) →
  Forall (λ p, BulkSpec.avoids key (BulkSpec.pending p)) (Bulk.invocations s) →
  Forall (λ p, BulkSpec.avoids key (BulkSpec.pending p))
         (Bulk.invocations (Bulk.pauseLoop k r i chapter s)).
Proof.
  intros Hav Hall.
  destruct (pauseLoop_invocations chapter) as (p & -> & [->| ->]);
    (apply Forall_insert; [exact Hall | exact Hav]).
Qed.

End LoopParts.

(** ** The batch translation: chapters that a run leaves alone *)

Lemma spares_filter (k : N) (snapshot : list Chapter.t) :
  BulkSpec.spares k snapshot →
  BulkSpec.avoids k (List.filter Bulk.lacksTranslation snapshot).
Proof.
  intros Hsp c Hc. apply list_elem_of_In, filter_In in Hc as [Hc Hlacks].
  apply Hsp; [by apply list_elem_of_In | exact Hlacks].
Qed.

Lemma avoids_tail (k : N) (c : Chapter.t) (l : list Chapter.t) :
  BulkSpec.avoids k (c :: l) → BulkSpec.avoids k l.
Proof. intros H c' Hc'. apply H. by right. Qed.

Lemma avoids_nil (k : N) : BulkSpec.avoids k [].
Proof. intros c Hc. inversion Hc. Qed.

Lemma applyUpdate_other (k id : N) (result : string) (date : N) (t : gmap N Chapter.t) :
  id ≠ k → Bulk.applyUpdate id result date t !! k = t !! k.
Proof. intros Hne. unfold Bulk.applyUpdate. by apply lookup_alter_ne. Qed.

Lemma quiet_avoids (k : N) (s : Bulk.State) :
  BulkSpec.quiet s →
  Forall (λ p, BulkSpec.avoids k (BulkSpec.pending p)) (Bulk.invocations s).
Proof.
  unfold BulkSpec.quiet. intros Hq. eapply Forall_impl; [exact Hq|].
  intros p ->. apply avoids_nil.
Qed.

Lemma startBulkTranslation_spares (k : N) (snapshot : option (list Chapter.t))
    (s : Bulk.State) :
  Forall (λ p, BulkSpec.avoids k (BulkSpec.pending p)) (Bulk.invocations s) →
  match snapshot with Some l => BulkSpec.spares k l | None => True end →
  Forall (λ p, BulkSpec.avoids k (BulkSpec.pending p))
         (Bulk.invocations (Bulk.startBulkTranslation snapshot s))
  ∧ Bulk.chapters (Bulk.startBulkTranslation snapshot s) = Bulk.chapters s.
Proof.
  intros Hall Hsp. unfold Bulk.startBulkTranslation.
  destruct snapshot as [l|]; [|by split].
  pose proof (spares_filter k l Hsp) as Hav.
  destruct (List.filter Bulk.lacksTranslation l) as [|c rest] eqn:Hf; simpl.
  - by split.
  - split; [|reflexivity]. apply Forall_app. split; [exact Hall|].
    constructor; [exact Hav | constructor].
Qed.

(** One event keeps the chapter of key [k] as it is, provided no
    suspended invocation has a chapter of this key in its queue and a
    click on Start brings no such chapter lacking a translation. *)
Lemma step_spares (novelId now : N) (e : Bulk.Event) (s : Bulk.State) (k : N) :
  Forall (λ p, BulkSpec.avoids k (BulkSpec.pending p)) (Bulk.invocations s) →
  match e with
  | Bulk.ClickStart (Some snapshot) => BulkSpec.spares k snapshot
  | _ => True
  end →
  Forall (λ p, BulkSpec.avoids k (BulkSpec.pending p))
         (Bulk.invocations (Bulk.step novelId now e s))
  ∧ Bulk.chapters (Bulk.step novelId now e s) !! k = Bulk.chapters s !! k.
Proof.
  intros Hall He. unfold Bulk.step.
  destruct e as [snapshot| | |j w].
  - (* ClickStart *)
    destruct (startBulkTranslation_spares k snapshot s Hall) as [H1 H2].
    { by destruct snapshot. }
    split; [exact H1 | by rewrite H2].
  - (* ClickPause *) by split.
  - (* ClickStop *) by split.
  - (* Settled *)
    destruct (Bulk.invocations s !! j) as [p|] eqn:Hj; [|by split].
    pose proof (Forall_lookup_1 _ _ _ _ Hall Hj) as Hav. simpl in Hav.
    destruct w as [[[]|e]| |generateContent|[[]|e]], p; simpl; try by split.
    + (* the query of the glossary is answered *)
      split; [by apply loopHead_pending | by rewrite loopHead_chapters].
    + (* the query of the glossary is rejected *)
      split; [|reflexivity]. apply Forall_insert; [exact Hall | apply avoids_nil].
    + (* the timer of the pause loop *)
      split; [by apply pauseLoop_pending | by rewrite pauseLoop_chapters].
    + (* the timer of the cooldown *)
      split; [by apply loopHead_pending | by rewrite loopHead_chapters].
    + (* the answer of the service *)
      destruct (translateChapterWithGlossary_total (Chapter.content chapter)
                  (Bulk.glossary r) generateContent (Bulk.console s))
        as (result & c' & -> & _ & _).
      split; [|reflexivity]. simpl. apply Forall_insert; [exact Hall | exact Hav].
    + (* the update is accepted *)
      split.
      * simpl. apply Forall_insert; [exact Hall | by eapply avoids_tail].
      * simpl. apply applyUpdate_other. apply Hav. by left.
    + (* the update is rejected *)
      unfold Bulk.catchItem. split.
      * apply loopHead_pending; [by eapply avoids_tail | exact Hall].
      * by rewrite loopHead_chapters.
Qed.

Lemma run_spares (novelId : N) (history : list (N * Bulk.Event)) (k : N) :
  BulkSpec.startsSpare k history →
  ∀ s : Bulk.State,
  Forall (λ p, BulkSpec.avoids k (BulkSpec.pending p)) (Bulk.invocations s) →
  Bulk.chapters (Bulk.run novelId history s) !! k = Bulk.chapters s !! k.
Proof.
  induction 1 as [|[now e] rest He _ IH]; intros s Hav; simpl; [reflexivity|].
  destruct (step_spares novelId now e s k Hav) as [Hav' Hsame].
  { simpl in He. destruct e as [[snapshot|]| | |]; auto. }
  rewrite IH by exact Hav'. exact Hsame.
Qed.

(** ** The batch translation: the [catch] of the loop body *)

Lemma failedLines_snoc_failed (c : Console) (title e : string) :
  BulkSpec.failedLines (c ++ [["Failed to translate " +:+ title; e]])
  = S (BulkSpec.failedLines c).
Proof.
  unfold BulkSpec.failedLines. rewrite List.filter_app, length_app. simpl. lia.
Qed.

(** One event adds a line of the [catch] only if it is a rejected update. *)
Lemma step_failedLines (novelId now : N) (e : Bulk.Event) (s : Bulk.State) :
  (BulkSpec.failedLines (Bulk.console (Bulk.step novelId now e s))
   ≤ BulkSpec.failedLines (Bulk.console s)
     + (if BulkSpec.isRejectedUpdate (now, e) then 1 else 0))%nat.
Proof.
  unfold Bulk.step.
  destruct e as [snapshot| | |j w].
  - unfold Bulk.startBulkTranslation. destruct snapshot as [l|]; [|simpl; lia].
    destruct (List.filter Bulk.lacksTranslation l); simpl; lia.
  - simpl; lia.
  - simpl; lia.
  - destruct (Bulk.invocations s !! j) as [p|]; [|simpl; lia].
    destruct w as [[[]|e]| |generateContent|[[]|e]], p; simpl; try lia.
    + rewrite loopHead_console. lia.
    + rewrite pauseLoop_console. lia.
    + rewrite loopHead_console. lia.
    + destruct (translateChapterWithGlossary_total (Chapter.content chapter)
                  (Bulk.glossary r) generateContent (Bulk.console s))
        as (result & c' & -> & _ & Hsame).
      simpl. lia.
    + unfold Bulk.catchItem. rewrite loopHead_console. simpl.
      rewrite failedLines_snoc_failed. lia.
Qed.

Lemma run_failedLines (novelId : N) (history : list (N * Bulk.Event)) :
  ∀ s : Bulk.State,
  (BulkSpec.failedLines (Bulk.console (Bulk.run novelId history s))
   ≤ BulkSpec.failedLines (Bulk.console s) + BulkSpec.rejectedUpdates history)%nat.
Proof.
  induction history as [|[now e] rest IH]; intros s; simpl; [lia|].
  specialize (IH (Bulk.step novelId now e s)).
  pose proof (step_failedLines novelId now e s) as Hstep.
  unfold BulkSpec.rejectedUpdates in *. simpl.
  destruct (BulkSpec.isRejectedUpdate (now, e)); simpl; lia.
Qed.

(** ** The claims about the document translation and the batch *)

(** C2 (as stated, refuted). A rejected request and a request answered
    with the text of the error message give the same returned value, so no
    test on what the caller receives tells success from failure. *)
Lemma C2_counterexample :
  ¬ ∃ succeeded : Completion string → bool,
      ∀ (content : string) (glossary : list Term.t)
        (generateContent : string → GeminiService.Answer),
        succeeded
          (GeminiService.translateChapterWithGlossary content glossary generateContent []).1
        = BulkSpec.answered (generateContent (BulkSpec.promptOf content glossary)).
Proof.
  intros (succeeded & Hdec).
  pose proof (Hdec "text" [] BulkExamples.rejects) as Hfail.
  pose proof (Hdec "text" [] (BulkExamples.answers GeminiService.errorGenerating)) as Hok.
  vm_compute in Hfail, Hok. congruence.
Qed.

(** C2 (amended). The document translation returns a string and nothing
    else, and never throws: the text of the answer when it is non-empty,
    the sentence "Translation failed." when the text is empty or missing,
    and the sentence "Error generating translation. Please check API Key
    or quota." (after a console line) when the request is rejected. *)
Theorem C2_translation_returns_sentinels
    (content : string) (glossary : list Term.t)
    (generateContent : string → GeminiService.Answer) (c : Console) :
  GeminiService.translateChapterWithGlossary content glossary generateContent c
  = match generateContent (BulkSpec.promptOf content glossary) with
    | Normal (Some text) =>
        (Normal (if String.eqb text EmptyString
                 then "Translation failed." else text), c)
    | Normal None => (Normal "Translation failed.", c)
    | Throw e =>
        (Normal "Error generating translation. Please check API Key or quota.",
         c ++ [["Translation error:"; e]])
    end.
Proof.
  rewrite translateChapterWithGlossary_run.
  destruct (generateContent _) as [[text|]|e]; reflexivity.
Qed.

(** C10. The document translation returns a non-empty string for every
    text, glossary and answer of the service, and never throws.  In every
    history of the batch, the console holds no more lines of the loop's
    [catch] than it held before plus the number of rejected updates: the
    [catch] is entered for a failure of the store only, whatever the
    service answers. *)
Theorem C10_translation_total_catch_for_store_only :
  (∀ (content : string) (glossary : list Term.t)
     (generateContent : string → GeminiService.Answer) (c : Console),
     ∃ result c',
       GeminiService.translateChapterWithGlossary content glossary generateContent c
       = (Normal result, c')
       ∧ result ≠ EmptyString)
  ∧ (∀ (novelId : N) (history : list (N * Bulk.Event)) (s : Bulk.State),
       (BulkSpec.failedLines (Bulk.console (Bulk.run novelId history s))
        ≤ BulkSpec.failedLines (Bulk.console s) + BulkSpec.rejectedUpdates history)%nat).
Proof.
  split.
  - intros content glossary generateContent c.
    destruct (translateChapterWithGlossary_total content glossary generateContent c)
      as (result & c' & Hrun & Hne & _).
    eauto.
  - intros novelId history s. apply run_failedLines.
Qed.

Lemma queued_quiet (s : Bulk.State) : BulkSpec.quiet s → BulkSpec.queued s = [].
Proof.
  unfold BulkSpec.quiet, BulkSpec.queued.
  induction 1 as [|p ps -> _ IH]; simpl; [reflexivity | exact IH].
Qed.

(** C5. A click on Start while no invocation is in flight queues exactly
    the chapters of its snapshot that lack a translation.  Through any
    history, a chapter that no snapshot of a click on Start shows as
    lacking a translation stays in the store as it is, with its
    translation and its date. *)
Theorem C5_start_touches_only_untranslated (novelId : N) (s : Bulk.State) :
  BulkSpec.quiet s →
  (∀ (now : N) (snapshot : list Chapter.t),
     BulkSpec.queued (Bulk.step novelId now (Bulk.ClickStart (Some snapshot)) s)
     = List.filter Bulk.lacksTranslation snapshot)
  ∧ (∀ (history : list (N * Bulk.Event)) (k : N),
       BulkSpec.startsSpare k history →
       Bulk.chapters (Bulk.run novelId history s) !! k = Bulk.chapters s !! k).
Proof.
  intros Hquiet. split.
  - intros now snapshot. pose proof (queued_quiet s Hquiet) as Hnone.
    unfold Bulk.step, Bulk.startBulkTranslation.
    destruct (List.filter Bulk.lacksTranslation snapshot) eqn:Hf.
    + exact Hnone.
    + unfold BulkSpec.queued in *. simpl.
      rewrite fmap_app, concat_app, Hnone. simpl. by rewrite app_nil_r.
  - intros history k Hsp. apply run_spares; [exact Hsp|].
    by apply quiet_avoids.
Qed.

Lemma C5_witness :
  let s := Bulk.run 7 BulkExamples.fullRun BulkExamples.start in
  let s' := Bulk.run 7 BulkExamples.secondRun s in
  BulkSpec.quiet s
  ∧ BulkSpec.startsSpare 1 BulkExamples.secondRun
  ∧ Bulk.chapters s' !! 1%N
    = Some (BulkExamples.chapter 1 "One" "first text" (Some "first translation") (Some 12%N))
  ∧ Bulk.translateCalls s' = Bulk.translateCalls s.
Proof.
  intros s s'.
  assert (H1 : BulkSpec.quiet s) by (vm_compute; repeat constructor).
  assert (H2 : BulkSpec.startsSpare 1 BulkExamples.secondRun).
  { repeat constructor. intros c Hc Hlacks.
    repeat (apply elem_of_cons in Hc as [->|Hc]); try discriminate Hlacks.
    inversion Hc. }
  destruct (C5_start_touches_only_untranslated 7 s H1) as [_ Hkeep].
  split; [exact H1|]. split; [exact H2|]. split.
  - subst s'. rewrite (Hkeep BulkExamples.secondRun 1%N H2). vm_compute. reflexivity.
  - vm_compute. reflexivity.
Defined.

(** A run started on a snapshot that shows the store leaves every chapter
    that the store holds with a translation as it is. *)
Corollary rerun_keeps_translated (novelId now : N) (s : Bulk.State)
    (snapshot : list Chapter.t) (history : list (N * Bulk.Event))
    (k : N) (c : Chapter.t) :
  BulkSpec.quiet s →
  (∀ c', c' ∈ snapshot → Bulk.chapters s !! Chapter.id c' = Some c') →
  Bulk.chapters s !! k = Some c →
  Bulk.lacksTranslation c = false →
  BulkSpec.startsSpare k history →
  Bulk.chapters (Bulk.run novelId ((now, Bulk.ClickStart (Some snapshot)) :: history) s) !! k
  = Some c.
Proof.
  intros Hquiet Hshows Hk Hdone Hrest.
  rewrite run_spares; [exact Hk| |by apply quiet_avoids].
  constructor; [|exact Hrest].
  simpl. intros c' Hc' Hlacks Hid.
  specialize (Hshows c' Hc'). rewrite Hid, Hk in Hshows.
  injection Hshows as <-. congruence.
Qed.

(** C3 (the store after a rejected request). The request for the first
    chapter is rejected and the one for the second is answered: the run
    goes on to the second chapter, but the first chapter is stored with
    the error sentence as its translation and with a date, and the
    console has the translator's line and no line of the loop's [catch]. *)
Theorem C3_failure_is_persisted :
  let s' := Bulk.run 7 BulkExamples.firstFails BulkExamples.start in
  Bulk.chapters s' !! 1%N
  = Some (BulkExamples.chapter 1 "One" "first text"
            (Some "Error generating translation. Please check API Key or quota.")
            (Some 12%N))
  ∧ Bulk.chapters s' !! 2%N
    = Some (BulkExamples.chapter 2 "Two" "second text"
              (Some "second translation") (Some 15%N))
  ∧ Bulk.console s' = [["Translation error:"; "quota"]]
  ∧ Bulk.invocations s' = [Bulk.Returned].
Proof.
  repeat split; vm_compute; reflexivity.
Qed.

(** What C3 fails on, in general: whatever the service does, the loop
    goes from the translator to the update, and an accepted update stores
    what the translator returned. *)
Lemma answer_is_always_stored (novelId now now' : N) (s : Bulk.State)
    (k : nat) (r : Bulk.Run) (i : nat) (chapter : Chapter.t)
    (generateContent : string → GeminiService.Answer) :
  Bulk.invocations s !! k = Some (Bulk.AwaitTranslate r i chapter) →
  let answered := Bulk.step novelId now
                    (Bulk.Settled k (Bulk.ServiceAnswered generateContent)) s in
  ∃ result,
    Bulk.invocations answered !! k = Some (Bulk.AwaitUpdate r i chapter result now)
    ∧ result ≠ EmptyString
    ∧ (generateContent (BulkSpec.promptOf (Chapter.content chapter) (Bulk.glossary r))
       = Throw "quota" → result = GeminiService.errorGenerating)
    ∧ ∀ c, Bulk.chapters s !! Chapter.id chapter = Some c →
        Chapter.translatedContent
        <$> Bulk.chapters
              (Bulk.step novelId now' (Bulk.Settled k (Bulk.UpdateSettled (Normal tt)))
                 answered)
            !! Chapter.id chapter
        = Some (Some result).
Proof.
  intros Hpc answered.
  destruct (translateChapterWithGlossary_total (Chapter.content chapter)
              (Bulk.glossary r) generateContent (Bulk.console s))
    as (result & c' & Hrun & Hne & _).
  assert (Hstep : answered
                  = Bulk.goto k (Bulk.AwaitUpdate r i chapter result now)
                      (Bulk.withConsole c' s)).
  { subst answered. unfold Bulk.step. rewrite Hpc. simpl. rewrite Hrun. reflexivity. }
  assert (Hat : Bulk.invocations answered !! k
                = Some (Bulk.AwaitUpdate r i chapter result now)).
  { rewrite Hstep. simpl. apply list_lookup_insert_eq. by eapply lookup_lt_Some. }
  exists result. split; [exact Hat|]. split; [exact Hne|]. split.
  - intros Hthrow. rewrite translateChapterWithGlossary_run, Hthrow in Hrun.
    congruence.
  - intros c Hc. unfold Bulk.step. rewrite Hat. simpl. rewrite Hstep. simpl.
    unfold Bulk.applyUpdate. rewrite lookup_alter_eq, Hc. reflexivity.
Qed.

(** C4 (a stop during a pause). The user pauses during the first chapter
    and stops the run while it waits in the pause loop before the second:
    when the timer of the pause loop fires, the second chapter is given to
    the translator although the stop signal is set, and its translation is
    stored. *)
Theorem C4_stop_during_pause_still_dispatches :
  let paused := Bulk.run 7 BulkExamples.untilPaused BulkExamples.start in
  let stopped := Bulk.run 7 BulkExamples.stopWhilePaused paused in
  let final := Bulk.run 7 BulkExamples.afterStop stopped in
  (Bulk.translateCalls paused = [1%N] ∧ Bulk.bulkPausedRef paused = true
   ∧ Bulk.stopSignal paused = false)
  ∧ (Bulk.stopSignal stopped = true ∧ Bulk.translateCalls stopped = [1%N; 2%N])
  ∧ Bulk.chapters final !! 2%N
    = Some (BulkExamples.chapter 2 "Two" "second text"
              (Some "second translation") (Some 19%N))
  ∧ Bulk.invocations final = [Bulk.Returned].
Proof.
  repeat split; vm_compute; reflexivity.
Qed.

(** What C4 fails on, in general: a stop set while an invocation waits
    in the pause loop ends the pause, and the chapter is dispatched. *)
Lemma stop_during_pause_dispatches (novelId now now' : N) (s : Bulk.State)
    (k : nat) (r : Bulk.Run) (i : nat) (chapter : Chapter.t) :
  Bulk.invocations s !! k = Some (Bulk.PauseWait r i chapter) →
  let s' := Bulk.step novelId now' (Bulk.Settled k Bulk.TimerFired)
              (Bulk.step novelId now Bulk.ClickStop s) in
  Bulk.invocations s' !! k = Some (Bulk.AwaitTranslate r i chapter)
  ∧ Bulk.stopSignal s' = true
  ∧ Bulk.translateCalls s' = Bulk.translateCalls s ++ [Chapter.id chapter].
Proof.
  intros Hpc s'. subst s'. unfold Bulk.step. simpl. rewrite Hpc. simpl.
  unfold Bulk.pauseLoop. simpl.
  split; [|by split]. apply list_lookup_insert_eq. by eapply lookup_lt_Some.
Qed.

(** The part of C4 that holds: with the stop signal set at the head of
    the loop, the invocation returns without a call of the translator. *)
Lemma stop_at_loop_head (k : nat) (r : Bulk.Run) (i : nat) (s : Bulk.State) :
  Bulk.stopSignal s = true →
  Bulk.invocations (Bulk.loopHead k r i s) = <[k := Bulk.Returned]> (Bulk.invocations s)
  ∧ Bulk.translateCalls (Bulk.loopHead k r i s) = Bulk.translateCalls s
  ∧ Bulk.chapters (Bulk.loopHead k r i s) = Bulk.chapters s.
Proof.
  intros Hstop. unfold Bulk.loopHead. rewrite Hstop.
  destruct (Bulk.untranslated r !! i); auto.
Qed.

Example stop_without_pause_leaves_rest :
  let s' := Bulk.run 7 BulkExamples.stopWhileTranslating BulkExamples.start in
  Bulk.translateCalls s' = [1%N]
  ∧ Bulk.chapters s' !! 2%N = Some BulkExamples.two
  ∧ Bulk.invocations s' = [Bulk.Returned].
Proof. repeat split; vm_compute; reflexivity. Qed.

(** A rejected update does enter the [catch], and the run goes on. *)
Example rejected_update_is_caught :
  let s' := Bulk.run 7
    [ (10, Bulk.ClickStart (Some BulkExamples.snapshot));
      (11, Bulk.Settled 0 (Bulk.GlossaryLoaded (Normal tt)));
      (12, Bulk.Settled 0 (Bulk.ServiceAnswered (BulkExamples.answers "first translation")));
      (13, Bulk.Settled 0 (Bulk.UpdateSettled (Throw "disk"))) ]%N BulkExamples.start in
  Bulk.console s' = [["Failed to translate One"; "disk"]]
  ∧ Bulk.chapters s' !! 1%N = Some BulkExamples.one
  ∧ Bulk.translateCalls s' = [1%N; 2%N].
Proof. repeat split; vm_compute; reflexivity. Qed.

(** A click on Start after a stop, while the stopped invocation has not
    returned, starts a second invocation and clears the stop signal: both
    invocations go through the queue, each chapter is given to the
    translator twice, and the later answer overwrites the earlier one. *)
Example second_start_runs_beside_the_first :
  let s' := Bulk.run 7 BulkExamples.startAfterStop BulkExamples.start in
  Bulk.translateCalls s' = [1; 1; 2; 2]%N
  ∧ Bulk.stopSignal s' = false
  ∧ Bulk.chapters s' !! 1%N
    = Some (BulkExamples.chapter 1 "One" "first text" (Some "first again") (Some 17%N))
  ∧ Bulk.invocations s'
    = [ Bulk.AwaitTranslate (Bulk.mkRun [BulkExamples.one; BulkExamples.two] []) 1
          BulkExamples.two;
        Bulk.AwaitTranslate (Bulk.mkRun [BulkExamples.one; BulkExamples.two] []) 1
          BulkExamples.two ].
Proof. repeat split; vm_compute; reflexivity. Qed.

(** * Further properties of the deep scan *)

(** ** The sample *)

(** X1. The sample of a non-empty corpus holds [2 * min 3 n + 1]
    documents, so never more than seven, and each of them is a document of
    the corpus; the sample of an empty corpus is empty. *)
Theorem X1_sample_size (chapters : list Chapter.t) :
  List.length (sampleChapters chapters)
  = (if decide (chapters = []) then 0
     else 2 * Nat.min 3 (List.length chapters) + 1)%nat
  ∧ (List.length (sampleChapters chapters) ≤ 7)%nat
  ∧ ∀ c, c ∈ sampleChapters chapters → c ∈ chapters.
Proof.
  destruct (decide (chapters = [])) as [->|Hne].
  - split; [reflexivity|]. split; [simpl; lia|]. intros c Hc. exact Hc.
  - destruct (middle_exists chapters Hne) as (mid & Hmid).
    rewrite (sampleChapters_eq chapters mid Hmid).
    rewrite !length_app, length_take, length_drop.
    assert (0 < List.length chapters)%nat by (destruct chapters; [congruence | simpl; lia]).
    cbn [List.length].
    split; [lia|]. split; [lia|].
    intros c Hc. apply elem_of_app in Hc as [Hc|Hc].
    + by eapply subseteq_take.
    + apply elem_of_cons in Hc as [->|Hc].
      * eapply list_elem_of_lookup_2; eauto.
      * by eapply subseteq_drop.
Qed.

(** ** What a scan does to the glossary in any environment *)

Section ScanAny.

Variable toLowerCase : string → string.
Variable env : Scan.Env.
Variable novelId : N.

(** The loop stores the rows of an initial segment of the terms, whatever
    the service and the store do. *)
Lemma translateTerms_any (text : string) (total : nat) (terms : list RawTerm.t) :
  Forall (λ t, Js.truthy (RawTerm.original t) = true) terms →
  ∀ (k : nat) (s : Scan.State),
  ∃ (m : nat) (c : Completion unit) (s' : Scan.State),
    translateTerms env novelId text total terms k s = (c, s')
    ∧ (m ≤ List.length terms)%nat
    ∧ Glossary.rows (Scan.glossary s')
      = Glossary.rows (Scan.glossary s)
          ++ ScanSpec.insertedFrom env novelId text
               (Glossary.nextKey (Scan.glossary s)) k (take m terms)
    ∧ Glossary.nextKey (Scan.glossary s')
      = (Glossary.nextKey (Scan.glossary s) + N.of_nat m)%N.
Proof.
  induction 1 as [|t rest Ht _ IH]; intros k s.
  - exists 0%nat, (Normal tt), s. simpl. rewrite app_nil_r, N.add_0_r. auto.
  - destruct (Scan.glossaryAdd env k) as [[]|e] eqn:Hadd.
    + rewrite translateTerms_cons by auto.
      destruct (IH (S k) (ScanSpec.afterTerm env novelId text total k t s))
        as (m & c & s' & Hrun & Hm & Hrows & Hkey).
      exists (S m), c, s'. split; [exact Hrun|]. split; [simpl; lia|].
      split.
      * rewrite Hrows. simpl. rewrite <- app_assoc. reflexivity.
      * rewrite Hkey. simpl. lia.
    + destruct (translateTerms_add_throws env novelId text total t rest k s e Ht Hadd)
        as (s' & Hrun & Hsame).
      exists 0%nat, (Throw e), s'. split; [exact Hrun|]. split; [lia|].
      rewrite Hsame. simpl. rewrite app_nil_r, N.add_0_r. auto.
Qed.

Lemma scanBody_any (chapters : list Chapter.t) (s : Scan.State) :
  let text := combinedText chapters in
  let new := uniqueNewTerms toLowerCase (ScanSpec.extracted env text)
               (Glossary.whereNovel novelId (Scan.glossary s)) in
  ∃ (m : nat) (c : Completion unit) (s' : Scan.State),
    scanBody toLowerCase env novelId chapters s = (c, s')
    ∧ (m ≤ List.length new)%nat
    ∧ Glossary.rows (Scan.glossary s')
      = Glossary.rows (Scan.glossary s)
          ++ ScanSpec.insertedFrom env novelId text
               (Glossary.nextKey (Scan.glossary s)) 0 (take m new)
    ∧ Glossary.nextKey (Scan.glossary s')
      = (Glossary.nextKey (Scan.glossary s) + N.of_nat m)%N.
Proof.
  intros text new.
  unfold scanBody. fold text.
  unfold Scan.setScanProgress at 1. rewrite bind_modify.
  match goal with
  | |- context [bind (Scan.onConsole _) _ ?s0] =>
      destruct (extractTermsFromText_run env text (Scan.console s0)) as (c' & Hex);
      unfold Scan.onConsole; rewrite (bind_zoom _ _ _ _ s0 _ _ Hex)
  end.
  destruct (Scan.glossaryToArray env) as [[]|e].
  - rewrite bind_await_Normal, bind_gets.
    cbn [Scan.withConsole Scan.glossary]. fold new.
    unfold Scan.setScanProgress at 1. rewrite bind_modify.
    match goal with
    | |- context [bind (translateTerms env novelId text (List.length new) new 0) _ ?s0] =>
        destruct (translateTerms_any text (List.length new) new
                    (uniqueNewTerms_truthy toLowerCase _ _) 0%nat s0)
          as (m & c & s1 & Hrun & Hm & Hrows & Hkey);
        unfold bind at 1; rewrite Hrun
    end.
    cbn [Scan.glossary] in Hrows, Hkey.
    exists m. destruct c as [[]|e].
    + eexists _, _. split; [reflexivity|]. auto.
    + eexists _, _. split; [reflexivity|]. auto.
  - rewrite bind_await_Throw.
    exists 0%nat. eexists _, _. split; [reflexivity|]. split; [lia|].
    simpl. rewrite app_nil_r, N.add_0_r. auto.
Qed.

(** The glossary after a scan is the glossary before it followed by the
    rows of an initial segment of the resolved candidates. *)
Lemma runDeepScan_any (chapters : option (list Chapter.t)) (s : Scan.State) :
  let text := ScanReport.textOf chapters in
  let new := ScanReport.resolved toLowerCase env novelId chapters s in
  let s' := runDeepScan toLowerCase env novelId chapters s in
  ∃ m : nat,
    (m ≤ List.length new)%nat
    ∧ Glossary.rows (Scan.glossary s')
      = Glossary.rows (Scan.glossary s)
          ++ ScanSpec.insertedFrom env novelId text
               (Glossary.nextKey (Scan.glossary s)) 0 (take m new)
    ∧ Glossary.nextKey (Scan.glossary s')
      = (Glossary.nextKey (Scan.glossary s) + N.of_nat m)%N.
Proof.
  intros text new s'.
  assert (Hnone : Glossary.rows (Scan.glossary s)
                  = Glossary.rows (Scan.glossary s)
                      ++ ScanSpec.insertedFrom env novelId text
                           (Glossary.nextKey (Scan.glossary s)) 0 (take 0 new)
                  ∧ Glossary.nextKey (Scan.glossary s)
                    = (Glossary.nextKey (Scan.glossary s) + N.of_nat 0)%N).
  { simpl. rewrite app_nil_r, N.add_0_r. auto. }
  destruct chapters as [[|c0 cs]|]; subst s'; simpl;
    try (exists 0%nat; split; [lia | exact Hnone]).
  enough (∃ (m : nat) (s1 : Scan.State),
    Scan.glossary (runDeepScan toLowerCase env novelId (Some (c0 :: cs)) s)
    = Scan.glossary s1
    ∧ (m ≤ List.length new)%nat
    ∧ Glossary.rows (Scan.glossary s1)
      = Glossary.rows (Scan.glossary s)
          ++ ScanSpec.insertedFrom env novelId text
               (Glossary.nextKey (Scan.glossary s)) 0 (take m new)
    ∧ Glossary.nextKey (Scan.glossary s1)
      = (Glossary.nextKey (Scan.glossary s) + N.of_nat m)%N)
    as (m & s1 & Hg & Hm & Hrows & Hkey).
  { exists m. simpl in Hg. rewrite Hg. auto. }
  unfold runDeepScan, Scan.setIsScanning, Scan.setScanProgress at 1.
  rewrite !bind_modify. unfold tryCatch.
  match goal with
  | |- context [scanBody toLowerCase env novelId (c0 :: cs) ?s0] =>
      destruct (scanBody_any (c0 :: cs) s0) as (m & c & s1 & Hrun & Hm & Hrows & Hkey);
      rewrite Hrun
  end.
  exists m, s1. split; [|split; [exact Hm | split; [exact Hrows | exact Hkey]]].
  destruct c as [[]|e]; reflexivity.
Qed.

End ScanAny.

(** ** Rows of resolved candidates *)

Lemma insertedFrom_Forall (env : Scan.Env) (novelId : N) (text : string)
    (Q : Term.t → Prop) (terms : list RawTerm.t) :
  (∀ key k t, t ∈ terms → Q (ScanSpec.insertedTerm env novelId text key k t)) →
  ∀ key k, Forall Q (ScanSpec.insertedFrom env novelId text key k terms).
Proof.
  induction terms as [|t rest IH]; intros HQ key k; simpl; constructor.
  - apply HQ. by left.
  - apply IH. intros key' k' t' Ht'. apply HQ. by right.
Qed.

Lemma insertedFrom_elem (env : Scan.Env) (novelId : N) (text : string)
    (terms : list RawTerm.t) (t : RawTerm.t) :
  t ∈ terms →
  ∀ key k, ∃ key' k',
    ScanSpec.insertedTerm env novelId text key' k' t
    ∈ ScanSpec.insertedFrom env novelId text key k terms.
Proof.
  induction 1 as [t rest|t t' rest _ IH]; intros key k; simpl.
  - exists key, k. by left.
  - destruct (IH (key + 1)%N (S k)) as (key' & k' & Hin).
    exists key', k'. by right.
Qed.

Lemma insertedFrom_ids (env : Scan.Env) (novelId : N) (text : string)
    (terms : list RawTerm.t) :
  ∀ key k,
  Term.id <$> ScanSpec.insertedFrom env novelId text key k terms
  = (λ j, Some (key + N.of_nat j)%N) <$> seq 0 (List.length terms).
Proof.
  induction terms as [|t rest IH]; intros key k; simpl; [reflexivity|].
  rewrite N.add_0_r. f_equal.
  rewrite IH, <- fmap_S_seq, <- list_fmap_compose.
  apply list_fmap_ext. intros _ j _. simpl. f_equal. lia.
Qed.

Lemma filter_nil_iff {A} (keep : A → bool) (l : list A) :
  (∀ x, x ∈ l → keep x = false) → List.filter keep l = [].
Proof.
  induction l as [|x l IH]; intros H; simpl; [reflexivity|].
  rewrite (H x) by (by left). apply IH. intros y Hy. apply H. by right.
Qed.

Lemma whereNovel_elem (novelId : N) (t : Glossary.table) (r : Term.t) :
  r ∈ Glossary.whereNovel novelId t ↔ r ∈ Glossary.rows t ∧ Term.novelId r = novelId.
Proof.
  unfold Glossary.whereNovel. rewrite !list_elem_of_In, filter_In, N.eqb_eq. reflexivity.
Qed.

(** ** Further claims about the scan *)

(** X2. Whatever the extractor, the term service and the store do, a scan
    only appends to the glossary: the rows it finds, locked or not, are
    still there afterwards, unchanged and in the same places, the key
    generator does not go back, and at most one row is added for each
    resolved candidate. *)
Theorem X2_scan_appends_only
    (toLowerCase : string → string) (env : Scan.Env) (novelId : N)
    (chapters : option (list Chapter.t)) (s : Scan.State) :
  let s' := runDeepScan toLowerCase env novelId chapters s in
  Glossary.rows (Scan.glossary s) `prefix_of` Glossary.rows (Scan.glossary s')
  ∧ (Glossary.nextKey (Scan.glossary s) ≤ Glossary.nextKey (Scan.glossary s'))%N
  ∧ (List.length (Glossary.rows (Scan.glossary s'))
     ≤ List.length (Glossary.rows (Scan.glossary s))
       + List.length (ScanReport.resolved toLowerCase env novelId chapters s))%nat.
Proof.
  intros s'.
  destruct (runDeepScan_any toLowerCase env novelId chapters s) as (m & Hm & Hrows & Hkey).
  fold s' in Hrows, Hkey. split; [|split].
  - rewrite Hrows. by eexists.
  - rewrite Hkey. lia.
  - rewrite Hrows, length_app, insertedFrom_length, length_take. lia.
Qed.

(** X3. Every row that a scan adds is unlocked, belongs to the novel of
    the dashboard, and has a non-empty original that matches, without
    regard to case, none of the novel's terms that were in the glossary
    before the scan. *)
Theorem X3_scan_adds_new_unlocked_terms
    (toLowerCase : string → string) (env : Scan.Env) (novelId : N)
    (chapters : option (list Chapter.t)) (s : Scan.State) :
  let s' := runDeepScan toLowerCase env novelId chapters s in
  Forall (λ row,
            Term.isLocked row = false
            ∧ Term.novelId row = novelId
            ∧ Term.original row ≠ EmptyString
            ∧ ∀ e, e ∈ Glossary.whereNovel novelId (Scan.glossary s) →
                   toLowerCase (Term.original e) ≠ toLowerCase (Term.original row))
         (drop (List.length (Glossary.rows (Scan.glossary s)))
               (Glossary.rows (Scan.glossary s'))).
Proof.
  intros s'.
  destruct (runDeepScan_any toLowerCase env novelId chapters s) as (m & Hm & Hrows & _).
  fold s' in Hrows. rewrite Hrows, drop_app_length.
  apply insertedFrom_Forall. intros key k t Ht.
  apply subseteq_take in Ht. apply uniqueNewTerms_elem in Ht as [_ Ht].
  apply isNew_true in Ht as (o & Ho & Hne & Hfresh).
  unfold ScanSpec.insertedTerm, ScanSpec.originalOf. rewrite Ho. simpl. auto.
Qed.

Lemma wellKeyed_inserted (env : Scan.Env) (novelId : N) (text : string)
    (terms : list RawTerm.t) :
  ∀ (rows : list Term.t) (key : N) (k : nat),
  ScanReport.wellKeyed (Glossary.mk rows key) →
  ScanReport.wellKeyed
    (Glossary.mk (rows ++ ScanSpec.insertedFrom env novelId text key k terms)
                 (key + N.of_nat (List.length terms))).
Proof.
  induction terms as [|t rest IH]; intros rows key k Hwf; simpl.
  - by rewrite app_nil_r, N.add_0_r.
  - replace (key + N.of_nat (S (List.length rest)))%N
      with (key + 1 + N.of_nat (List.length rest))%N by lia.
    rewrite (cons_middle _ rows), app_assoc. apply IH.
    destruct Hwf as [Hbound Hnd]. simpl in *. split; simpl.
    + apply Forall_app. split.
      * eapply Forall_impl; [exact Hbound|]. intros r (j & Hj & Hlt). exists j. split; [exact Hj | lia].
      * constructor; [|constructor]. exists key. split; [reflexivity | lia].
    + rewrite fmap_app. apply NoDup_app. split; [exact Hnd|]. split.
      * intros x Hx Hin. apply list_elem_of_fmap in Hx as (r & -> & Hr).
        apply list_elem_of_singleton in Hin.
        rewrite Forall_forall in Hbound. destruct (Hbound r Hr) as (j & Hj & Hlt).
        simpl in Hin. rewrite Hj in Hin. injection Hin as ->. lia.
      * apply NoDup_singleton.
Qed.

(** X7. A scan keeps the keys of the glossary in order: when every row
    has a key below the key generator and no key is used twice, the same
    holds after the scan, whatever the environment does. *)
Theorem X7_scan_keeps_keys_unique
    (toLowerCase : string → string) (env : Scan.Env) (novelId : N)
    (chapters : option (list Chapter.t)) (s : Scan.State) :
  ScanReport.wellKeyed (Scan.glossary s) →
  ScanReport.wellKeyed
    (Scan.glossary (runDeepScan toLowerCase env novelId chapters s)).
Proof.
  intros Hwf.
  destruct (runDeepScan_any toLowerCase env novelId chapters s) as (m & Hm & Hrows & Hkey).
  pose proof (wellKeyed_inserted env novelId (ScanReport.textOf chapters)
                (take m (ScanReport.resolved toLowerCase env novelId chapters s))
                (Glossary.rows (Scan.glossary s)) (Glossary.nextKey (Scan.glossary s)) 0) as H.
  rewrite length_take, Nat.min_l in H by exact Hm.
  unfold ScanReport.wellKeyed in *. simpl in H.
  rewrite Hrows, Hkey. apply H. exact Hwf.
Qed.

Lemma X7_witness :
  ScanReport.wellKeyed (Scan.glossary ScanExamples.start)
  ∧ ScanReport.wellKeyed
      (Scan.glossary
         (runDeepScan Js.toLowerCaseAscii ScanExamples.envThrice 7
            (Some ScanExamples.corpus) ScanExamples.start))
  ∧ Term.id <$> Glossary.rows
      (Scan.glossary
         (runDeepScan Js.toLowerCaseAscii ScanExamples.envThrice 7
            (Some ScanExamples.corpus) ScanExamples.start))
    = [Some 1; Some 2; Some 3]%N.
Proof.
  assert (H : ScanReport.wellKeyed (Scan.glossary ScanExamples.start)).
  { split; simpl; [constructor | apply NoDup_nil; exact I]. }
  split; [exact H|]. split.
  - apply (X7_scan_keeps_keys_unique Js.toLowerCaseAscii ScanExamples.envThrice 7
             (Some ScanExamples.corpus) ScanExamples.start H).
  - vm_compute. reflexivity.
Defined.

(** X8. After a scan in which the store answered, the candidates of its
    extraction resolve to nothing against the glossary it leaves: a
    second scan that extracts the same candidates adds no term. *)
Theorem X8_rescan_resolves_nothing
    (toLowerCase : string → string) (env : Scan.Env) (novelId : N)
    (chapters : list Chapter.t) (s : Scan.State) :
  chapters ≠ [] →
  ScanSpec.storeOk env →
  let s' := runDeepScan toLowerCase env novelId (Some chapters) s in
  uniqueNewTerms toLowerCase (ScanSpec.extracted env (combinedText chapters))
    (Glossary.whereNovel novelId (Scan.glossary s')) = [].
Proof.
  intros Hne Hok s'.
  destruct (runDeepScan_ok toLowerCase env novelId chapters s Hne Hok) as (Hrows & _ & _).
  fold s' in Hrows.
  apply filter_nil_iff. intros t Ht.
  destruct (isNew toLowerCase (existingOriginals toLowerCase _) t) eqn:Hnew; [|reflexivity].
  exfalso. apply isNew_true in Hnew as (o & Ho & Hne' & Hfresh).
  assert (Hold : t ∈ uniqueNewTerms toLowerCase
                   (ScanSpec.extracted env (combinedText chapters))
                   (Glossary.whereNovel novelId (Scan.glossary s))).
  { apply uniqueNewTerms_elem. split; [exact Ht|].
    apply isNew_true. exists o. split; [exact Ho|]. split; [exact Hne'|].
    intros e He. apply Hfresh. apply whereNovel_elem in He as [He Hn].
    apply whereNovel_elem. split; [|exact Hn].
    rewrite Hrows. apply elem_of_app. by left. }
  destruct (insertedFrom_elem env novelId (combinedText chapters) _ t Hold
              (Glossary.nextKey (Scan.glossary s)) 0%nat) as (key & k & Hin).
  apply (Hfresh (ScanSpec.insertedTerm env novelId (combinedText chapters) key k t)).
  - apply whereNovel_elem. split; [|reflexivity].
    rewrite Hrows. apply elem_of_app. by right.
  - unfold ScanSpec.insertedTerm, ScanSpec.originalOf. rewrite Ho. reflexivity.
Qed.

Lemma X8_witness :
  let s' := runDeepScan Js.toLowerCaseAscii ScanExamples.envFirstFails 7
              (Some ScanExamples.longCorpus) ScanExamples.start in
  ScanExamples.longCorpus ≠ []
  ∧ ScanSpec.storeOk ScanExamples.envFirstFails
  ∧ List.length (Glossary.rows (Scan.glossary s')) = 2%nat
  ∧ uniqueNewTerms Js.toLowerCaseAscii
      (ScanSpec.extracted ScanExamples.envFirstFails (combinedText ScanExamples.longCorpus))
      (Glossary.whereNovel 7 (Scan.glossary s')) = [].
Proof.
  intros s'.
  assert (H1 : ScanExamples.longCorpus ≠ []) by discriminate.
  assert (H2 : ScanSpec.storeOk ScanExamples.envFirstFails)
    by (split; [reflexivity | intros k; reflexivity]).
  split; [exact H1|]. split; [exact H2|]. split.
  - vm_compute. reflexivity.
  - apply (X8_rescan_resolves_nothing Js.toLowerCaseAscii ScanExamples.envFirstFails 7
             ScanExamples.longCorpus ScanExamples.start H1 H2).
Defined.

(** The loop when the store rejects the row of the term at position
    [k0] and has accepted the rows before it. *)
Lemma translateTerms_rejected (env : Scan.Env) (novelId : N) (text : string)
    (total k0 : nat) (e : string) (terms : list RawTerm.t) :
  Forall (λ t, Js.truthy (RawTerm.original t) = true) terms →
  Scan.glossaryAdd env k0 = Throw e →
  ∀ (k : nat) (s : Scan.State),
  (∀ j, (k ≤ j < k0)%nat → Scan.glossaryAdd env j = Normal tt) →
  (k ≤ k0 < k + List.length terms)%nat →
  ∃ s', translateTerms env novelId text total terms k s = (Throw e, s')
        ∧ Glossary.rows (Scan.glossary s')
          = Glossary.rows (Scan.glossary s)
              ++ ScanSpec.insertedFrom env novelId text
                   (Glossary.nextKey (Scan.glossary s)) k (take (k0 - k) terms).
Proof.
  intros Hall Hthrow. induction Hall as [|t rest Ht _ IH]; intros k s Hacc Hk.
  - simpl in Hk. lia.
  - destruct (decide (k = k0)) as [->|Hlt].
    + destruct (translateTerms_add_throws env novelId text total t rest k0 s e Ht Hthrow)
        as (s' & Hrun & Hsame).
      exists s'. split; [exact Hrun|].
      rewrite Hsame, Nat.sub_diag. simpl. by rewrite app_nil_r.
    + rewrite translateTerms_cons by (auto; apply Hacc; lia).
      destruct (IH (S k) (ScanSpec.afterTerm env novelId text total k t s)) as (s' & Hrun & Hrows).
      { intros j Hj. apply Hacc. lia. }
      { simpl in Hk. lia. }
      exists s'. split; [exact Hrun|].
      rewrite Hrows. replace (k0 - k)%nat with (S (k0 - S k))%nat by lia.
      simpl. rewrite <- app_assoc. reflexivity.
Qed.

(** X4. When the store accepts the rows of the first [k] resolved
    candidates and rejects the next one, the scan ends in its [catch]:
    the [k] rows stay in the glossary, the last label is "Scan Failed."
    and the error is the last line on the console. *)
Theorem X4_store_failure_keeps_stored_rows
    (toLowerCase : string → string) (env : Scan.Env) (novelId : N)
    (chapters : list Chapter.t) (s : Scan.State) (k : nat) (e : string) :
  chapters ≠ [] →
  ScanReport.rejectsAt env k e →
  let text := combinedText chapters in
  let new := uniqueNewTerms toLowerCase (ScanSpec.extracted env text)
               (Glossary.whereNovel novelId (Scan.glossary s)) in
  (k < List.length new)%nat →
  let s' := runDeepScan toLowerCase env novelId (Some chapters) s in
  Glossary.rows (Scan.glossary s')
  = Glossary.rows (Scan.glossary s)
      ++ ScanSpec.insertedFrom env novelId text (Glossary.nextKey (Scan.glossary s)) 0
           (take k new)
  ∧ last (Scan.scanProgress s') = Some "Scan Failed."
  ∧ last (Scan.console s') = Some [e].
Proof.
  intros Hne (Hquery & Hacc & Hthrow) text new Hk s'.
  destruct chapters as [|c0 cs]; [congruence|].
  subst s'. rewrite runDeepScan_unfold, scanBody_unfold, Hquery.
  fold text. cbn [ScanReport.extracting ScanReport.started Scan.glossary]. fold new.
  match goal with
  | |- context [translateTerms env novelId text (List.length new) new 0 ?s0] =>
      destruct (translateTerms_rejected env novelId text (List.length new) k e new
                  (uniqueNewTerms_truthy toLowerCase _ _) Hthrow 0%nat s0)
        as (s1 & Hrun & Hrows); [intros j Hj; apply Hacc; lia | lia |];
      rewrite Hrun
  end.
  cbn [ScanReport.failed ScanReport.labelled Scan.glossary Scan.scanProgress Scan.console] in *.
  rewrite Nat.sub_0_r in Hrows.
  split; [exact Hrows|]. split; apply last_snoc.
Qed.

Lemma X4_witness :
  let s' := runDeepScan Js.toLowerCaseAscii ScanExamples.envStoreFails 7
              (Some ScanExamples.longCorpus) ScanExamples.start in
  ScanExamples.longCorpus ≠ []
  ∧ ScanReport.rejectsAt ScanExamples.envStoreFails 1 "QuotaExceededError"
  ∧ Term.original <$> Glossary.rows (Scan.glossary s') = ["Zhang San"]
  ∧ last (Scan.scanProgress s') = Some "Scan Failed."
  ∧ last (Scan.console s') = Some ["QuotaExceededError"].
Proof.
  intros s'.
  assert (H1 : ScanExamples.longCorpus ≠ []) by discriminate.
  assert (H2 : ScanReport.rejectsAt ScanExamples.envStoreFails 1 "QuotaExceededError").
  { split; [reflexivity|]. split; [|reflexivity].
    intros j Hj. destruct j; [reflexivity | lia]. }
  assert (H3 : (1 < List.length
                      (uniqueNewTerms Js.toLowerCaseAscii
                         (ScanSpec.extracted ScanExamples.envStoreFails
                            (combinedText ScanExamples.longCorpus))
                         (Glossary.whereNovel 7 (Scan.glossary ScanExamples.start))))%nat)
    by (vm_compute; lia).
  destruct (X4_store_failure_keeps_stored_rows Js.toLowerCaseAscii
              ScanExamples.envStoreFails 7 ScanExamples.longCorpus ScanExamples.start
              1 "QuotaExceededError" H1 H2 H3) as (Hrows & Hlabel & Hconsole).
  split; [exact H1|]. split; [exact H2|]. split; [|split].
  - subst s'. rewrite Hrows. vm_compute. reflexivity.
  - exact Hlabel.
  - exact Hconsole.
Defined.

(** X5. When the extraction fails and the store answers, the scan treats
    it as an extraction without candidates: it writes the error on the
    console, asks for no term, leaves the glossary as it is and reports a
    completed scan that found 0 new terms. *)
Theorem X5_extraction_failure_is_no_candidate
    (toLowerCase : string → string) (env : Scan.Env) (novelId : N)
    (chapters : list Chapter.t) (s : Scan.State) (e : string) :
  chapters ≠ [] →
  Scan.generateAndParse env (GeminiService.extractPrompt (combinedText chapters)) = Throw e →
  Scan.glossaryToArray env = Normal tt →
  let s' := runDeepScan toLowerCase env novelId (Some chapters) s in
  Scan.glossary s' = Scan.glossary s
  ∧ Scan.termRequests s' = Scan.termRequests s
  ∧ Scan.console s' = Scan.console s ++ [["Extraction error:"; e]]
  ∧ Scan.scanProgress s'
    = Scan.scanProgress s
        ++ [ "Initializing Deep Scan..."; "Extracting entities (AI)...";
             "Found 0 new terms. Translating..."; "Scan Complete!" ].
Proof.
  intros Hne Hfail Hquery s'.
  destruct chapters as [|c0 cs]; [congruence|].
  subst s'. rewrite runDeepScan_unfold, scanBody_unfold, Hquery.
  unfold ScanSpec.extracted, ScanReport.extracting, ScanReport.extractConsole.
  rewrite Hfail. simpl.
  repeat split. rewrite <- !app_assoc. reflexivity.
Qed.

Lemma X5_witness :
  let s' := runDeepScan Js.toLowerCaseAscii ScanExamples.envNoExtraction 7
              (Some ScanExamples.corpus) ScanExamples.start in
  ScanExamples.corpus ≠ []
  ∧ Scan.glossary s' = Glossary.empty
  ∧ Scan.console s' = [["Extraction error:"; "SyntaxError"]]
  ∧ last (Scan.scanProgress s') = Some "Scan Complete!".
Proof.
  intros s'.
  assert (H1 : ScanExamples.corpus ≠ []) by discriminate.
  destruct (X5_extraction_failure_is_no_candidate Js.toLowerCaseAscii
              ScanExamples.envNoExtraction 7 ScanExamples.corpus ScanExamples.start
              "SyntaxError" H1 eq_refl eq_refl) as (Hg & _ & Hc & Hp).
  split; [exact H1|]. split; [exact Hg|]. split; [exact Hc|].
  subst s'. rewrite Hp. reflexivity.
Defined.

(** The labels of the loop when the store accepts every row. *)
Lemma translateTerms_labels (env : Scan.Env) (novelId : N) (text : string)
    (total : nat) (terms : list RawTerm.t) :
  (∀ j, Scan.glossaryAdd env j = Normal tt) →
  Forall (λ t, Js.truthy (RawTerm.original t) = true) terms →
  ∀ (k : nat) (s : Scan.State),
  ∃ s', translateTerms env novelId text total terms k s = (Normal tt, s')
        ∧ Scan.scanProgress s'
          = Scan.scanProgress s
              ++ map (ScanReport.translatingLabel total) (seq (S k) (List.length terms)).
Proof.
  intros Hadd Hall. induction Hall as [|t rest Ht _ IH]; intros k s.
  - exists s. simpl. by rewrite app_nil_r.
  - rewrite translateTerms_cons by auto.
    destruct (IH (S k) (ScanSpec.afterTerm env novelId text total k t s)) as (s' & Hrun & Hp).
    exists s'. split; [exact Hrun|].
    rewrite Hp. simpl. rewrite <- app_assoc. reflexivity.
Qed.

(** X6. A scan in which the store answers reports, in this order: the
    two opening labels, the number [n] of resolved candidates, one
    counter label [k/n] for each stored term with [k] running from 1 to
    [n], and the label of the completed scan. *)
Theorem X6_scan_labels
    (toLowerCase : string → string) (env : Scan.Env) (novelId : N)
    (chapters : list Chapter.t) (s : Scan.State) :
  chapters ≠ [] →
  ScanSpec.storeOk env →
  let new := uniqueNewTerms toLowerCase (ScanSpec.extracted env (combinedText chapters))
               (Glossary.whereNovel novelId (Scan.glossary s)) in
  Scan.scanProgress (runDeepScan toLowerCase env novelId (Some chapters) s)
  = Scan.scanProgress s ++ ScanReport.completedLabels (List.length new).
Proof.
  intros Hne [Hquery Hadd] new.
  destruct chapters as [|c0 cs]; [congruence|].
  rewrite runDeepScan_unfold, scanBody_unfold, Hquery.
  cbn [ScanReport.extracting ScanReport.started Scan.glossary]. fold new.
  match goal with
  | |- context [translateTerms env novelId ?text (List.length new) new 0 ?s0] =>
      destruct (translateTerms_labels env novelId text (List.length new) new Hadd
                  (uniqueNewTerms_truthy toLowerCase _ _) 0%nat s0)
        as (s1 & Hrun & Hp);
      rewrite Hrun
  end.
  cbn [ScanReport.labelled ScanReport.extracting ScanReport.started
       Scan.scanProgress] in *.
  rewrite Hp. unfold ScanReport.completedLabels.
  rewrite <- !app_assoc. reflexivity.
Qed.

Lemma X6_witness :
  ScanExamples.corpus ≠ []
  ∧ ScanSpec.storeOk ScanExamples.envThrice
  ∧ Scan.scanProgress
      (runDeepScan Js.toLowerCaseAscii ScanExamples.envThrice 7
         (Some ScanExamples.corpus) ScanExamples.start)
    = [ "Initializing Deep Scan..."; "Extracting entities (AI)...";
        "Found 3 new terms. Translating...";
        "Translating terms: 1/3"; "Translating terms: 2/3"; "Translating terms: 3/3";
        "Scan Complete!" ].
Proof.
  assert (H1 : ScanExamples.corpus ≠ []) by discriminate.
  assert (H2 : ScanSpec.storeOk ScanExamples.envThrice)
    by (split; [reflexivity | intros k; reflexivity]).
  split; [exact H1|]. split; [exact H2|].
  rewrite (X6_scan_labels Js.toLowerCaseAscii ScanExamples.envThrice 7
             ScanExamples.corpus ScanExamples.start H1 H2).
  vm_compute. reflexivity.
Defined.

(** * Further properties of the generative service *)

Lemma trimEnd_snoc (s : string) (c : ascii) :
  Js.isWhiteSpace c = false →
  Js.trimEnd (s +:+ String c EmptyString) = s +:+ String c EmptyString.
Proof.
  intros Hc. induction s as [|a s IH]; simpl.
  - by rewrite Hc.
  - rewrite IH. destruct s; reflexivity.
Qed.

Lemma dropLastQuote_snoc (s : string) (q : ascii) :
  GeminiService.isQuote q = true →
  GeminiService.dropLastQuote (s +:+ String q EmptyString) = s.
Proof.
  intros Hq. induction s as [|a s IH]; simpl.
  - by rewrite Hq.
  - rewrite IH. destruct s; reflexivity.
Qed.

Lemma quote_not_white (q : ascii) :
  GeminiService.isQuote q = true → Js.isWhiteSpace q = false.
Proof.
  destruct q as [[] [] [] [] [] [] [] []]; vm_compute; congruence.
Qed.

(** X9. When the term service answers without text, or with white space
    only, the term translation is the empty string: nothing is written on
    the console and the term itself is not used in its place. *)
Theorem X9_blank_answer_gives_empty_translation
    (term contextSnippet : string) (generateContent : string → GeminiService.Answer)
    (text : option string) (c : Console) :
  generateContent (GeminiService.searchPrompt term contextSnippet) = Normal text →
  Js.blank (default EmptyString text) = true →
  GeminiService.findArabicTranslationForTerm term contextSnippet generateContent c
  = (Normal EmptyString, c).
Proof.
  intros Hanswer Hblank.
  unfold GeminiService.findArabicTranslationForTerm, tryCatch, bind, await, ret.
  rewrite Hanswer. destruct text as [t|]; simpl in *; [|reflexivity].
  unfold Js.trim. rewrite trimStart_blank by exact Hblank. reflexivity.
Qed.

Lemma X9_witness :
  GeminiService.findArabicTranslationForTerm "Zhang San" "Zhang San woke"
    (λ _, Normal (Some "   ")) []
  = (Normal EmptyString, [])
  ∧ GeminiService.findArabicTranslationForTerm "Zhang San" "Zhang San woke"
      (λ _, Normal None) []
    = (Normal EmptyString, []).
Proof.
  split.
  - apply (X9_blank_answer_gives_empty_translation "Zhang San" "Zhang San woke"
             (λ _, Normal (Some "   ")) (Some "   ") []); reflexivity.
  - apply (X9_blank_answer_gives_empty_translation "Zhang San" "Zhang San woke"
             (λ _, Normal None) None []); reflexivity.
Defined.

(** X10. When the term service answers with a text between two quote
    characters (single or double), the term translation is the text
    without these two characters. *)
Theorem X10_quoted_answer_is_unquoted
    (term contextSnippet : string) (generateContent : string → GeminiService.Answer)
    (q q' : ascii) (body : string) (c : Console) :
  GeminiService.isQuote q = true →
  GeminiService.isQuote q' = true →
  generateContent (GeminiService.searchPrompt term contextSnippet)
  = Normal (Some (String q (body +:+ String q' EmptyString))) →
  GeminiService.findArabicTranslationForTerm term contextSnippet generateContent c
  = (Normal body, c).
Proof.
  intros Hq Hq' Hanswer.
  unfold GeminiService.findArabicTranslationForTerm, tryCatch, bind, await, ret.
  rewrite Hanswer. simpl. unfold Js.trim. simpl.
  rewrite (quote_not_white q Hq).
  change (String q (body +:+ String q' EmptyString))
    with (String q body +:+ String q' EmptyString).
  rewrite trimEnd_snoc by (by apply quote_not_white).
  simpl. rewrite Hq, dropLastQuote_snoc by exact Hq'. reflexivity.
Qed.

Lemma X10_witness :
  GeminiService.findArabicTranslationForTerm "Zhang San" "Zhang San woke"
    (λ _, Normal (Some "'name'")) []
  = (Normal "name", []).
Proof.
  apply (X10_quoted_answer_is_unquoted "Zhang San" "Zhang San woke"
           (λ _, Normal (Some "'name'")) "'"%char "'"%char "name" []); reflexivity.
Defined.

Lemma String_substring_prefix_length (s : string) (n : nat) :
  (String.length (String.substring 0 n s) ≤ n)%nat.
Proof.
  revert n. induction s as [|c s IH]; intros [|n]; simpl; try lia.
  specialize (IH n). lia.
Qed.

Lemma String_substring_prefix_idem (s : string) (n : nat) :
  String.substring 0 n (String.substring 0 n s) = String.substring 0 n s.
Proof.
  revert n. induction s as [|c s IH]; intros [|n]; simpl; try reflexivity.
  by rewrite IH.
Qed.

Lemma slice0_prefix (s : string) (n : Z) :
  0 <= n → Js.slice0 s n = String.substring 0 (Z.to_nat n) s.
Proof.
  intros Hn. unfold Js.slice0, Js.length.
  destruct (decide (Z.to_nat n ≤ String.length s)%nat) as [Hle|Hgt].
  - f_equal. lia.
  - rewrite (String_substring_overshoot s 0 (Z.to_nat n)) by lia.
    f_equal. lia.
Qed.

(** X11. The extraction sends at most the first 30000 code units of the
    sample: the extraction of a text is the extraction of its first 30000
    code units, whatever the service answers. *)
Theorem X11_extraction_reads_first_30000
    (textChunk : string) (generateAndParse : string → Completion (list RawTerm.t))
    (c : Console) :
  let limit := Z.to_nat 30000 in
  GeminiService.extractTermsFromText textChunk generateAndParse c
  = GeminiService.extractTermsFromText (String.substring 0 limit textChunk)
      generateAndParse c
  ∧ (String.length (String.substring 0 limit textChunk) ≤ limit)%nat.
Proof.
  intros limit. split; [|apply String_substring_prefix_length].
  unfold GeminiService.extractTermsFromText, GeminiService.extractPrompt.
  rewrite !slice0_prefix by lia. fold limit.
  rewrite String_substring_prefix_idem. reflexivity.
Qed.

(** * Further properties of the batch translation *)

(** ** What an invocation leaves to the others *)

Lemma loopHead_frame (k : nat) (r : Bulk.Run) (i : nat) (s : Bulk.State) :
  (∃ p, Bulk.invocations (Bulk.loopHead k r i s) = <[k := p]> (Bulk.invocations s))
  ∧ Bulk.stopSignal (Bulk.loopHead k r i s) = Bulk.stopSignal s
  ∧ Bulk.bulkPausedRef (Bulk.loopHead k r i s) = Bulk.bulkPausedRef s
  ∧ Bulk.bulkPaused (Bulk.loopHead k r i s) = Bulk.bulkPaused s
  ∧ Bulk.glossaryTable (Bulk.loopHead k r i s) = Bulk.glossaryTable s.
Proof.
  destruct (loopHead_cases k r i s) as [[-> _]|(c & _ & _ & [[_ ->]|[_ ->]])];
    (split; [eexists; reflexivity | repeat split]).
Qed.

Lemma pauseLoop_frame (k : nat) (r : Bulk.Run) (i : nat) (chapter : Chapter.t)
    (s : Bulk.State) :
  (∃ p, Bulk.invocations (Bulk.pauseLoop k r i chapter s) = <[k := p]> (Bulk.invocations s))
  ∧ Bulk.stopSignal (Bulk.pauseLoop k r i chapter s) = Bulk.stopSignal s
  ∧ Bulk.bulkPausedRef (Bulk.pauseLoop k r i chapter s) = Bulk.bulkPausedRef s
  ∧ Bulk.bulkPaused (Bulk.pauseLoop k r i chapter s) = Bulk.bulkPaused s
  ∧ Bulk.glossaryTable (Bulk.pauseLoop k r i chapter s) = Bulk.glossaryTable s.
Proof.
  destruct (pauseLoop_cases k r i s chapter) as [(_ & _ & ->)|[_ ->]];
    (split; [eexists; reflexivity | repeat split]).
Qed.

(** An invocation that goes on changes no control point but its own, and
    neither the stop signal, nor the pause, nor the glossary. *)
Lemma resume_frame (novelId now : N) (k : nat) (w : Bulk.Awaited) (p : Bulk.Pc)
    (s : Bulk.State) :
  Bulk.invocations s !! k = Some p →
  (∃ p', Bulk.invocations (Bulk.resume novelId now k w p s)
         = <[k := p']> (Bulk.invocations s))
  ∧ Bulk.stopSignal (Bulk.resume novelId now k w p s) = Bulk.stopSignal s
  ∧ Bulk.bulkPausedRef (Bulk.resume novelId now k w p s) = Bulk.bulkPausedRef s
  ∧ Bulk.bulkPaused (Bulk.resume novelId now k w p s) = Bulk.bulkPaused s
  ∧ Bulk.glossaryTable (Bulk.resume novelId now k w p s) = Bulk.glossaryTable s.
Proof.
  intros Hk.
  assert (Hsame : ∃ p', Bulk.invocations s = <[k := p']> (Bulk.invocations s))
    by (exists p; symmetry; by apply list_insert_id).
  destruct w as [[[]|e]| |generateContent|[[]|e]], p; simpl;
    try (split; [exact Hsame | repeat split]).
  - apply loopHead_frame.
  - split; [eexists; reflexivity | repeat split].
  - apply pauseLoop_frame.
  - apply loopHead_frame.
  - destruct (translateChapterWithGlossary_total (Chapter.content chapter)
                (Bulk.glossary r) generateContent (Bulk.console s))
      as (result & c' & -> & _ & _).
    split; [eexists; reflexivity | repeat split].
  - split; [eexists; reflexivity | repeat split].
  - unfold Bulk.catchItem.
    exact (loopHead_frame k r (S i)
             (Bulk.withConsole
                (Bulk.console s ++ [["Failed to translate " +:+ Chapter.title chapter; e]])
                s)).
Qed.


(** An invocation that has returned does nothing more. *)
Lemma resume_Returned (novelId now : N) (k : nat) (w : Bulk.Awaited) (s : Bulk.State) :
  Bulk.resume novelId now k w Bulk.Returned s = s.
Proof. destruct w as [[[]|e]| |generateContent|[[]|e]]; reflexivity. Qed.

(** ** What a batch never changes *)

Lemma applyUpdate_source (id : N) (result : string) (date : N)
    (t : gmap N Chapter.t) (k : N) :
  BulkReport.sourceOf <$> Bulk.applyUpdate id result date t !! k
  = BulkReport.sourceOf <$> t !! k.
Proof.
  unfold Bulk.applyUpdate. rewrite lookup_alter.
  case_decide; [|reflexivity]. subst. by destruct (t !! k).
Qed.

Lemma step_source (novelId now : N) (e : Bulk.Event) (s : Bulk.State) (k : N) :
  (BulkReport.sourceOf <$> Bulk.chapters (Bulk.step novelId now e s) !! k
   = BulkReport.sourceOf <$> Bulk.chapters s !! k)
  ∧ Bulk.glossaryTable (Bulk.step novelId now e s) = Bulk.glossaryTable s.
Proof.
  unfold Bulk.step.
  destruct e as [snapshot| | |j w].
  - unfold Bulk.startBulkTranslation. destruct snapshot as [l|]; [|by split].
    destruct (List.filter Bulk.lacksTranslation l); by split.
  - by split.
  - by split.
  - destruct (Bulk.invocations s !! j) as [p|] eqn:Hj; [|by split].
    split; [|by apply resume_frame].
    destruct w as [[[]|e]| |generateContent|[[]|e]], p; simpl; try reflexivity.
    + by rewrite loopHead_chapters.
    + by rewrite pauseLoop_chapters.
    + by rewrite loopHead_chapters.
    + destruct (translateChapterWithGlossary_total (Chapter.content chapter)
                  (Bulk.glossary r) generateContent (Bulk.console s))
        as (result & c' & -> & _ & _).
      reflexivity.
    + apply applyUpdate_source.
    + unfold Bulk.catchItem. by rewrite loopHead_chapters.
Qed.

(** X12. Through any history, the batch neither adds nor removes a
    chapter and never changes the id, the novel, the title, the order or
    the content of one; it leaves the glossary table as it is. *)
Theorem X12_batch_keeps_sources (novelId : N) (history : list (N * Bulk.Event)) :
  ∀ (s : Bulk.State),
  (∀ k : N,
     BulkReport.sourceOf <$> Bulk.chapters (Bulk.run novelId history s) !! k
     = BulkReport.sourceOf <$> Bulk.chapters s !! k)
  ∧ dom (Bulk.chapters (Bulk.run novelId history s)) = dom (Bulk.chapters s)
  ∧ Bulk.glossaryTable (Bulk.run novelId history s) = Bulk.glossaryTable s.
Proof.
  assert (Hmain : ∀ s,
    (∀ k : N,
       BulkReport.sourceOf <$> Bulk.chapters (Bulk.run novelId history s) !! k
       = BulkReport.sourceOf <$> Bulk.chapters s !! k)
    ∧ Bulk.glossaryTable (Bulk.run novelId history s) = Bulk.glossaryTable s).
  { induction history as [|[now e] rest IH]; intros s; simpl; [by split|].
    destruct (IH (Bulk.step novelId now e s)) as [Hsrc Hgl]. split.
    - intros k. rewrite Hsrc. apply step_source.
    - rewrite Hgl. apply (step_source novelId now e s 0%N). }
  intros s. destruct (Hmain s) as [Hsrc Hgl].
  split; [exact Hsrc|]. split; [|exact Hgl].
  apply set_eq. intros k. rewrite !elem_of_dom.
  specialize (Hsrc k).
  destruct (Bulk.chapters (Bulk.run novelId history s) !! k),
           (Bulk.chapters s !! k); simpl in Hsrc; try discriminate;
    split; intros [x Hx]; try discriminate; eauto.
Qed.

(** ** What a batch stores *)

Lemma loopHead_storesText (k : nat) (r : Bulk.Run) (i : nat) (s : Bulk.State) :
  Forall BulkReport.storesText (Bulk.invocations s) →
  Forall BulkReport.storesText (Bulk.invocations (Bulk.loopHead k r i s)).
Proof.
  intros Hall. destruct (loopHead_invocations k r i s) as (p & -> & Hp).
  apply Forall_insert; [exact Hall|].
  destruct Hp as [->|(c & _ & [->| ->])]; exact I.
Qed.

Lemma pauseLoop_storesText (k : nat) (r : Bulk.Run) (i : nat) (chapter : Chapter.t)
    (s : Bulk.State) :
  Forall BulkReport.storesText (Bulk.invocations s) →
  Forall BulkReport.storesText (Bulk.invocations (Bulk.pauseLoop k r i chapter s)).
Proof.
  intros Hall. destruct (pauseLoop_invocations k r i s chapter) as (p & -> & [->| ->]);
    (apply Forall_insert; [exact Hall | exact I]).
Qed.

Lemma step_stores_translated (novelId now : N) (e : Bulk.Event) (s : Bulk.State) :
  Forall BulkReport.storesText (Bulk.invocations s) →
  Forall BulkReport.storesText (Bulk.invocations (Bulk.step novelId now e s))
  ∧ ∀ k c', Bulk.chapters (Bulk.step novelId now e s) !! k = Some c' →
            Bulk.chapters s !! k = Some c' ∨ BulkReport.translated c'.
Proof.
  intros Hwf. unfold Bulk.step.
  destruct e as [snapshot| | |j w].
  - unfold Bulk.startBulkTranslation. destruct snapshot as [l|]; [|by split; auto].
    destruct (List.filter Bulk.lacksTranslation l); simpl; [by split; auto|].
    split; [|auto]. apply Forall_app. split; [exact Hwf|]. repeat constructor.
  - split; auto.
  - split; auto.
  - destruct (Bulk.invocations s !! j) as [p|] eqn:Hj; [|by split; auto].
    pose proof (Forall_lookup_1 _ _ _ _ Hwf Hj) as Hp.
    destruct w as [[[]|e]| |generateContent|[[]|e]], p; simpl; try (split; [exact Hwf | auto]).
    + split; [by apply loopHead_storesText|]. rewrite loopHead_chapters. auto.
    + split; [|auto]. apply Forall_insert; [exact Hwf | exact I].
    + split; [by apply pauseLoop_storesText|]. rewrite pauseLoop_chapters. auto.
    + split; [by apply loopHead_storesText|]. rewrite loopHead_chapters. auto.
    + destruct (translateChapterWithGlossary_total (Chapter.content chapter)
                  (Bulk.glossary r) generateContent (Bulk.console s))
        as (result & c' & -> & Hne & _).
      split; [|auto]. simpl. apply Forall_insert; [exact Hwf | exact Hne].
    + split; [simpl; apply Forall_insert; [exact Hwf | exact I]|].
      simpl. intros k c' Hk.
      unfold Bulk.applyUpdate in Hk. rewrite lookup_alter in Hk.
      case_decide; [|by left]. subst k. right.
      destruct (Bulk.chapters s !! Chapter.id chapter) as [c0|]; [|discriminate].
      injection Hk as <-. simpl in Hp. split; simpl.
      * unfold Bulk.lacksTranslation. simpl.
        destruct (String.eqb_spec result EmptyString); [congruence | reflexivity].
      * eauto.
    + unfold Bulk.catchItem. split; [by apply loopHead_storesText|].
      rewrite loopHead_chapters. auto.
Qed.

Lemma run_stores_translated (novelId : N) (history : list (N * Bulk.Event)) :
  ∀ s : Bulk.State,
  Forall BulkReport.storesText (Bulk.invocations s) →
  ∀ k c', Bulk.chapters (Bulk.run novelId history s) !! k = Some c' →
          Bulk.chapters s !! k = Some c' ∨ BulkReport.translated c'.
Proof.
  induction history as [|[now e] rest IH]; intros s Hwf k c' Hk; simpl in *; [by left|].
  destruct (step_stores_translated novelId now e s Hwf) as [Hwf' Hstep].
  destruct (IH _ Hwf' k c' Hk) as [Hsame|Hdone]; [|by right].
  apply Hstep. exact Hsame.
Qed.

(** X14. Through any history that begins with no invocation in flight, a
    chapter of the store is either exactly as it was or holds a non-empty
    translation together with a date: the batch never stores an empty
    translation, so every chapter it has written counts as translated. *)
Theorem X14_batch_stores_only_translations
    (novelId : N) (history : list (N * Bulk.Event)) (s : Bulk.State)
    (k : N) (c' : Chapter.t) :
  BulkSpec.quiet s →
  Bulk.chapters (Bulk.run novelId history s) !! k = Some c' →
  Bulk.chapters s !! k = Some c' ∨ BulkReport.translated c'.
Proof.
  intros Hquiet. apply run_stores_translated.
  eapply Forall_impl; [exact Hquiet|]. intros p ->. exact I.
Qed.

Lemma X14_witness :
  let s' := Bulk.run 7 BulkExamples.firstFails BulkExamples.start in
  BulkSpec.quiet BulkExamples.start
  ∧ (∃ c', Bulk.chapters s' !! 1%N = Some c' ∧ BulkReport.translated c')
  ∧ Bulk.chapters s' !! 3%N = Bulk.chapters BulkExamples.start !! 3%N.
Proof.
  intros s'.
  assert (H1 : BulkSpec.quiet BulkExamples.start) by constructor.
  split; [exact H1|]. split.
  - destruct (Bulk.chapters s' !! 1%N) as [c'|] eqn:Hk; [|vm_compute in Hk; discriminate].
    exists c'. split; [reflexivity|].
    destruct (X14_batch_stores_only_translations 7 BulkExamples.firstFails
                BulkExamples.start 1%N c' H1 Hk) as [Hsame|Hdone]; [|exact Hdone].
    vm_compute in Hk, Hsame. congruence.
  - vm_compute. reflexivity.
Defined.

(** ** The order of the calls *)

Lemma take_S_lookup {A} (l : list A) (i : nat) (x : A) :
  l !! i = Some x → take (S i) l = take i l ++ [x].
Proof. intros H. by apply take_S_r. Qed.

(** What has to be shown when the invocation [n] moves to [p]. *)
Lemma ordered_goto (n : nat) (base : list N) (queue : list Chapter.t)
    (s s' : Bulk.State) (p : Bulk.Pc) :
  BulkReport.alone n s →
  (n < List.length (Bulk.invocations s))%nat →
  Bulk.invocations s' = <[n := p]> (Bulk.invocations s) →
  BulkReport.inOrder base queue (Bulk.translateCalls s') p →
  BulkReport.ordered n base queue s'.
Proof.
  intros Halone Hlt Hinv Hord. split.
  - intros j q Hne Hj. rewrite Hinv, list_lookup_insert_ne in Hj by auto.
    by eapply Halone.
  - rewrite Hinv, list_lookup_insert_eq by exact Hlt. exact Hord.
Qed.

Lemma pauseLoop_ordered (n : nat) (base : list N) (r : Bulk.Run) (i : nat)
    (chapter : Chapter.t) (s : Bulk.State) :
  BulkReport.alone n s →
  (n < List.length (Bulk.invocations s))%nat →
  Bulk.untranslated r !! i = Some chapter →
  Bulk.translateCalls s = base ++ (Chapter.id <$> take i (Bulk.untranslated r)) →
  BulkReport.ordered n base (Bulk.untranslated r) (Bulk.pauseLoop n r i chapter s).
Proof.
  intros Halone Hlt Hi Hcalls.
  destruct (pauseLoop_cases n r i s chapter) as [(_ & _ & ->)|[_ ->]];
    (eapply ordered_goto; [exact Halone | exact Hlt | reflexivity | simpl]).
  - auto.
  - split; [reflexivity|]. split; [exact Hi|].
    rewrite Hcalls, (take_S_lookup _ _ _ Hi), fmap_app, app_assoc. reflexivity.
Qed.

Lemma loopHead_ordered (n : nat) (base : list N) (r : Bulk.Run) (i : nat)
    (s : Bulk.State) :
  BulkReport.alone n s →
  (n < List.length (Bulk.invocations s))%nat →
  Bulk.translateCalls s = base ++ (Chapter.id <$> take i (Bulk.untranslated r)) →
  BulkReport.ordered n base (Bulk.untranslated r) (Bulk.loopHead n r i s).
Proof.
  intros Halone Hlt Hcalls.
  destruct (loopHead_cases n r i s) as [[-> _]|(c & Hi & _ & [[_ ->]|[_ ->]])];
    (eapply ordered_goto; [exact Halone | exact Hlt | reflexivity | simpl]).
  - eauto.
  - auto.
  - split; [reflexivity|]. split; [exact Hi|].
    rewrite Hcalls, (take_S_lookup _ _ _ Hi), fmap_app, app_assoc. reflexivity.
Qed.

Lemma step_ordered (novelId now : N) (e : Bulk.Event) (s : Bulk.State)
    (n : nat) (base : list N) (queue : list Chapter.t) :
  BulkReport.isStart e = false →
  BulkReport.ordered n base queue s →
  BulkReport.ordered n base queue (Bulk.step novelId now e s).
Proof.
  intros He [Halone Hord]. unfold Bulk.step.
  destruct e as [snapshot| | |j w]; [discriminate | by split | by split |].
  destruct (Bulk.invocations s !! j) as [p|] eqn:Hj; [|by split].
  destruct (decide (j = n)) as [->|Hne];
    [|rewrite (Halone j p Hne Hj), resume_Returned; by split].
  pose proof (lookup_lt_Some _ _ _ Hj) as Hlt.
  assert (Hsame : BulkReport.ordered n base queue s) by (by split).
  rewrite Hj in Hord.
  destruct w as [[[]|e]| |generateContent|[[]|e]], p; simpl; try exact Hsame;
    simpl in Hord.
  - destruct Hord as [<- Hcalls].
    apply (loopHead_ordered n base (Bulk.mkRun untranslated _) 0 s Halone Hlt).
    simpl. by rewrite Hcalls, app_nil_r.
  - destruct Hord as [_ Hcalls].
    eapply ordered_goto; [exact Halone | exact Hlt | reflexivity | simpl].
    exists 0%nat. by rewrite Hcalls, app_nil_r.
  - destruct Hord as (<- & Hi & Hcalls). by apply pauseLoop_ordered.
  - destruct Hord as [<- Hcalls]. by apply loopHead_ordered.
  - destruct (translateChapterWithGlossary_total (Chapter.content chapter)
                (Bulk.glossary r) generateContent (Bulk.console s))
      as (result & c' & -> & _ & _).
    eapply ordered_goto; [exact Halone | exact Hlt | reflexivity | exact Hord].
  - destruct Hord as (Hq & _ & Hcalls).
    eapply ordered_goto; [exact Halone | exact Hlt | reflexivity | simpl; auto].
  - destruct Hord as (<- & _ & Hcalls).
    unfold Bulk.catchItem. by apply loopHead_ordered.
Qed.

Lemma run_ordered (novelId : N) (history : list (N * Bulk.Event))
    (n : nat) (base : list N) (queue : list Chapter.t) :
  BulkReport.noStart history →
  ∀ s : Bulk.State,
  BulkReport.ordered n base queue s →
  BulkReport.ordered n base queue (Bulk.run novelId history s).
Proof.
  induction 1 as [|[now e] rest He _ IH]; intros s Hinv; simpl; [exact Hinv|].
  apply IH. by apply step_ordered.
Qed.

(** X13. When Start is clicked while no invocation is in flight, then
    until the next click on Start the translator is called on the
    chapters of the snapshot that lack a translation, in the order of the
    snapshot, each at most once and none skipped: the calls made are
    those for an initial segment of this queue, whatever the clicks on
    Pause and Stop, the service and the store do. *)
Theorem X13_batch_calls_in_queue_order
    (novelId now : N) (snapshot : list Chapter.t)
    (history : list (N * Bulk.Event)) (s : Bulk.State) :
  BulkSpec.quiet s →
  BulkReport.noStart history →
  ∃ m : nat,
    Bulk.translateCalls
      (Bulk.run novelId ((now, Bulk.ClickStart (Some snapshot)) :: history) s)
    = Bulk.translateCalls s
        ++ (Chapter.id <$> take m (List.filter Bulk.lacksTranslation snapshot)).
Proof.
  intros Hquiet Hno. simpl.
  set (queue := List.filter Bulk.lacksTranslation snapshot).
  set (n := List.length (Bulk.invocations s)).
  assert (Hstart : BulkReport.ordered n (Bulk.translateCalls s) queue
                     (Bulk.step novelId now (Bulk.ClickStart (Some snapshot)) s)).
  { unfold Bulk.step, Bulk.startBulkTranslation. fold queue.
    destruct queue as [|c rest] eqn:Hq.
    - split.
      + intros j p _ Hj. exact (Forall_lookup_1 _ _ _ _ Hquiet Hj).
      + simpl. by rewrite lookup_ge_None_2 by (subst n; lia).
    - split.
      + intros j p Hne Hj. simpl in Hj.
        assert (Hlt : (j < n)%nat).
        { apply lookup_lt_Some in Hj. rewrite length_app in Hj. simpl in Hj.
          subst n. lia. }
        rewrite lookup_app_l in Hj by exact Hlt.
        exact (Forall_lookup_1 _ _ _ _ Hquiet Hj).
      + simpl. rewrite list_lookup_middle by reflexivity. simpl. auto. }
  destruct (run_ordered novelId history n _ queue Hno _ Hstart) as [_ Hend].
  destruct (Bulk.invocations (Bulk.run novelId history _) !! n) as [p|];
    [|exists 0%nat; simpl; by rewrite app_nil_r].
  destruct p; simpl in Hend.
  - exact Hend.
  - destruct Hend as [_ Hend]. exists 0%nat. simpl. rewrite app_nil_r. exact Hend.
  - destruct Hend as (_ & _ & Hend). eexists. exact Hend.
  - destruct Hend as (_ & _ & Hend). eexists. exact Hend.
  - destruct Hend as (_ & _ & Hend). eexists. exact Hend.
  - destruct Hend as [_ Hend]. eexists. exact Hend.
Qed.

Lemma X13_witness :
  BulkSpec.quiet BulkExamples.start
  ∧ BulkReport.noStart (tail BulkExamples.stopWhileTranslating)
  ∧ ∃ m : nat,
      Bulk.translateCalls
        (Bulk.run 7 ((10%N, Bulk.ClickStart (Some BulkExamples.snapshot))
                       :: tail BulkExamples.stopWhileTranslating) BulkExamples.start)
      = Bulk.translateCalls BulkExamples.start
          ++ (Chapter.id <$> take m (List.filter Bulk.lacksTranslation BulkExamples.snapshot)).
Proof.
  assert (H1 : BulkSpec.quiet BulkExamples.start) by constructor.
  assert (H2 : BulkReport.noStart (tail BulkExamples.stopWhileTranslating))
    by (repeat constructor).
  split; [exact H1|]. split; [exact H2|].
  apply (X13_batch_calls_in_queue_order 7 10%N BulkExamples.snapshot
           (tail BulkExamples.stopWhileTranslating) BulkExamples.start H1 H2).
Defined.

(** ** After a stop *)





(** ** During a pause *)





(** ** A run without interruption *)

Lemma run_app (novelId : N) (h1 h2 : list (N * Bulk.Event)) (s : Bulk.State) :
  Bulk.run novelId (h1 ++ h2) s = Bulk.run novelId h2 (Bulk.run novelId h1 s).
Proof.
  revert s. induction h1 as [|[now e] h1 IH]; intros s; simpl; [reflexivity|]. apply IH.
Qed.

Lemma applyUpdate_translatedAt (now : N) (id : N) (result : string)
    (m : gmap N Chapter.t) (k : N) :
  result ≠ EmptyString →
  BulkReport.translatedAt now m k ∨ (k = id ∧ is_Some (m !! k)) →
  BulkReport.translatedAt now (Bulk.applyUpdate id result now m) k.
Proof.
  intros Hne H. unfold BulkReport.translatedAt, Bulk.applyUpdate.
  rewrite lookup_alter. case_decide as Hk.
  - subst k. assert (Hsome : is_Some (m !! id)).
    { destruct H as [(c & Hc & _)|[_ Hs]]; eauto. }
    destruct Hsome as [c Hc]. rewrite Hc. simpl. eexists. split; [reflexivity|].
    split; [|reflexivity].
    unfold Bulk.lacksTranslation. simpl.
    destruct (String.eqb_spec result EmptyString); [congruence | reflexivity].
  - destruct H as [H|[Heq _]]; [exact H | congruence].
Qed.

(** The three events of a chapter bring the invocation from the call of
    the translator to the head of the next round. *)
Lemma item_steps (novelId now : N) (k : nat) (answer : string → GeminiService.Answer)
    (s : Bulk.State) (r : Bulk.Run) (i : nat) (chapter : Chapter.t) :
  Bulk.invocations s !! k = Some (Bulk.AwaitTranslate r i chapter) →
  ∃ (result : string) (s3 : Bulk.State),
    Bulk.run novelId (BulkReport.itemEvents now k answer) s = Bulk.loopHead k r (S i) s3
    ∧ result ≠ EmptyString
    ∧ Bulk.chapters s3 = Bulk.applyUpdate (Chapter.id chapter) result now (Bulk.chapters s)
    ∧ Bulk.stopSignal s3 = Bulk.stopSignal s
    ∧ Bulk.bulkPausedRef s3 = Bulk.bulkPausedRef s
    ∧ Bulk.translateCalls s3 = Bulk.translateCalls s
    ∧ Bulk.alerts s3 = Bulk.alerts s
    ∧ Bulk.invocations s3 = <[k := Bulk.Cooldown r i]> (Bulk.invocations s).
Proof.
  intros Hk. pose proof (lookup_lt_Some _ _ _ Hk) as Hlt.
  destruct (translateChapterWithGlossary_total (Chapter.content chapter)
              (Bulk.glossary r) answer (Bulk.console s))
    as (result & c' & Hrun & Hne & _).
  set (s1 := Bulk.goto k (Bulk.AwaitUpdate r i chapter result now) (Bulk.withConsole c' s)).
  assert (H1 : Bulk.step novelId now (Bulk.Settled k (Bulk.ServiceAnswered answer)) s = s1).
  { unfold Bulk.step. rewrite Hk. simpl. rewrite Hrun. reflexivity. }
  assert (Hk1 : Bulk.invocations s1 !! k = Some (Bulk.AwaitUpdate r i chapter result now))
    by (simpl; by apply list_lookup_insert_eq).
  set (s2 := Bulk.goto k (Bulk.Cooldown r i)
               (Bulk.withChapters
                  (Bulk.applyUpdate (Chapter.id chapter) result now (Bulk.chapters s1)) s1)).
  assert (H2 : Bulk.step novelId now (Bulk.Settled k (Bulk.UpdateSettled (Normal tt))) s1
               = s2).
  { unfold Bulk.step. rewrite Hk1. reflexivity. }
  assert (Hk2 : Bulk.invocations s2 !! k = Some (Bulk.Cooldown r i)).
  { simpl. apply list_lookup_insert_eq. by rewrite length_insert. }
  assert (H3 : Bulk.step novelId now (Bulk.Settled k Bulk.TimerFired) s2
               = Bulk.loopHead k r (S i) s2).
  { unfold Bulk.step. rewrite Hk2. reflexivity. }
  exists result, s2. split.
  - unfold BulkReport.itemEvents. cbn [Bulk.run]. by rewrite H1, H2, H3.
  - split; [exact Hne|]. repeat split. simpl. apply list_insert_insert_eq.
Qed.

Lemma loopHead_smooth (k : nat) (r : Bulk.Run) (i : nat) (s : Bulk.State) :
  Bulk.stopSignal s = false →
  Bulk.bulkPausedRef s = false →
  Bulk.loopHead k r i s
  = match Bulk.untranslated r !! i with
    | Some chapter => Bulk.dispatch k r i chapter s
    | None => Bulk.finish k s
    end.
Proof.
  intros Hstop Hpause. unfold Bulk.loopHead, Bulk.pauseLoop.
  rewrite Hstop, Hpause. reflexivity.
Qed.

Lemma smooth_loop (novelId now : N) (k : nat) (r : Bulk.Run)
    (answers : list (string → GeminiService.Answer)) :
  ∀ (i : nat) (s : Bulk.State),
  Bulk.stopSignal s = false →
  Bulk.bulkPausedRef s = false →
  (List.length answers + i = List.length (Bulk.untranslated r))%nat →
  (k < List.length (Bulk.invocations s))%nat →
  let s' := Bulk.run novelId (concat (map (BulkReport.itemEvents now k) answers))
              (Bulk.loopHead k r i s) in
  Bulk.invocations s' = <[k := Bulk.Returned]> (Bulk.invocations s)
  ∧ Bulk.translateCalls s'
    = Bulk.translateCalls s ++ (Chapter.id <$> drop i (Bulk.untranslated r))
  ∧ Bulk.alerts s' = Bulk.alerts s ++ ["Bulk translation process finished."]
  ∧ (∀ key, BulkReport.translatedAt now (Bulk.chapters s) key ∨
            (is_Some (Bulk.chapters s !! key)
             ∧ key ∈ (Chapter.id <$> drop i (Bulk.untranslated r))) →
            BulkReport.translatedAt now (Bulk.chapters s') key).
Proof.
  induction answers as [|a rest IH]; intros i s Hstop Hpause Hlen Hlt s'; subst s';
    cbn [map concat].
  - rewrite loopHead_smooth by assumption.
    rewrite lookup_ge_None_2 by (simpl in Hlen; lia).
    rewrite drop_ge by (simpl in Hlen; lia). simpl.
    rewrite app_nil_r. repeat split.
    intros key [H|[_ Hin]]; [exact H | inversion Hin].
  - simpl in Hlen.
    destruct (lookup_lt_is_Some_2 (Bulk.untranslated r) i) as [chapter Hi]; [lia|].
    rewrite loopHead_smooth by assumption. rewrite Hi.
    rewrite run_app.
    assert (Hk : Bulk.invocations (Bulk.dispatch k r i chapter s) !! k
                 = Some (Bulk.AwaitTranslate r i chapter))
      by (simpl; by apply list_lookup_insert_eq).
    destruct (item_steps novelId now k a (Bulk.dispatch k r i chapter s) r i chapter Hk)
      as (result & s3 & Hsteps & Hne & Hch & Hs & Hp & Hc & Ha & Hinv).
    rewrite Hsteps.
    destruct (IH (S i) s3) as (Hinv' & Hcalls' & Halerts' & Hdone').
    { by rewrite Hs. } { by rewrite Hp. } { lia. }
    { rewrite Hinv. simpl. by rewrite !length_insert. }
    split; [|split; [|split]].
    + rewrite Hinv', Hinv. simpl. by rewrite !list_insert_insert_eq.
    + rewrite Hcalls', Hc. simpl. rewrite (drop_S _ _ _ Hi), fmap_cons.
      rewrite <- app_assoc. reflexivity.
    + rewrite Halerts', Ha. reflexivity.
    + intros key Hkey. apply Hdone'. rewrite Hch. simpl.
      rewrite (drop_S _ _ _ Hi), fmap_cons in Hkey.
      destruct Hkey as [Hkey|[Hsome Hin]].
      * left. apply applyUpdate_translatedAt; auto.
      * apply elem_of_cons in Hin as [->|Hin].
        -- left. apply applyUpdate_translatedAt; auto.
        -- right. split; [|exact Hin].
           unfold Bulk.applyUpdate. rewrite lookup_alter. case_decide; [|exact Hsome].
           subst. destruct Hsome as [c0 ->]. simpl. eauto.
Qed.

(** X16. A run that the user does not interrupt, in which the service
    gives one answer for each chapter of the queue (a text, nothing or a
    rejection) and the store accepts every update, calls the translator
    for every chapter of the queue in order, ends with the final alert
    and with the invocation returned, and leaves every queued chapter
    that the store holds with a non-empty translation and the date of the
    run.  The other invocations, if any, stay where they are. *)
Theorem X16_uninterrupted_run_translates_queue
    (novelId now : N) (snapshot : list Chapter.t)
    (answers : list (string → GeminiService.Answer)) (s : Bulk.State) :
  let queue := List.filter Bulk.lacksTranslation snapshot in
  queue ≠ [] →
  List.length answers = List.length queue →
  let k := List.length (Bulk.invocations s) in
  let s' := Bulk.run novelId (BulkReport.smoothRun now k snapshot answers) s in
  Bulk.invocations s' = Bulk.invocations s ++ [Bulk.Returned]
  ∧ Bulk.translateCalls s' = Bulk.translateCalls s ++ (Chapter.id <$> queue)
  ∧ last (Bulk.alerts s') = Some "Bulk translation process finished."
  ∧ ∀ c, c ∈ queue → is_Some (Bulk.chapters s !! Chapter.id c) →
         BulkReport.translatedAt now (Bulk.chapters s') (Chapter.id c).
Proof.
  intros queue Hne Hlen k s'.
  subst s'. unfold BulkReport.smoothRun. cbn [Bulk.run].
  set (s1 := Bulk.spawn (Bulk.AwaitGlossary queue)
               (Bulk.setBulkProgress (Bulk.mkProgress 0 (List.length queue) "")
                  (Bulk.setStopSignal false
                     (Bulk.setBulkPaused false (Bulk.setIsBulkTranslating true s))))).
  assert (H1 : Bulk.step novelId now (Bulk.ClickStart (Some snapshot)) s = s1).
  { unfold Bulk.step, Bulk.startBulkTranslation. fold queue.
    destruct queue; [congruence | reflexivity]. }
  rewrite H1.
  assert (Hk : Bulk.invocations s1 !! k = Some (Bulk.AwaitGlossary queue))
    by (simpl; by apply list_lookup_middle).
  set (r := Bulk.mkRun queue (Glossary.whereNovel novelId (Bulk.glossaryTable s1))).
  assert (H2 : Bulk.step novelId now (Bulk.Settled k (Bulk.GlossaryLoaded (Normal tt))) s1
               = Bulk.loopHead k r 0 s1).
  { unfold Bulk.step. rewrite Hk. reflexivity. }
  rewrite H2.
  destruct (smooth_loop novelId now k r answers 0 s1 eq_refl eq_refl)
    as (Hinv & Hcalls & Halerts & Hdone).
  { simpl. lia. }
  { by eapply lookup_lt_Some. }
  simpl in Hinv, Hcalls, Halerts, Hdone.
  split; [|split; [exact Hcalls | split]].
  - rewrite Hinv. subst k. rewrite insert_app_r_alt by lia.
    by rewrite Nat.sub_diag.
  - rewrite Halerts. apply last_snoc.
  - intros c Hc Hsome. apply Hdone. right. split; [exact Hsome|].
    apply list_elem_of_fmap. eauto.
Qed.

Lemma X16_witness :
  let answers := [BulkExamples.rejects; BulkExamples.answers "second translation"] in
  let s' := Bulk.run 7 (BulkReport.smoothRun 40 0 BulkExamples.snapshot answers)
              BulkExamples.start in
  List.filter Bulk.lacksTranslation BulkExamples.snapshot
  = [BulkExamples.one; BulkExamples.two]
  ∧ Bulk.invocations s' = [Bulk.Returned]
  ∧ Bulk.translateCalls s' = [1; 2]%N
  ∧ BulkReport.translatedAt 40 (Bulk.chapters s') 1
  ∧ BulkReport.translatedAt 40 (Bulk.chapters s') 2.
Proof.
  intros answers s'.
  assert (H2 : List.filter Bulk.lacksTranslation BulkExamples.snapshot ≠ []) by discriminate.
  assert (H3 : List.length answers
               = List.length (List.filter Bulk.lacksTranslation BulkExamples.snapshot))
    by reflexivity.
  destruct (X16_uninterrupted_run_translates_queue 7 40 BulkExamples.snapshot answers
              BulkExamples.start H2 H3) as (Hinv & Hcalls & _ & Hdone).
  split; [reflexivity|]. split; [exact Hinv|]. split; [exact Hcalls|]. split.
  - apply (Hdone BulkExamples.one); [by left | vm_compute; eauto].
  - apply (Hdone BulkExamples.two); [by right; left | vm_compute; eauto].
Defined.

(** * Properties of the reader *)

Lemma handleTranslate_unfold (env : Reader.Env) (chapter : Chapter.t) (s : Reader.State) :
  let result := ReaderSpec.resultOf env chapter s in
  let console' :=
    Reader.console s
      ++ match Reader.generateContent env
                 (BulkSpec.promptOf (Chapter.content chapter)
                    (Glossary.whereNovel (Chapter.novelId chapter) (Reader.glossaryTable s))) with
         | Normal _ => []
         | Throw e => [["Translation error:"; e]]
         end in
  Reader.handleTranslate env (Some chapter) s
  = match Reader.glossaryToArray env with
    | Throw _ =>
        Reader.mk (Reader.chapters s) (Reader.glossaryTable s) (Reader.console s)
                  (Reader.alerts s ++ ["Translation failed"]) (Reader.translation s)
                  (Reader.editedTranslation s) false (Reader.selection s)
    | Normal _ =>
        match Reader.update env with
        | Throw _ =>
            Reader.mk (Reader.chapters s) (Reader.glossaryTable s) console'
                      (Reader.alerts s ++ ["Translation failed"]) result result false
                      (Reader.selection s)
        | Normal _ =>
            Reader.mk (Bulk.applyUpdate (Chapter.id chapter) result (Reader.now env)
                         (Reader.chapters s))
                      (Reader.glossaryTable s) console' (Reader.alerts s) result result false
                      (Reader.selection s)
        end
    end.
Proof.
  intros result console'. subst result console'.
  unfold Reader.handleTranslate, ReaderSpec.resultOf.
  unfold Reader.setIsTranslating at 1. rewrite bind_modify.
  unfold tryFinally, tryCatch.
  destruct (Reader.glossaryToArray env) as [[]|e0].
  - rewrite bind_await_Normal, bind_gets.
    unfold Reader.onConsole.
    cbn [Reader.glossaryTable Reader.console].
    destruct (Reader.generateContent env _) as [text|e1] eqn:Hanswer.
    + erewrite bind_zoom
        by (rewrite translateChapterWithGlossary_run, Hanswer; reflexivity).
      destruct (Reader.update env) as [[]|e2]; cbn; rewrite ?app_nil_r; reflexivity.
    + erewrite bind_zoom
        by (rewrite translateChapterWithGlossary_run, Hanswer; reflexivity).
      destruct (Reader.update env) as [[]|e2]; cbn; reflexivity.
  - rewrite bind_await_Throw. reflexivity.
Qed.

(** X18. [handleTranslate] always ends with [isTranslating] off.  It
    alerts "Translation failed" exactly when the query of the glossary or
    the update of the chapter is rejected, never because of the service:
    whatever the service does, the reader shows a non-empty text, and
    when the store answers this text is stored as the chapter's
    translation with the date.  When only the update is rejected, the
    reader shows the text although the store is unchanged. *)
Theorem X18_handleTranslate_outcomes
    (env : Reader.Env) (chapter : Chapter.t) (s : Reader.State) :
  let s' := Reader.handleTranslate env (Some chapter) s in
  let result := ReaderSpec.resultOf env chapter s in
  Reader.isTranslating s' = false
  ∧ Reader.alerts s'
    = Reader.alerts s ++ (if ReaderSpec.storeFailed env then ["Translation failed"] else [])
  ∧ Reader.chapters s'
    = (if ReaderSpec.storeFailed env then Reader.chapters s
       else Bulk.applyUpdate (Chapter.id chapter) result (Reader.now env) (Reader.chapters s))
  ∧ result ≠ EmptyString
  ∧ (Reader.glossaryToArray env = Normal tt →
     Reader.translation s' = result ∧ Reader.editedTranslation s' = result).
Proof.
  intros s' result. subst s'. rewrite handleTranslate_unfold.
  fold result. unfold ReaderSpec.storeFailed.
  assert (Hne : result ≠ EmptyString).
  { subst result. unfold ReaderSpec.resultOf.
    destruct (Reader.generateContent env _); [|discriminate].
    apply orElse_nonempty. discriminate. }
  destruct (Reader.glossaryToArray env) as [[]|e0];
    [destruct (Reader.update env) as [[]|e1]|]; simpl;
    rewrite ?app_nil_r; repeat split; auto; discriminate.
Qed.

Example handleTranslate_examples :
  let rejected := Reader.handleTranslate ReaderSpec.envRejected (Some BulkExamples.one)
                    ReaderSpec.start in
  let unsaved := Reader.handleTranslate ReaderSpec.envUpdateFails (Some BulkExamples.one)
                   ReaderSpec.start in
  (Reader.alerts rejected = []
   ∧ Chapter.translatedContent <$> Reader.chapters rejected !! 1%N
     = Some (Some GeminiService.errorGenerating))
  ∧ (Reader.alerts unsaved = ["Translation failed"]
     ∧ Reader.translation unsaved = "first translation"
     ∧ Reader.chapters unsaved !! 1%N = Some BulkExamples.one).
Proof. repeat split; vm_compute; reflexivity. Qed.





(** * Properties of the glossary manager *)

Lemma prefix_same (s : string) : String.prefix s s = true.
Proof.
  induction s as [|c s IH]; simpl; [reflexivity|].
  destruct (ascii_dec c c); [exact IH | congruence].
Qed.

Lemma includes_same (s : string) : Js.includes s s = true.
Proof.
  unfold Js.includes, Js.indexOf. apply bool_decide_eq_true.
  destruct s as [|c s]; simpl; [lia|].
  destruct (ascii_dec c c) as [_|]; [|congruence].
  rewrite prefix_same. lia.
Qed.

Lemma includes_empty (s : string) : Js.includes s EmptyString = true.
Proof.
  unfold Js.includes, Js.indexOf. apply bool_decide_eq_true.
  destruct s; simpl; lia.
Qed.

Lemma filter_all {A} (keep : A → bool) (l : list A) :
  (∀ x, x ∈ l → keep x = true) → List.filter keep l = l.
Proof.
  induction l as [|x l IH]; intros H; simpl; [reflexivity|].
  rewrite (H x) by (by left). f_equal. apply IH. intros y Hy. apply H. by right.
Qed.

(** X21. The list of the glossary manager shows, in the order of the
    table, a part of the terms: all of them when the search box is empty,
    and in any case every term whose whole original, or whose whole
    translation, is typed in the box. *)
Theorem X21_filteredTerms_finds_terms
    (toLowerCase : string → string) (terms : list Term.t) (filter : string) :
  Manager.filteredTerms toLowerCase (Some terms) EmptyString = Some terms
  ∧ (∃ shown, Manager.filteredTerms toLowerCase (Some terms) filter = Some shown
              ∧ sublist shown terms)
  ∧ ∀ t, t ∈ terms →
      (∃ shown, Manager.filteredTerms toLowerCase (Some terms) (Term.original t) = Some shown
                ∧ t ∈ shown)
      ∧ (∃ shown, Manager.filteredTerms toLowerCase (Some terms) (Term.translation t)
                  = Some shown
                  ∧ t ∈ shown).
Proof.
  unfold Manager.filteredTerms. simpl. split; [|split].
  - f_equal. apply filter_all. intros t _.
    rewrite (includes_empty (Term.translation t)). apply orb_true_r.
  - eexists. split; [reflexivity|]. apply filter_sublist.
  - intros t Ht. split; eexists; (split; [reflexivity|]);
      apply list_elem_of_In, filter_In; (split; [by apply list_elem_of_In|]).
    + rewrite includes_same. reflexivity.
    + rewrite (includes_same (Term.translation t)). apply orb_true_r.
Qed.

Lemma filter_keep_old (key : N) (rows : list Term.t) :
  Forall (λ r, ∃ k, Term.id r = Some k ∧ (k < key)%N) rows →
  List.filter (λ r, negb (bool_decide (Term.id r = Some key))) rows = rows.
Proof.
  intros Hb. apply filter_all. intros r Hr.
  rewrite Forall_forall in Hb. destruct (Hb r Hr) as (k & Hk & Hlt).
  apply negb_true_iff, bool_decide_eq_false. rewrite Hk. intros [= ->]. lia.
Qed.

(** X22. In a table whose keys are below the key generator, the term
    that [addEmptyTerm] stores receives a key that no other row has, and
    deleting the term of this key gives back the rows that were there
    before, in their order; the key generator stays advanced, so the key
    is not given again. *)
Theorem X22_add_then_delete_restores_rows (novelId : N) (t : Glossary.table) :
  ScanReport.wellKeyed t →
  let added := Manager.addEmptyTerm (Normal tt) novelId t in
  added.2 = Some (Glossary.nextKey t)
  ∧ ScanReport.wellKeyed added.1
  ∧ Glossary.rows (Manager.deleteTerm true (Normal tt) (Glossary.nextKey t) added.1)
    = Glossary.rows t
  ∧ Glossary.nextKey (Manager.deleteTerm true (Normal tt) (Glossary.nextKey t) added.1)
    = (Glossary.nextKey t + 1)%N.
Proof.
  intros Hwf added. subst added. simpl.
  split; [reflexivity|]. split; [|split; [|reflexivity]].
  - destruct Hwf as [Hb Hnd]. split; simpl.
    + apply Forall_app. split.
      * eapply Forall_impl; [exact Hb|]. intros r (k & Hk & Hlt). exists k. split; [exact Hk | lia].
      * constructor; [|constructor]. exists (Glossary.nextKey t). split; [reflexivity | lia].
    + rewrite fmap_app. apply NoDup_app. split; [exact Hnd|]. split; [|apply NoDup_singleton].
      intros x Hx Hin. apply list_elem_of_fmap in Hx as (r & -> & Hr).
      apply list_elem_of_singleton in Hin. simpl in Hin.
      rewrite Forall_forall in Hb. destruct (Hb r Hr) as (k & Hk & Hlt).
      rewrite Hk in Hin. injection Hin as ->. lia.
  - rewrite List.filter_app. simpl.
    rewrite bool_decide_eq_true_2 by reflexivity. simpl.
    rewrite app_nil_r. apply filter_keep_old. apply Hwf.
Qed.

Lemma X22_witness :
  let t := Glossary.add ScanExamples.existing Glossary.empty in
  ScanReport.wellKeyed t
  ∧ Glossary.rows
      (Manager.deleteTerm true (Normal tt) 2 (Manager.addEmptyTerm (Normal tt) 7 t).1)
    = Glossary.rows t.
Proof.
  intros t.
  assert (H : ScanReport.wellKeyed t).
  { split; simpl.
    - constructor; [|constructor]. exists 1%N. split; [reflexivity | lia].
    - apply NoDup_singleton. }
  split; [exact H|].
  destruct (X22_add_then_delete_restores_rows 7 t H) as (_ & _ & Hrows & _).
  exact Hrows.
Defined.

Lemma update_same_resolution (key : N) (changes : Term.t → Term.t) (t : Glossary.table)
    (novelId : N) :
  (∀ r, Term.novelId (changes r) = Term.novelId r
        ∧ Term.original (changes r) = Term.original r) →
  Term.original <$> Glossary.whereNovel novelId (GlossaryOps.update key changes t)
  = Term.original <$> Glossary.whereNovel novelId t.
Proof.
  intros Hkeep. unfold Glossary.whereNovel, GlossaryOps.update. simpl.
  induction (Glossary.rows t) as [|r rows IH]; simpl; [reflexivity|].
  assert (Hr : Term.novelId (if bool_decide (Term.id r = Some key) then changes r else r)
               = Term.novelId r
               ∧ Term.original (if bool_decide (Term.id r = Some key) then changes r else r)
                 = Term.original r).
  { destruct (bool_decide _); [apply Hkeep | by split]. }
  destruct Hr as [Hn Ho]. rewrite Hn.
  destruct (N.eqb (Term.novelId r) novelId); simpl; [rewrite Ho; f_equal|]; exact IH.
Qed.

Lemma update_update_restores (key : N) (f g : Term.t → Term.t) (t : Glossary.table)
    (term : Term.t) :
  NoDup (Term.id <$> Glossary.rows t) →
  term ∈ Glossary.rows t →
  Term.id term = Some key →
  Term.id (f term) = Some key →
  g (f term) = term →
  GlossaryOps.update key g (GlossaryOps.update key f t) = t.
Proof.
  intros Hnd Hin Hid Hfid Hgf. destruct t as [rows nk]. unfold GlossaryOps.update. simpl in *.
  f_equal. rewrite map_map. rewrite <- (map_id rows) at 2.
  apply map_ext_in. intros r Hr. apply list_elem_of_In in Hr.
  destruct (bool_decide_reflect (Term.id r = Some key)) as [Hk|Hk].
  - assert (r = term) as ->.
    { apply list_elem_of_lookup in Hr as [i Hi]. apply list_elem_of_lookup in Hin as [j Hj].
      assert (i = j) as ->.
      { apply (NoDup_lookup (Term.id <$> rows) i j (Some key) Hnd);
          rewrite list_lookup_fmap; [rewrite Hi | rewrite Hj]; simpl; congruence. }
      congruence. }
    rewrite bool_decide_eq_true_2 by exact Hfid. exact Hgf.
  - rewrite bool_decide_eq_false_2 by exact Hk. reflexivity.
Qed.

(** X23. Locking or unlocking a term changes nothing for the deep scan:
    the scan resolves the same candidates whether the terms are locked or
    not.  In a table without repeated keys, toggling the lock of a row and
    then toggling the lock of the row as the table now shows it gives back
    the table. *)
Theorem X23_toggleLock_is_neutral_for_scans
    (term : Term.t) (t : Glossary.table) (key : N) :
  NoDup (Term.id <$> Glossary.rows t) →
  term ∈ Glossary.rows t →
  Term.id term = Some key →
  let toggled := Manager.toggleLock (Normal tt) term t in
  (∀ (toLowerCase : string → string) (rawTerms : list RawTerm.t) (novelId : N),
     uniqueNewTerms toLowerCase rawTerms (Glossary.whereNovel novelId toggled)
     = uniqueNewTerms toLowerCase rawTerms (Glossary.whereNovel novelId t))
  ∧ GlossaryOps.withLocked (negb (Term.isLocked term)) term ∈ Glossary.rows toggled
  ∧ Manager.toggleLock (Normal tt)
      (GlossaryOps.withLocked (negb (Term.isLocked term)) term) toggled
    = t.
Proof.
  intros Hnd Hin Hid toggled. subst toggled. unfold Manager.toggleLock. rewrite Hid.
  split; [|split].
  - intros toLowerCase rawTerms novelId. unfold uniqueNewTerms, existingOriginals.
    rewrite <- !(map_map Term.original toLowerCase).
    change (map Term.original) with (fmap (M:=list) Term.original).
    rewrite update_same_resolution by (intros r; by split). reflexivity.
  - unfold GlossaryOps.update. simpl. apply list_elem_of_In, in_map_iff.
    exists term. split; [|by apply list_elem_of_In].
    rewrite bool_decide_eq_true_2 by exact Hid. reflexivity.
  - simpl. rewrite Hid. apply (update_update_restores key _ _ t term); auto.
    simpl. rewrite negb_involutive. by destruct term.
Qed.

Lemma X23_witness :
  let t := Glossary.add ScanExamples.existing Glossary.empty in
  let row := Glossary.withId 1 ScanExamples.existing in
  NoDup (Term.id <$> Glossary.rows t)
  ∧ row ∈ Glossary.rows t
  ∧ Term.isLocked <$> Glossary.rows (Manager.toggleLock (Normal tt) row t) = [false]
  ∧ Manager.toggleLock (Normal tt) (GlossaryOps.withLocked false row)
      (Manager.toggleLock (Normal tt) row t) = t.
Proof.
  intros t row.
  assert (H1 : NoDup (Term.id <$> Glossary.rows t)) by apply NoDup_singleton.
  assert (H2 : row ∈ Glossary.rows t) by (by left).
  destruct (X23_toggleLock_is_neutral_for_scans row t 1 H1 H2 eq_refl) as (_ & _ & Hback).
  split; [exact H1|]. split; [exact H2|]. split; [reflexivity | exact Hback].
Defined.

(** * Properties of the library *)

Lemma whereNovel_deleteNovel (novelId other : N) (t : Glossary.table) :
  Glossary.whereNovel other (GlossaryOps.deleteNovel novelId t)
  = if decide (other = novelId) then [] else Glossary.whereNovel other t.
Proof.
  unfold Glossary.whereNovel, GlossaryOps.deleteNovel. simpl.
  induction (Glossary.rows t) as [|r rows IH]; simpl; [by case_decide|].
  destruct (N.eqb_spec (Term.novelId r) novelId) as [Hr|Hr]; simpl.
  - rewrite IH. case_decide as Ho; [reflexivity|].
    destruct (N.eqb_spec (Term.novelId r) other); [congruence | reflexivity].
  - rewrite IH. case_decide as Ho.
    + subst other. destruct (N.eqb_spec (Term.novelId r) novelId); [congruence | reflexivity].
    + reflexivity.
Qed.

(** X24. Deleting a novel, once confirmed and committed, removes the
    novel, exactly the chapters of this novel and exactly the terms of
    this novel: every other novel, chapter and term is left as it is, and
    a scan of the deleted novel finds no existing term.  Without the
    confirmation, or when the transaction fails, nothing changes. *)
Theorem X24_delete_novel_cascades (id : N) (db : Library.Db) :
  let db' := Library.handleDelete true (Normal tt) id db in
  (Library.novels db' !! id = None
   ∧ ∀ k, k ≠ id → Library.novels db' !! k = Library.novels db !! k)
  ∧ (∀ k c, Library.chapters db' !! k = Some c
            ↔ Library.chapters db !! k = Some c ∧ Chapter.novelId c ≠ id)
  ∧ (∀ other, Glossary.whereNovel other (Library.glossary db')
              = if decide (other = id) then []
                else Glossary.whereNovel other (Library.glossary db))
  ∧ sublist (Glossary.rows (Library.glossary db')) (Glossary.rows (Library.glossary db))
  ∧ (∀ transaction, Library.handleDelete false transaction id db = db)
  ∧ (∀ e, Library.handleDelete true (Throw e) id db = db).
Proof.
  intros db'. subst db'. simpl.
  split; [split; [apply lookup_delete_eq | intros k Hk; by apply lookup_delete_ne]|].
  split; [intros k c; by rewrite map_lookup_filter_Some|].
  split; [intros other; apply whereNovel_deleteNovel|].
  split; [apply filter_sublist|].
  split; [intros transaction | intros e]; reflexivity.
Qed.

Example delete_novel_example :
  let db' := Library.handleDelete true (Normal tt) 7 LibraryExamples.db in
  dom (Library.novels db') = {[8%N]}
  ∧ dom (Library.chapters db') = {[4%N]}
  ∧ Glossary.rows (Library.glossary db') = [LibraryExamples.otherTerm].
Proof. repeat split; vm_compute; reflexivity. Qed.

(** * Properties of the upload *)

Lemma extensionChars_dot (a b : string) :
  Upload.extensionChars (a +:+ String "." b) = false.
Proof.
  induction a as [|c a IH]; simpl; [reflexivity|].
  rewrite IH. apply andb_false_r.
Qed.

Lemma extensionChars_no_dot (s : string) :
  Upload.extensionChars s = true →
  ∀ a b, s ≠ a +:+ String "." b.
Proof.
  intros Hs a b ->. rewrite extensionChars_dot in Hs. discriminate.
Qed.

(** X25. [removeExtension] cuts a name at its last dot when at least one
    character follows and none of the following characters is a slash:
    for every name, and every such extension, the title of
    [name.extension] is [name], dots and slashes inside [name] included.
    A name without a dot is its own title, and a title is always the
    beginning of the name. *)
Theorem X25_removeExtension_cuts_last_extension (name : string) :
  (∀ extension,
     extension ≠ EmptyString →
     Upload.extensionChars extension = true →
     Upload.removeExtension (name +:+ String "." extension) = name)
  ∧ ((∀ a b, name ≠ a +:+ String "." b) → Upload.removeExtension name = name)
  ∧ ∃ rest, name = Upload.removeExtension name +:+ rest.
Proof.
  split; [|split].
  - intros extension Hne Hext. induction name as [|c name IH]; simpl.
    + destruct (String.eqb_spec extension EmptyString); [congruence|].
      rewrite Hext. reflexivity.
    + rewrite extensionChars_dot, andb_false_r. by rewrite IH.
  - induction name as [|c name IH]; intros Hno; simpl; [reflexivity|].
    assert (Hc : Upload.isDot c = false).
    { apply bool_decide_eq_false. intros Hdot.
      apply (Hno EmptyString name). simpl. f_equal.
      rewrite <- (ascii_nat_embedding c), Hdot. reflexivity. }
    rewrite Hc. simpl. f_equal. apply IH.
    intros a b ->. apply (Hno (String c a) b). reflexivity.
  - induction name as [|c name [rest IH]]; simpl; [by exists EmptyString|].
    destruct (Upload.isDot c && _ && _).
    + by exists (String c name).
    + exists rest. change (String c name = String c (Upload.removeExtension name +:+ rest)).
      f_equal. exact IH.
Qed.

Example removeExtension_examples :
  Upload.removeExtension "chapter 2.final.txt" = "chapter 2.final"
  ∧ Upload.removeExtension "notes" = "notes"
  ∧ Upload.removeExtension "notes." = "notes."
  ∧ Upload.removeExtension ".txt" = EmptyString
  ∧ Upload.removeExtension "vol.1/chapter" = "vol.1/chapter".
Proof. repeat split; vm_compute; reflexivity. Qed.

Lemma readFiles_readable (files : list Upload.File) :
  Forall (λ f, ∃ content, Upload.text f = Normal content) files →
  ∀ i : nat,
  ∃ chapters,
    Upload.readFiles i files = Normal chapters
    ∧ List.length chapters = List.length files
    ∧ ∀ (j : nat) (file : Upload.File),
        files !! j = Some file →
        ∃ content, Upload.text file = Normal content
                   ∧ chapters !! j
                     = Some (Upload.removeExtension (Upload.name file),
                             Z.of_nat (i + j) + 1, content).
Proof.
  induction 1 as [|f rest [content Hf] _ IH]; intros i; simpl.
  - exists []. repeat split. intros j file Hj. by destruct j.
  - rewrite Hf. destruct (IH (S i)) as (chapters & -> & Hlen & Hat).
    eexists. split; [reflexivity|]. split; [simpl; by rewrite Hlen|].
    intros [|j] file Hj; simpl in *.
    + injection Hj as <-. exists content. rewrite Nat.add_0_r. auto.
    + destruct (Hat j file Hj) as (c & Hc & Hlook). exists c. split; [exact Hc|].
      rewrite Hlook. repeat f_equal. lia.
Qed.

Lemma readFiles_unreadable (files : list Upload.File) (file : Upload.File) (e : string) :
  file ∈ files →
  Upload.text file = Throw e →
  ∀ i, ∃ e', Upload.readFiles i files = Throw e'.
Proof.
  induction 1 as [file rest|file f rest _ IH]; intros Hthrow i; simpl.
  - rewrite Hthrow. eauto.
  - destruct (Upload.text f); [|eauto].
    destruct (IH Hthrow (S i)) as [e' ->]. eauto.
Qed.

Lemma bulkAdd_rows (novelId : N) (chapters : list (string * Z * string)) :
  ∀ t : Upload.Table,
  Upload.nextKey (Upload.bulkAdd novelId chapters t)
  = (Upload.nextKey t + N.of_nat (List.length chapters))%N
  ∧ (∀ k, (k < Upload.nextKey t)%N →
          Upload.rows (Upload.bulkAdd novelId chapters t) !! k = Upload.rows t !! k)
  ∧ ∀ (j : nat) title order content,
      chapters !! j = Some (title, order, content) →
      Upload.rows (Upload.bulkAdd novelId chapters t) !! (Upload.nextKey t + N.of_nat j)%N
      = Some (Chapter.mk (Upload.nextKey t + N.of_nat j) novelId title order content
                None None).
Proof.
  induction chapters as [|[[title0 order0] content0] rest IH]; intros t; simpl.
  - split; [lia|]. split; [reflexivity|]. intros j ? ? ? Hj. by destruct j.
  - match goal with
    | |- context [Upload.bulkAdd novelId rest ?t1] =>
        destruct (IH t1) as (Hkey & Hold & Hnew)
    end.
    simpl in *. split; [rewrite Hkey; lia|]. split.
    + intros k Hk. rewrite Hold by lia. apply lookup_insert_ne. lia.
    + intros [|j] title order content Hj; simpl in *.
      * injection Hj as <- <- <-. rewrite N.add_0_r.
        rewrite Hold by lia. apply lookup_insert_eq.
      * specialize (Hnew j title order content Hj).
        replace (Upload.nextKey t + N.of_nat (S j))%N
          with (Upload.nextKey t + 1 + N.of_nat j)%N by lia.
        exact Hnew.
Qed.

(** X26. When every file can be read and the store accepts the rows,
    the upload adds one chapter for each file, in the order of the sorted
    files: the chapter of the file at position [j] receives the key
    generator's [j]-th next key, the file name without its extension as
    title, the order [j + 1] (the numbering starts at 1 in every upload,
    whatever the table holds), the text of the file as content, and no
    translation, so that the next batch queues it.  The rows whose keys
    are below the key generator, which are the chapters that the table
    held, stay as they are. *)
Theorem X26_upload_adds_chapters_in_order
    (novelId : N) (sortedFiles : list Upload.File) (t : Upload.Table) :
  Forall (λ f, ∃ content, Upload.text f = Normal content) sortedFiles →
  let result := Upload.bulkAddChapters (Normal tt) novelId sortedFiles t in
  result.1 = Normal tt
  ∧ Upload.nextKey result.2 = (Upload.nextKey t + N.of_nat (List.length sortedFiles))%N
  ∧ (∀ k, (k < Upload.nextKey t)%N → Upload.rows result.2 !! k = Upload.rows t !! k)
  ∧ ∀ (j : nat) (file : Upload.File),
      sortedFiles !! j = Some file →
      ∃ content chapter,
        Upload.text file = Normal content
        ∧ Upload.rows result.2 !! (Upload.nextKey t + N.of_nat j)%N = Some chapter
        ∧ chapter
          = Chapter.mk (Upload.nextKey t + N.of_nat j) novelId
              (Upload.removeExtension (Upload.name file)) (Z.of_nat j + 1) content None None
        ∧ Bulk.lacksTranslation chapter = true.
Proof.
  intros Hread result. subst result. unfold Upload.bulkAddChapters.
  destruct (readFiles_readable sortedFiles Hread 0) as (chapters & -> & Hlen & Hat).
  simpl. destruct (bulkAdd_rows novelId chapters t) as (Hkey & Hold & Hnew).
  split; [reflexivity|]. split; [by rewrite Hkey, Hlen|]. split; [exact Hold|].
  intros j file Hj. destruct (Hat j file Hj) as (content & Hc & Hlook).
  exists content. eexists. split; [exact Hc|]. split; [|split; [reflexivity|reflexivity]].
  simpl in Hlook. exact (Hnew j _ _ _ Hlook).
Qed.

Lemma X26_witness :
  let result := Upload.bulkAddChapters (Normal tt) 7 LibraryExamples.files
                  LibraryExamples.table in
  Forall (λ f, ∃ content, Upload.text f = Normal content) LibraryExamples.files
  ∧ Upload.nextKey result.2 = 7%N
  ∧ Upload.rows result.2 !! 5%N
    = Some (Chapter.mk 5 7 "chapter 2.final" 2 "second text" None None)
  ∧ Upload.rows result.2 !! 1%N = Some BulkExamples.one.
Proof.
  intros result.
  assert (H : Forall (λ f, ∃ content, Upload.text f = Normal content) LibraryExamples.files)
    by (repeat constructor; eexists; reflexivity).
  destruct (X26_upload_adds_chapters_in_order 7 LibraryExamples.files LibraryExamples.table H)
    as (_ & Hkey & Hold & Hnew).
  split; [exact H|]. split; [exact Hkey|]. split.
  - destruct (Hnew 1%nat _ eq_refl) as (content & chapter & Hc & Hrow & -> & _).
    simpl in Hc. injection Hc as <-. exact Hrow.
  - fold result in Hold. rewrite (Hold 1%N) by (simpl; lia). vm_compute. reflexivity.
Defined.

(** X27. A file that cannot be read aborts the whole upload: the loop
    reads every file before the single [bulkAdd] at its end, so when the
    text of one of the files is refused the upload ends with an error,
    whatever the store would have answered, and the table is left as it
    was, also without the files that were read before the unreadable
    one. *)
Theorem X27_unreadable_file_aborts_upload
    (add : Completion unit) (novelId : N) (sortedFiles : list Upload.File)
    (t : Upload.Table) (file : Upload.File) (e : string) :
  file ∈ sortedFiles →
  Upload.text file = Throw e →
  let result := Upload.bulkAddChapters add novelId sortedFiles t in
  (∃ e', result.1 = Throw e') ∧ result.2 = t.
Proof.
  intros Hin Hthrow result. subst result. unfold Upload.bulkAddChapters.
  destruct (readFiles_unreadable sortedFiles file e Hin Hthrow 0) as [e' ->].
  simpl. eauto.
Qed.

Lemma X27_witness :
  let result := Upload.bulkAddChapters (Normal tt) 7 LibraryExamples.unreadable
                  LibraryExamples.table in
  Upload.mkFile "chapter 2.txt" (Throw "NotReadableError") ∈ LibraryExamples.unreadable
  ∧ result.1 = Throw "NotReadableError"
  ∧ result.2 = LibraryExamples.table.
Proof.
  intros result.
  assert (H : Upload.mkFile "chapter 2.txt" (Throw "NotReadableError")
              ∈ LibraryExamples.unreadable) by (right; left).
  destruct (X27_unreadable_file_aborts_upload (Normal tt) 7 LibraryExamples.unreadable
              LibraryExamples.table _ "NotReadableError" H eq_refl)
    as [_ Hsame].
  split; [exact H|]. split; [reflexivity | exact Hsame].
Defined.
